(** * AI_Creative: the result-acquisition core of [services/geminiService.ts]
      and the edit handler of [App.tsx]

    The service functions are asynchronous TypeScript functions that talk to a
    remote generative-media service.  They are embedded as computations in a
    small promise monad: a computation takes the world (the chronological
    trace of observable effects and the private state of the caller) and
    gives back the state of its promise together with the new world.  The
    remote service is a script: for every kind of call, the answer to the
    n-th call of that kind.  The two unbounded loops ([while (true)] of
    [editImage], [while (!operation.done)] of [generateVideo]) take the number
    of iterations that the observer is willing to wait for; a promise that
    has not settled by then is [Pending]. *)

From Stdlib Require Import ZArith List Lia.
From stdpp Require Import base strings pretty list gmap.

Open Scope string_scope.
Open Scope list_scope.

(** ** Strings of the host language *)

Module Js.

(** UTF-8 encoding of a code point of the basic multilingual plane. *)
Definition byte (n : N) : string := String (Ascii.ascii_of_N n) "".

Definition utf8 (cp : N) : string :=
  if (cp <? 128)%N then byte cp
  else if (cp <? 2048)%N then
    byte (192 + cp / 64) +:+ byte (128 + cp mod 64)
  else
    byte (224 + cp / 4096) +:+ byte (128 + (cp / 64) mod 64) +:+ byte (128 + cp mod 64).

(** The code points that [String.prototype.trim] removes: WhiteSpace and
    LineTerminator of ECMAScript. *)
Definition whiteSpaceCodePoints : list N :=
  [ 9; 10; 11; 12; 13; 32; 160; 5760;
    8192; 8193; 8194; 8195; 8196; 8197; 8198; 8199; 8200; 8201; 8202;
    8232; 8233; 8239; 8287; 12288; 65279 ]%N.

Definition whiteSpace : list string := map utf8 whiteSpaceCodePoints.

Fixpoint dropBytes (n : nat) (s : string) : string :=
  match n, s with
  | O, _ => s
  | S n, String _ s => dropBytes n s
  | S _, EmptyString => EmptyString
  end.

(** Remove one leading sequence out of [seqs], if there is one. *)
Definition stripOne (seqs : list string) (s : string) : option string :=
  match find (fun ws => String.prefix ws s) seqs with
  | Some ws => Some (dropBytes (String.length ws) s)
  | None => None
  end.

Fixpoint stripLeading (fuel : nat) (seqs : list string) (s : string) : string :=
  match fuel with
  | O => s
  | S fuel =>
      match stripOne seqs s with
      | Some s' => stripLeading fuel seqs s'
      | None => s
      end
  end.

Definition trimStart (s : string) : string :=
  stripLeading (String.length s) whiteSpace s.

Definition trimEnd (s : string) : string :=
  String.rev (stripLeading (String.length s) (map String.rev whiteSpace) (String.rev s)).

(** [s.trim()] *)
Definition trim (s : string) : string := trimEnd (trimStart s).

(** Truthiness of a string: the empty string is falsy. *)
Definition truthy (s : string) : bool := negb (String.eqb s "").

(** [a || b] on strings. *)
Definition or (a b : string) : string := if truthy a then a else b.

(** The double quote character. *)
Definition dquote : string := byte 34.

(** What a template literal substitutes for a value that may be [undefined]. *)
Definition interpolate (o : option string) : string :=
  match o with Some s => s | None => "undefined" end.

End Js.

(** ** Thrown values and promises *)

(** A thrown value is told apart by [error instanceof Error] only: an
    [Error] instance carries a [message], any other value is used for
    nothing. *)
Inductive Thrown : Type :=
  | Error (message : string)
  | NonError.

Inductive PromiseState (A : Type) : Type :=
  | Fulfilled (value : A)
  | Rejected (reason : Thrown)
  | Pending.
Arguments Fulfilled {A} value.
Arguments Rejected {A} reason.
Arguments Pending {A}.

(** ** Data of the remote service, as the code reads it

    The records have the fields that the code reads or writes.  A field is
    optional where the code reads it through [?.] or tests it, and also
    where the code reads a property or calls a method of its value without a
    test, so that its absence throws ([mimeType] of an inline blob, [image]
    of a generated image).  [data] of a blob and [imageBytes] of an image are
    handed on as they are. *)

Record Blob := { data : string; mimeType : option string }.

Record Part := { inlineData : option Blob; text : option string }.

Record Content := { parts : option (list Part) }.

Record Candidate := { content : option Content }.

(** [responseText] is the [text] accessor of the response. *)
Record GenerateContentResponse :=
  { candidates : option (list Candidate); responseText : option string }.

Inductive Modality := IMAGE | TEXT.

Record GenerateContentParameters :=
  { gc_model : string;
    gc_contents : list Part;
    gc_responseModalities : list Modality }.

Record Image := { imageBytes : string }.
Record GeneratedImage := { image : option Image }.
Record GenerateImagesResponse := { generatedImages : option (list GeneratedImage) }.

Record GenerateImagesParameters :=
  { gi_model : string;
    gi_prompt : string;
    gi_numberOfImages : Z;
    gi_outputMimeType : string;
    gi_aspectRatio : string }.

Record SeedImage := { seed_imageBytes : string; seed_mimeType : string }.

Record GenerateVideosParameters :=
  { gv_model : string;
    gv_prompt : string;
    gv_image : option SeedImage;
    gv_numberOfVideos : Z }.

Record Video := { uri : option string }.
Record GeneratedVideo := { video : option Video }.
Record GenerateVideosResponse := { generatedVideos : option (list GeneratedVideo) }.

(** The job handle.  [name] stands for everything in the handle that the
    code hands back without reading it. *)
Record Operation :=
  { name : string;
    done : option bool;
    response : option GenerateVideosResponse }.

(** The answer of [fetch]: [blob] is the outcome of [response.blob()]. *)
Record FetchResponse :=
  { ok : bool; statusText : string; blob : Thrown + string }.

Record File := { file_name : string; lastModified : Z; type : string; bytes : string }.

(** The remote service and the host, as scripts: the last argument of a call
    is the number of earlier calls of the same kind.  [typeErrorMessage p] is
    the message of the [TypeError] that the engine throws when the property
    [p] of [undefined] is read. *)
Record Remote :=
  { generateContent : GenerateContentParameters -> nat -> Thrown + GenerateContentResponse;
    generateImages : GenerateImagesParameters -> nat -> Thrown + GenerateImagesResponse;
    generateVideos : GenerateVideosParameters -> nat -> Thrown + Operation;
    getVideosOperation : Operation -> nat -> Thrown + Operation;
    fetch : string -> nat -> Thrown + FetchResponse;
    createObjectURL : string -> string;
    fileToBase64 : File -> Thrown + string;
    API_KEY : option string;
    typeErrorMessage : string -> string }.

(** ** Observable effects *)

Inductive Event : Type :=
  | EvGenerateContent (params : GenerateContentParameters)
  | EvGenerateImages (params : GenerateImagesParameters)
  | EvGenerateVideos (params : GenerateVideosParameters)
  | EvGetVideosOperation (operation : Operation)
  | EvFetch (url : string)
  | EvCreateObjectURL (videoBlob : string)
  | EvFileToBase64 (file : File)
  | EvTimeout (ms : Z)
  | EvProgress (message : string)
  | EvWarn (message : string)
  | EvConsoleError (label : string) (error : Thrown).

Definition isGenerateContent (e : Event) : bool :=
  match e with EvGenerateContent _ => true | _ => false end.
Definition isGenerateImages (e : Event) : bool :=
  match e with EvGenerateImages _ => true | _ => false end.
Definition isGenerateVideos (e : Event) : bool :=
  match e with EvGenerateVideos _ => true | _ => false end.
Definition isGetVideosOperation (e : Event) : bool :=
  match e with EvGetVideosOperation _ => true | _ => false end.
Definition isFetch (e : Event) : bool :=
  match e with EvFetch _ => true | _ => false end.
Definition isTimeout (e : Event) : bool :=
  match e with EvTimeout _ => true | _ => false end.

(** Number of events of one kind in a trace. *)
Definition count (p : Event -> bool) (t : list Event) : nat :=
  length (List.filter p t).

(** The messages handed to the progress sink, in order. *)
Definition progressMessages (t : list Event) : list string :=
  flat_map (fun e => match e with EvProgress m => [m] | _ => [] end) t.

(** The lengths of the waits, in order. *)
Definition timeouts (t : list Event) : list Z :=
  flat_map (fun e => match e with EvTimeout ms => [ms] | _ => [] end) t.

(** ** The promise monad *)

Record World (X : Type) := { trace : list Event; caller : X }.
Arguments trace {X} w.
Arguments caller {X} w.

Definition Async (X A : Type) : Type := World X -> PromiseState A * World X.

Section Async.
Context {X : Type}.

#[export] Instance Async_ret : MRet (Async X) :=
  fun A (a : A) w => (Fulfilled a, w).

#[export] Instance Async_bind : MBind (Async X) :=
  fun A B (k : A -> Async X B) (m : Async X A) w =>
    match m w with
    | (Fulfilled a, w') => k a w'
    | (Rejected e, w') => (Rejected e, w')
    | (Pending, w') => (Pending, w')
    end.

(** [throw e] *)
Definition throw {A} (e : Thrown) : Async X A := fun w => (Rejected e, w).

(** A promise that the observer does not see settle. *)
Definition pending {A} : Async X A := fun w => (Pending, w).

(** [try { m } catch (error) { handler error }] *)
Definition tryCatch {A} (m : Async X A) (handler : Thrown -> Async X A) : Async X A :=
  fun w =>
    match m w with
    | (Rejected e, w') => handler e w'
    | r => r
    end.

(** [try { m } finally { cleanup }]: the cleanup runs once [m] has settled,
    and the outcome of [m] stands unless the cleanup itself fails. *)
Definition tryFinally {A} (m : Async X A) (cleanup : Async X unit) : Async X A :=
  fun w =>
    match m w with
    | (Pending, w') => (Pending, w')
    | (r, w') =>
        match cleanup w' with
        | (Fulfilled _, w'') => (r, w'')
        | (Rejected e, w'') => (Rejected e, w'')
        | (Pending, w'') => (Pending, w'')
        end
    end.

(** Append an event to the trace. *)
Definition emit (e : Event) : Async X unit :=
  fun w => (Fulfilled tt, {| trace := trace w ++ [e]; caller := caller w |}).

(** A call to the outside: the event is recorded, the script answers. *)
Definition perform {A} (e : Event) (answer : Thrown + A) : Async X A :=
  fun w =>
    let w' := {| trace := trace w ++ [e]; caller := caller w |} in
    match answer with
    | inl err => (Rejected err, w')
    | inr a => (Fulfilled a, w')
    end.

(** A promise of the outside that leaves no event of its own. *)
Definition settle {A} (answer : Thrown + A) : Async X A :=
  fun w =>
    match answer with
    | inl err => (Rejected err, w)
    | inr a => (Fulfilled a, w)
    end.

(** An expression of the code that gives a value or throws. *)
Definition evaluate {A} (outcome : Thrown + A) : Async X A :=
  fun w =>
    match outcome with
    | inl err => (Rejected err, w)
    | inr a => (Fulfilled a, w)
    end.

(** A call of a function that the caller has handed in: it returns with the
    caller's new state, or it throws. *)
Definition invoke (f : X -> Thrown + X) : Async X unit :=
  fun w =>
    match f (caller w) with
    | inl err => (Rejected err, w)
    | inr x => (Fulfilled tt, {| trace := trace w; caller := x |})
    end.

(** Update of the caller's state (a React state setter). *)
Definition update (f : X -> X) : Async X unit :=
  fun w => (Fulfilled tt, {| trace := trace w; caller := f (caller w) |}).

(** [await new Promise(resolve => setTimeout(resolve, ms))] *)
Definition sleep (ms : Z) : Async X unit := emit (EvTimeout ms).

Definition console_warn (message : string) : Async X unit := emit (EvWarn message).

Definition console_error (label : string) (error : Thrown) : Async X unit :=
  emit (EvConsoleError label error).

End Async.

(** ** [services/geminiService.ts] *)

Section Service.
Context {X : Type}.
Variable ai : Remote.

Definition ai_models_generateContent (params : GenerateContentParameters)
  : Async X GenerateContentResponse :=
  fun w => perform (EvGenerateContent params)
             (generateContent ai params (count isGenerateContent (trace w))) w.

Definition ai_models_generateImages (params : GenerateImagesParameters)
  : Async X GenerateImagesResponse :=
  fun w => perform (EvGenerateImages params)
             (generateImages ai params (count isGenerateImages (trace w))) w.

Definition ai_models_generateVideos (params : GenerateVideosParameters)
  : Async X Operation :=
  fun w => perform (EvGenerateVideos params)
             (generateVideos ai params (count isGenerateVideos (trace w))) w.

Definition ai_operations_getVideosOperation (operation : Operation)
  : Async X Operation :=
  fun w => perform (EvGetVideosOperation operation)
             (getVideosOperation ai operation (count isGetVideosOperation (trace w))) w.

Definition window_fetch (url : string) : Async X FetchResponse :=
  fun w => perform (EvFetch url) (fetch ai url (count isFetch (trace w))) w.

Definition URL_createObjectURL (videoBlob : string) : Async X string :=
  emit (EvCreateObjectURL videoBlob);; mret (createObjectURL ai videoBlob).

Definition RETRY_DELAY : Z := 1000.

(** The [TypeError] for reading the property [property] of [undefined]. *)
Definition typeError (property : string) : Thrown :=
  Error (typeErrorMessage ai property).

(** [part.inlineData?.mimeType.startsWith('image/')]: [undefined], which
    counts as false, for a part without inline data, and a [TypeError] for
    inline data without [mimeType]. *)
Definition isImagePart (part : Part) : Thrown + bool :=
  match inlineData part with
  | Some inline =>
      match mimeType inline with
      | Some m => inr (String.prefix "image/" m)
      | None => inl (typeError "startsWith")
      end
  | None => inr false
  end.

(** [parts.find(isImagePart)]: the parts are tried in order up to the first
    for which the test holds; a test that throws ends the search. *)
Fixpoint findImagePart (ps : list Part) : Thrown + option Part :=
  match ps with
  | [] => inr None
  | part :: rest =>
      match isImagePart part with
      | inl err => inl err
      | inr true => inr (Some part)
      | inr false => findImagePart rest
      end
  end.

(** [response.candidates?.[0]?.content?.parts] *)
Definition firstCandidateParts (response : GenerateContentResponse) : option (list Part) :=
  cs ← candidates response; c ← head cs; ct ← content c; parts ct.

(** [response.candidates?.[0]?.content?.parts?.find(...)] *)
Definition imagePartOf (response : GenerateContentResponse) : Thrown + option Part :=
  match firstCandidateParts response with
  | Some ps => findImagePart ps
  | None => inr None
  end.

(** [response.text?.trim() || ''] *)
Definition lastTextResponseOf (response : GenerateContentResponse) : string :=
  match responseText response with
  | Some t => Js.or (Js.trim t) ""
  | None => ""
  end.

Definition editRequest (base64ImageData mimeType prompt : string) : GenerateContentParameters :=
  {| gc_model := "gemini-2.5-flash-image";
     gc_contents :=
       [ {| inlineData := Some {| data := base64ImageData; mimeType := Some mimeType |};
            text := None |};
         {| inlineData := None; text := Some prompt |} ];
     gc_responseModalities := [IMAGE; TEXT] |}.

(** The diagnostic of an attempt without image. *)
Definition retryWarning (attempt : nat) (lastTextResponse : string) : string :=
  if Js.truthy lastTextResponse then
    "API 返回文字，重試中... (第 " +:+ pretty attempt +:+ " 次). 回應: "
      +:+ Js.dquote +:+ lastTextResponse +:+ Js.dquote
  else
    "API 未返回圖片，重試中... (第 " +:+ pretty attempt +:+ " 次)".

(** The [while (true)] loop of [editImage], [fuel] iterations of it. *)
Fixpoint editImage_loop (fuel : nat) (base64ImageData mimeType prompt : string)
    (attempt : nat) : Async X string :=
  match fuel with
  | O => pending
  | S fuel =>
      response ← ai_models_generateContent (editRequest base64ImageData mimeType prompt);
      imagePart ← evaluate (imagePartOf response);
      match imagePart ≫= inlineData with
      | Some inline => mret (data inline)
      | None =>
          console_warn (retryWarning attempt (lastTextResponseOf response));;
          sleep RETRY_DELAY;;
          editImage_loop fuel base64ImageData mimeType prompt (S attempt)
      end
  end.

Definition editImage (fuel : nat) (base64ImageData mimeType prompt : string)
  : Async X string :=
  tryCatch
    (editImage_loop fuel base64ImageData mimeType prompt 1)
    (fun error =>
       console_error "調用 Gemini API 進行圖片編輯時出錯:" error;;
       match error with
       | Error message => throw (Error ("編輯圖片失敗： " +:+ message))
       | NonError => throw (Error "編輯圖片時發生未知的錯誤。")
       end).

Definition imageRequest (prompt : string) : GenerateImagesParameters :=
  {| gi_model := "imagen-4.0-generate-001";
     gi_prompt := prompt;
     gi_numberOfImages := 1;
     gi_outputMimeType := "image/jpeg";
     gi_aspectRatio := "1:1" |}.

(** [generateImage]: one call, no loop. *)
Definition generateImage (prompt : string) : Async X string :=
  tryCatch
    (response ← ai_models_generateImages (imageRequest prompt);
     match generatedImages response with
     | Some (first :: _) =>
         match image first with
         | Some image => mret (imageBytes image)
         | None => throw (typeError "imageBytes")
         end
     | Some [] | None => throw (Error "API 未返回任何圖片。")
     end)
    (fun error =>
       console_error "調用 Gemini API 進行圖片生成時出錯:" error;;
       match error with
       | Error message => throw (Error ("圖片生成失敗： " +:+ message))
       | NonError => throw (Error "生成圖片時發生未知的錯誤。")
       end).

Definition POLLING_INTERVAL : Z := 10000.

Definition messages : list string :=
  [ "正在設定場景...";
    "AI 正在發揮創意...";
    "正在渲染每一幀...";
    "快好了，正在進行最後的潤飾...";
    "正在為您的影片注入魔法..." ].

(** [messages[messageIndex % messages.length]] *)
Definition messageAt (messageIndex : nat) : string :=
  nth (messageIndex mod length messages) messages "undefined".

(** A call of the progress callback: the call is recorded and the callback
    runs on the caller's state.  It gives no result to the code; it returns,
    leaving the caller's new state, or it throws. *)
Definition notify (onProgress : string -> X -> Thrown + X) (message : string)
  : Async X unit :=
  emit (EvProgress message);; invoke (onProgress message).

(** A callback that returns: it makes [f message] of the caller's state. *)
Definition returning (f : string -> X -> X) : string -> X -> Thrown + X :=
  fun message x => inr (f message x).

(** [operation.done] as a condition *)
Definition isDone (operation : Operation) : bool :=
  match done operation with Some true => true | _ => false end.

(** The [while (!operation.done)] loop of [generateVideo], at most [fuel]
    iterations of it. *)
Fixpoint generateVideo_loop (fuel : nat) (onProgress : string -> X -> Thrown + X)
    (operation : Operation) (messageIndex : nat) : Async X Operation :=
  if isDone operation then mret operation
  else
    match fuel with
    | O => pending
    | S fuel =>
        notify onProgress (messageAt messageIndex);;
        sleep POLLING_INTERVAL;;
        operation' ← ai_operations_getVideosOperation operation;
        generateVideo_loop fuel onProgress operation' (S messageIndex)
    end.

(** [operation.response?.generatedVideos?.[0]?.video?.uri] *)
Definition downloadLinkOf (operation : Operation) : option string :=
  r ← response operation; vs ← generatedVideos r; v ← head vs; vd ← video v; uri vd.

(** [base64ImageData && mimeType ? { imageBytes, mimeType } : undefined] *)
Definition seedImageOf (base64ImageData mimeType : option string) : option SeedImage :=
  match base64ImageData, mimeType with
  | Some b, Some m =>
      if Js.truthy b && Js.truthy m
      then Some {| seed_imageBytes := b; seed_mimeType := m |}
      else None
  | _, _ => None
  end.

Definition videoRequest (prompt : string) (base64ImageData mimeType : option string)
  : GenerateVideosParameters :=
  {| gv_model := "veo-2.0-generate-001";
     gv_prompt := prompt;
     gv_image := seedImageOf base64ImageData mimeType;
     gv_numberOfVideos := 1 |}.

Definition generateVideo (fuel : nat) (prompt : string)
    (base64ImageData mimeType : option string) (onProgress : string -> X -> Thrown + X)
  : Async X string :=
  tryCatch
    (notify onProgress "正在初始化影片生成...";;
     operation ← ai_models_generateVideos (videoRequest prompt base64ImageData mimeType);
     operation ← generateVideo_loop fuel onProgress operation 0;
     match downloadLinkOf operation with
     | Some downloadLink =>
         if Js.truthy downloadLink then
           notify onProgress "正在獲取影片...";;
           let videoUrl := downloadLink +:+ "&key=" +:+ Js.interpolate (API_KEY ai) in
           response ← window_fetch videoUrl;
           if ok response then
             videoBlob ← settle (blob response);
             URL_createObjectURL videoBlob
           else throw (Error ("無法下載影片： " +:+ statusText response))
         else throw (Error "影片生成失敗，未收到下載連結。")
     | None => throw (Error "影片生成失敗，未收到下載連結。")
     end)
    (fun error =>
       console_error "調用 Gemini API 進行影片生成時出錯:" error;;
       match error with
       | Error message => throw (Error ("影片生成失敗： " +:+ message))
       | NonError => throw (Error "生成影片時發生未知的錯誤。")
       end).

Definition defaultPrompt : string :=
  "請擴展這張圖片的畫布，以符合邏輯且無縫的方式，用延伸原始場景的內容填滿新的區域。保持原始圖片的風格與畫質。".

(** [prompt && prompt.trim() ? prompt : defaultPrompt] *)
Definition finalPromptOf (prompt : option string) : string :=
  match prompt with
  | Some p => if Js.truthy p && Js.truthy (Js.trim p) then p else defaultPrompt
  | None => defaultPrompt
  end.

Definition outpaintImage (fuel : nat) (base64ImageData mimeType : string)
    (prompt : option string) : Async X string :=
  let finalPrompt := finalPromptOf prompt in
  editImage fuel base64ImageData mimeType finalPrompt.

Definition upscalePrompt : string :=
  "請將這張圖片的解析度提升至更高品質。銳化細節、減少壓縮痕跡與噪點，並增加整體清晰度，同時保持原始圖像的真實性。讓它看起來更清晰、更細膩。".

Definition upscaleImage (fuel : nat) (base64ImageData mimeType : string) : Async X string :=
  let prompt := upscalePrompt in
  editImage fuel base64ImageData mimeType prompt.

End Service.

(** ** [App.tsx]: the state of the edit tab and [handleEdit] *)

(** The part of the component state that [handleEdit] reads or sets. *)
Record EditState :=
  { prompt : string;
    originalFiles : list File;
    editedImages : gmap string (option string);
    selectedFileIndex : option nat;
    outputName : string;
    isOutpaint : bool }.

Record AppState :=
  { isLoading : bool;
    error : option string;
    editState : EditState }.

Section App.
Variable ai : Remote.

Definition setIsLoading (v : bool) : Async AppState unit :=
  update (fun s => {| isLoading := v; error := error s; editState := editState s |}).

Definition setError (v : option string) : Async AppState unit :=
  update (fun s => {| isLoading := isLoading s; error := v; editState := editState s |}).

(** [setEditState(prev => f prev)] *)
Definition setEditState (f : EditState -> EditState) : Async AppState unit :=
  update (fun s => {| isLoading := isLoading s; error := error s; editState := f (editState s) |}).

(** [{ ...prev, editedImages: { ...prev.editedImages, [fileKey]: value } }] *)
Definition withEditedImage (fileKey : string) (value : option string) (prev : EditState)
  : EditState :=
  {| prompt := prompt prev;
     originalFiles := originalFiles prev;
     editedImages := <[fileKey := value]> (editedImages prev);
     selectedFileIndex := selectedFileIndex prev;
     outputName := outputName prev;
     isOutpaint := isOutpaint prev |}.

(** The memoized [selectedOriginalFile]. *)
Definition selectedOriginalFile (es : EditState) : option File :=
  i ← selectedFileIndex es; originalFiles es !! i.

(** [file.name + file.lastModified] *)
Definition fileKeyOf (file : File) : string :=
  file_name file +:+ pretty (lastModified file).

Definition readFile (file : File) : Async AppState string :=
  perform (EvFileToBase64 file) (fileToBase64 ai file).

(** [err instanceof Error ? err.message : '...'] *)
Definition displayMessage (err : Thrown) : string :=
  match err with
  | Error message => message
  | NonError => "發生未知的錯誤。"
  end.

(** [handleEdit] as built by the render that saw the state [rendered]. *)
Definition handleEdit (fuel : nat) (rendered : AppState) : Async AppState unit :=
  let editState := editState rendered in
  match selectedOriginalFile editState with
  | None => setError (Some "請先上傳並選擇一張圖片。")
  | Some selectedOriginalFile =>
      if negb (isOutpaint editState) && negb (Js.truthy (Js.trim (prompt editState)))
      then setError (Some "請輸入編輯提示。")
      else
        setIsLoading true;; setError None;;
        let fileKey := fileKeyOf selectedOriginalFile in
        setEditState (withEditedImage fileKey None);;
        tryFinally
          (tryCatch
             (base64Data ← readFile selectedOriginalFile;
              result ←
                (if isOutpaint editState
                 then outpaintImage ai fuel base64Data (type selectedOriginalFile)
                        (Some (prompt editState))
                 else editImage ai fuel base64Data (type selectedOriginalFile)
                        (prompt editState));
              setEditState (withEditedImage fileKey (Some result)))
             (fun err => setError (Some (displayMessage err))))
          (setIsLoading false)
  end.

End App.

(** * Vocabulary of the statements *)

(** A run starts in a world without history. *)
Definition start {X : Type} (x : X) : World X := {| trace := []; caller := x |}.

(** The parts of all candidates of a response. *)
Definition allParts (response : GenerateContentResponse) : list Part :=
  flat_map (fun c => default [] (content c ≫= parts)) (default [] (candidates response)).

(** The part is image-typed: it holds inline data whose MIME type begins
    with [image/]. *)
Definition imageTyped (part : Part) : bool :=
  match inlineData part ≫= mimeType with
  | Some m => String.prefix "image/" m
  | None => false
  end.

(** The part holds inline data without MIME type. *)
Definition untypedInline (part : Part) : bool :=
  match inlineData part with
  | Some inline =>
      match mimeType inline with
      | Some _ => false
      | None => true
      end
  | None => false
  end.

(** The response holds an image-typed part, in whichever candidate. *)
Definition containsImagePart (response : GenerateContentResponse) : bool :=
  existsb imageTyped (allParts response).

(** The parts of the first candidate; none when there is no first candidate
    or it has no content or no parts. *)
Definition firstParts (response : GenerateContentResponse) : list Part :=
  default [] (firstCandidateParts response).

(** *** Traces of [editImage] *)

(** The message of the error that [editImage] throws for a caught value. *)
Definition editFailure (e : Thrown) : string :=
  match e with
  | Error message => "編輯圖片失敗： " +:+ message
  | NonError => "編輯圖片時發生未知的錯誤。"
  end.

(** What one attempt without image leaves in the trace. *)
Definition retryEvents (base64ImageData mimeType prompt : string)
    (attempt : nat) (response : GenerateContentResponse) : list Event :=
  [ EvGenerateContent (editRequest base64ImageData mimeType prompt);
    EvWarn (retryWarning attempt (lastTextResponseOf response));
    EvTimeout RETRY_DELAY ].

(** The trace of [n] attempts without image, the first of them being call
    number [c] with attempt counter [attempt]. *)
Fixpoint retryTrace (base64ImageData mimeType prompt : string)
    (rs : nat -> GenerateContentResponse) (c attempt n : nat) : list Event :=
  match n with
  | O => []
  | S n =>
      retryEvents base64ImageData mimeType prompt attempt (rs c)
      ++ retryTrace base64ImageData mimeType prompt rs (S c) (S attempt) n
  end.

(** The prompts that a trace shows to have been sent for editing. *)
Definition sentPrompts (t : list Event) : list (option string) :=
  flat_map (fun e => match e with
                     | EvGenerateContent params => map text (tail (gc_contents params))
                     | _ => []
                     end) t.

(** *** Traces of [generateVideo] *)

(** The caller's state after a sink that returns, making [onProgress m] of
    the state at each message [m], has received the messages [ms]. *)
Definition deliver {X : Type} (onProgress : string -> X -> X) (ms : list string) (x : X) : X :=
  fold_left (fun x m => onProgress m x) ms x.

(** The handles passed to the status query, in order. *)
Definition polled (t : list Event) : list Operation :=
  flat_map (fun e => match e with EvGetVideosOperation op => [op] | _ => [] end) t.

(** What one iteration of the polling loop leaves in the trace. *)
Definition pollEvents (messageIndex : nat) (operation : Operation) : list Event :=
  [ EvProgress (messageAt messageIndex);
    EvTimeout POLLING_INTERVAL;
    EvGetVideosOperation operation ].

(** The trace of [n] iterations: iteration [i] shows message [messageIndex + i]
    and queries with the handle [ops (c + i)]. *)
Fixpoint pollTrace (ops : nat -> Operation) (c messageIndex n : nat) : list Event :=
  match n with
  | O => []
  | S n => pollEvents messageIndex (ops c) ++ pollTrace ops (S c) (S messageIndex) n
  end.

(** The world in which the loop is left after [n] polls of a fresh run. *)
Definition polledWorld {X : Type} (onProgress : string -> X -> X) (prompt : string)
    (base64ImageData mimeType : option string)
    (ops : nat -> Operation) (n : nat) (x : X) : World X :=
  {| trace := [ EvProgress "正在初始化影片生成...";
                EvGenerateVideos (videoRequest prompt base64ImageData mimeType) ]
              ++ pollTrace ops 0 0 n;
     caller := deliver onProgress
                 ("正在初始化影片生成..." :: map messageAt (seq 0 n)) x |}.

(** *** [handleEdit] *)

(** The state in which [handleEdit] makes its call: loading, no error, and
    the entry of the file cleared. *)
Definition cleared (fileKey : string) (s : AppState) : AppState :=
  {| isLoading := true;
     error := None;
     editState := withEditedImage fileKey None (editState s) |}.

(** The call that [handleEdit] awaits: the file is read and handed to
    [outpaintImage] or to [editImage]. *)
Definition editCall (ai : Remote) (fuel : nat) (es : EditState) (file : File)
  : Async AppState string :=
  base64Data ← readFile ai file;
  if isOutpaint es
  then outpaintImage ai fuel base64Data (type file) (Some (prompt es))
  else editImage ai fuel base64Data (type file) (prompt es).

(** The checks of [handleEdit] on the prompt let it go on. *)
Definition promptAccepted (es : EditState) : Prop :=
  isOutpaint es = true \/ Js.trim (prompt es) <> "".

(** What [handleEdit] makes of the settled call. *)
Definition afterCall (fileKey : string) (call : PromiseState string * World AppState)
  : PromiseState unit * World AppState :=
  match call with
  | (Fulfilled result, w) =>
      (Fulfilled tt,
       {| trace := trace w;
          caller := {| isLoading := false;
                       error := error (caller w);
                       editState := withEditedImage fileKey (Some result)
                                      (editState (caller w)) |} |})
  | (Rejected e, w) =>
      (Fulfilled tt,
       {| trace := trace w;
          caller := {| isLoading := false;
                       error := Some (displayMessage e);
                       editState := editState (caller w) |} |})
  | (Pending, w) => (Pending, w)
  end.

(** *** Invariants and simulations *)

(** The computation keeps the invariant [I] of the world. *)
Definition preserves {X A : Type} (I : World X -> Prop) (m : Async X A) : Prop :=
  forall w, I w -> I (snd (m w)).

(** The callback returns from every call. *)
Definition returns {X : Type} (sink : string -> X -> Thrown + X) : Prop :=
  forall message x, exists x', sink message x = inr x'.

(** The caller's state after the sink has been called on the messages [ms]
    in turn, or the first value that it throws. *)
Fixpoint handOver {X : Type} (sink : string -> X -> Thrown + X) (ms : list string) (x : X)
  : Thrown + X :=
  match ms with
  | [] => inr x
  | m :: ms =>
      match sink m x with
      | inl e => inl e
      | inr x' => handOver sink ms x'
      end
  end.

(** From worlds with the same trace, the two computations settle alike and
    leave the same trace. *)
Definition sim {X1 X2 A : Type} (m1 : Async X1 A) (m2 : Async X2 A) : Prop :=
  forall w1 w2, trace w1 = trace w2 ->
    fst (m1 w1) = fst (m2 w2) /\ trace (snd (m1 w1)) = trace (snd (m2 w2)).

(** ** Scenarios *)

Definition textPart (t : string) : Part := {| inlineData := None; text := Some t |}.

Definition imagePart (d : string) : Part :=
  {| inlineData := Some {| data := d; mimeType := Some "image/png" |}; text := None |}.

(** Inline data that does not say what it is. *)
Definition untypedPart (d : string) : Part :=
  {| inlineData := Some {| data := d; mimeType := None |}; text := None |}.

(** The message of the engine for a read of [undefined]. *)
Definition readOfUndefined (property : string) : string :=
  "Cannot read properties of undefined (reading '" +:+ property +:+ "')".

Definition candidateOf (ps : list Part) : Candidate :=
  {| content := Some {| parts := Some ps |} |}.

(** An answer made of text only. *)
Definition textResponse (t : string) : GenerateContentResponse :=
  {| candidates := Some [candidateOf [textPart t]]; responseText := Some t |}.

(** An answer with some text and an image. *)
Definition imageResponse (t d : string) : GenerateContentResponse :=
  {| candidates := Some [candidateOf [textPart t; imagePart d]]; responseText := Some t |}.

(** An answer whose only image is in its second candidate. *)
Definition laterCandidateResponse (t d : string) : GenerateContentResponse :=
  {| candidates := Some [candidateOf [textPart t]; candidateOf [imagePart d]];
     responseText := Some t |}.

(** A service of which only [generateContent] is scripted. *)
Definition editingRemote (script : nat -> Thrown + GenerateContentResponse) : Remote :=
  {| generateContent := fun _ n => script n;
     generateImages := fun _ _ => inl NonError;
     generateVideos := fun _ _ => inl NonError;
     getVideosOperation := fun _ _ => inl NonError;
     fetch := fun _ _ => inl NonError;
     createObjectURL := fun b => b;
     fileToBase64 := fun f => inr (bytes f);
     API_KEY := None;
     typeErrorMessage := readOfUndefined |}.

(** Text on the first attempt, an image on the second. *)
Definition textThenImage : Remote :=
  editingRemote (fun n => match n with
                          | 0 => inr (textResponse "I cannot do that.")
                          | _ => inr (imageResponse "Here you are." "AAAA")
                          end).

(** Text on the first attempt, a fault on the second. *)
Definition textThenFault : Remote :=
  editingRemote (fun n => match n with
                          | 0 => inr (textResponse "I cannot do that.")
                          | _ => inl (Error "quota exceeded")
                          end).

(** Text for ever. *)
Definition alwaysText : Remote :=
  editingRemote (fun _ => inr (textResponse "I cannot do that.")).

(** For ever an answer whose image is in the second candidate. *)
Definition alwaysLaterCandidate : Remote :=
  editingRemote (fun _ => inr (laterCandidateResponse "Two drafts." "AAAA")).

(** An answer whose only part is inline data without MIME type. *)
Definition untypedResponse (d : string) : GenerateContentResponse :=
  {| candidates := Some [candidateOf [untypedPart d]]; responseText := None |}.

(** An answer whose first candidate holds inline data without MIME type and
    then an image. *)
Definition untypedBeforeImage (d d' : string) : GenerateContentResponse :=
  {| candidates := Some [candidateOf [untypedPart d; imagePart d']]; responseText := None |}.

(** An answer whose first candidate holds inline data without MIME type and
    whose second candidate holds an image. *)
Definition untypedFirstCandidate (d d' : string) : GenerateContentResponse :=
  {| candidates := Some [candidateOf [untypedPart d]; candidateOf [imagePart d']];
     responseText := None |}.

(** For ever one and the same answer. *)
Definition alwaysAnswering (response : GenerateContentResponse) : Remote :=
  editingRemote (fun _ => inr response).

(** A service of which only [generateImages] answers, always with [answer]. *)
Definition imagingRemote (answer : Thrown + GenerateImagesResponse) : Remote :=
  {| generateContent := fun _ _ => inl NonError;
     generateImages := fun _ _ => answer;
     generateVideos := fun _ _ => inl NonError;
     getVideosOperation := fun _ _ => inl NonError;
     fetch := fun _ _ => inl NonError;
     createObjectURL := fun b => b;
     fileToBase64 := fun f => inr (bytes f);
     API_KEY := None;
     typeErrorMessage := readOfUndefined |}.

(** A video service: the submission answers [submitted], the status queries
    follow [polls], the retrieval gives [body]. *)
Definition videoRemote (submitted : Thrown + Operation)
    (polls : nat -> Thrown + Operation) (body : Thrown + FetchResponse) : Remote :=
  {| generateContent := fun _ _ => inl NonError;
     generateImages := fun _ _ => inl NonError;
     generateVideos := fun _ _ => submitted;
     getVideosOperation := fun _ n => polls n;
     fetch := fun _ _ => body;
     createObjectURL := fun b => "blob:" +:+ b;
     fileToBase64 := fun f => inr (bytes f);
     API_KEY := Some "KEY";
     typeErrorMessage := readOfUndefined |}.

Definition running (id : string) : Operation :=
  {| name := id; done := Some false; response := None |}.

Definition finished (id : string) (locator : option string) : Operation :=
  {| name := id; done := Some true;
     response := Some {| generatedVideos := Some [ {| video := Some {| uri := locator |} |} ] |} |}.

(** Not done at submission, not done at the first poll, done with a locator
    at the second. *)
Definition twoPolls : Remote :=
  videoRemote (inr (running "job-0"))
    (fun n => match n with
              | 0 => inr (running "job-1")
              | _ => inr (finished "job-2" (Some "https://videos.example/v1?alt=media"))
              end)
    (inr {| ok := true; statusText := "OK"; blob := inr "VIDEO" |}).

(** Not done at submission, done with a locator at the first poll. *)
Definition onePoll : Remote :=
  videoRemote (inr (running "job-0"))
    (fun _ => inr (finished "job-1" (Some "https://videos.example/v1?alt=media")))
    (inr {| ok := true; statusText := "OK"; blob := inr "VIDEO" |}).

(** Done at the first poll, without locator. *)
Definition doneWithoutLocator : Remote :=
  videoRemote (inr (running "job-0"))
    (fun _ => inr (finished "job-1" None))
    (inr {| ok := true; statusText := "OK"; blob := inr "VIDEO" |}).

(** A sink that keeps what it is told. *)
Definition record (message : string) (log : list string) : list string := log ++ [message].

(** A sink that throws whenever it is called. *)
Definition failingSink (message : string) (log : list string) : Thrown + list string :=
  inl (Error "sink failed").

Definition photo : File :=
  {| file_name := "cat.png"; lastModified := 1700000000000; type := "image/png"; bytes := "SU1H" |}.

Definition sketch : File :=
  {| file_name := "dog.png"; lastModified := 1700000000500; type := "image/png"; bytes := "RE9H" |}.

(** Two files, the first selected, the second with an edited version. *)
Definition twoFiles : AppState :=
  {| isLoading := false;
     error := None;
     editState :=
       {| prompt := "add a hat";
          originalFiles := [photo; sketch];
          editedImages := {[ fileKeyOf sketch := Some "QkJCQg==" ]};
          selectedFileIndex := Some 0;
          outputName := "edited-image";
          isOutpaint := false |} |}.

(** * The rest of [App.tsx]

    The reader of files, the handlers of the file input, of the thumbnails,
    of the three other tabs and of the import buttons, and the values that
    the edit tab derives from its state.  The state of the component is the
    state that these handlers read or set; the preview overlay, which none of
    them touches, and the markup are left out. *)

(** ** [fileToBase64] *)

Module Utility.

(** [s.split(',')] *)
Fixpoint splitComma (s : string) : list string :=
  match s with
  | EmptyString => [EmptyString]
  | String c rest =>
      if String.eqb (String c EmptyString) "," then EmptyString :: splitComma rest
      else
        match splitComma rest with
        | segment :: segments => String c segment :: segments
        | [] => [String c EmptyString]
        end
  end.

(** [fileToBase64], over the reader of the host: [readAsDataURL file] is the
    [result] that [onload] finds, or [None] when the reader fires [onerror];
    the promise is then rejected with the event, which is no [Error].  The
    value of the promise is [result.split(',')[1]], which is [undefined],
    here [None], for a result without comma. *)
Definition fileToBase64 (readAsDataURL : File -> option string) (file : File)
  : Thrown + option string :=
  match readAsDataURL file with
  | Some result => inr (splitComma result !! 1)
  | None => inl NonError
  end.

End Utility.

(** ** The state of the component *)

Module Tab.
Inductive t : Type := edit | generateImage | generateVideo | upscale.
End Tab.

(** The target of an import: a tab, or the edit tab in outpaint mode. *)
Inductive ImportTarget : Type :=
  | toTab (tab : Tab.t)
  | toOutpaint.

Record GenState :=
  { gen_prompt : string;
    generatedImage : option string;
    gen_outputName : string }.

Record VideoGenState :=
  { video_prompt : string;
    sourceFile : option File;
    generatedVideo : option string;
    loadingMessage : string }.

Record UpscaleState :=
  { originalFile : option File;
    upscaledImage : option string }.

(** The state of [App]: [shared] holds [isLoading], [error] and [editState]. *)
Record Component :=
  { shared : AppState;
    activeTab : Tab.t;
    genState : GenState;
    videoGenState : VideoGenState;
    upscaleState : UpscaleState }.

(** The state with which [App] starts. *)
Definition initialComponent : Component :=
  {| shared :=
       {| isLoading := false;
          error := None;
          editState :=
            {| prompt := "為主體戴上海盜帽。";
               originalFiles := [];
               editedImages := ∅;
               selectedFileIndex := None;
               outputName := "edited-image";
               isOutpaint := false |} |};
     activeTab := Tab.edit;
     genState :=
       {| gen_prompt := "一個機器人拿著紅色滑板。";
          generatedImage := None;
          gen_outputName := "generated-image" |};
     videoGenState :=
       {| video_prompt := "一隻貓的霓虹全息圖正在高速行駛。";
          sourceFile := None;
          generatedVideo := None;
          loadingMessage := "" |};
     upscaleState := {| originalFile := None; upscaledImage := None |} |}.

Definition withShared (s : AppState) (c : Component) : Component :=
  {| shared := s;
     activeTab := activeTab c;
     genState := genState c;
     videoGenState := videoGenState c;
     upscaleState := upscaleState c |}.

(** A computation on the shared part, run inside the component. *)
Definition inShared {A} (m : Async AppState A) : Async Component A :=
  fun w =>
    let (r, w') := m {| trace := trace w; caller := shared (caller w) |} in
    (r, {| trace := trace w'; caller := withShared (caller w') (caller w) |}).

(** ** The memoized values of the edit tab *)

(** [editedImageUrl] *)
Definition editedImageUrl (es : EditState) : option string :=
  match selectedOriginalFile es with
  | Some file =>
      match editedImages es !! fileKeyOf file with
      | Some (Some base64Data) =>
          if Js.truthy base64Data
          then Some ("data:image/jpeg;base64," +:+ base64Data)
          else None
      | Some None | None => None
      end
  | None => None
  end.

(** [hasEditedVersion] of the thumbnail of [file]:
    [!!editState.editedImages[fileKey]] *)
Definition hasEditedVersion (es : EditState) (file : File) : bool :=
  match editedImages es !! fileKeyOf file with
  | Some (Some base64Data) => Js.truthy base64Data
  | Some None | None => false
  end.

(** [disabled] of the button of the edit tab:
    [!selectedOriginalFile || isLoading] *)
Definition editButtonDisabled (s : AppState) : bool :=
  match selectedOriginalFile (editState s) with
  | Some _ => isLoading s
  | None => true
  end.

(** ** [handleEditFileChange] *)

(** [of.name === nf.name && of.lastModified === nf.lastModified] *)
Definition sameFile (of_ nf : File) : bool :=
  String.eqb (file_name of_) (file_name nf) && Z.eqb (lastModified of_) (lastModified nf).

(** The updater that [handleEditFileChange] passes to [setEditState]. *)
Definition addFiles (newFiles : list File) (prev : EditState) : EditState :=
  let uniqueNewFiles :=
    List.filter (fun nf => negb (existsb (fun of_ => sameFile of_ nf) (originalFiles prev)))
      newFiles in
  let updatedFiles := originalFiles prev ++ uniqueNewFiles in
  {| prompt := prompt prev;
     originalFiles := updatedFiles;
     editedImages := editedImages prev;
     selectedFileIndex := Some (length (originalFiles prev));
     outputName := outputName prev;
     isOutpaint := isOutpaint prev |}.

(** [handleEditFileChange]; [files] is [event.target.files]. *)
Definition handleEditFileChange (files : option (list File)) : Async AppState unit :=
  match files with
  | Some files =>
      if (0 <? length files)%nat then
        let newFiles := files in
        setEditState (addFiles newFiles);;
        setError None
      else mret tt
  | None => mret tt
  end.

(** ** The thumbnails *)

(** [{ ...prev, selectedFileIndex: index }] *)
Definition withSelectedFileIndex (index : nat) (prev : EditState) : EditState :=
  {| prompt := prompt prev;
     originalFiles := originalFiles prev;
     editedImages := editedImages prev;
     selectedFileIndex := Some index;
     outputName := outputName prev;
     isOutpaint := isOutpaint prev |}.

(** The [onClick] of the thumbnail at [index]. *)
Definition selectThumbnail (index : nat) : Async AppState unit :=
  setEditState (withSelectedFileIndex index).

(** ** The handlers of the other tabs *)

Section Handlers.
Variable ai : Remote.

Definition setGenState (f : GenState -> GenState) : Async Component unit :=
  update (fun c => {| shared := shared c;
                      activeTab := activeTab c;
                      genState := f (genState c);
                      videoGenState := videoGenState c;
                      upscaleState := upscaleState c |}).

Definition setVideoGenState (f : VideoGenState -> VideoGenState) : Async Component unit :=
  update (fun c => {| shared := shared c;
                      activeTab := activeTab c;
                      genState := genState c;
                      videoGenState := f (videoGenState c);
                      upscaleState := upscaleState c |}).

Definition setUpscaleState (f : UpscaleState -> UpscaleState) : Async Component unit :=
  update (fun c => {| shared := shared c;
                      activeTab := activeTab c;
                      genState := genState c;
                      videoGenState := videoGenState c;
                      upscaleState := f (upscaleState c) |}).

Definition setActiveTab (tab : Tab.t) : Async Component unit :=
  update (fun c => {| shared := shared c;
                      activeTab := tab;
                      genState := genState c;
                      videoGenState := videoGenState c;
                      upscaleState := upscaleState c |}).

(** [{ ...prev, generatedImage: v }] *)
Definition withGeneratedImage (v : option string) (prev : GenState) : GenState :=
  {| gen_prompt := gen_prompt prev; generatedImage := v; gen_outputName := gen_outputName prev |}.

(** [{ ...prev, upscaledImage: v }] *)
Definition withUpscaledImage (v : option string) (prev : UpscaleState) : UpscaleState :=
  {| originalFile := originalFile prev; upscaledImage := v |}.

(** [{ ...prev, generatedVideo: v }] *)
Definition withGeneratedVideo (v : option string) (prev : VideoGenState) : VideoGenState :=
  {| video_prompt := video_prompt prev;
     sourceFile := sourceFile prev;
     generatedVideo := v;
     loadingMessage := loadingMessage prev |}.

(** [{ ...prev, loadingMessage: msg }] *)
Definition withLoadingMessage (msg : string) (prev : VideoGenState) : VideoGenState :=
  {| video_prompt := video_prompt prev;
     sourceFile := sourceFile prev;
     generatedVideo := generatedVideo prev;
     loadingMessage := msg |}.

(** [createApiHandler]: [stateSetter] is the setter of a tab's state and
    [resultField] sets the field named by the fourth argument. *)
Definition createApiHandler {S : Type}
    (precheck : Async Component bool)
    (apiCall : Async Component string)
    (stateSetter : (S -> S) -> Async Component unit)
    (resultField : option string -> S -> S) : Async Component unit :=
  passed ← precheck;
  if negb passed then mret tt
  else
    inShared (setIsLoading true);; inShared (setError None);;
    stateSetter (resultField None);;
    tryFinally
      (tryCatch
         (result ← apiCall;
          stateSetter (resultField (Some result)))
         (fun err => inShared (setError (Some (displayMessage err)))))
      (inShared (setIsLoading false)).

(** [handleGenerateImage] as built by the render that saw [rendered]. *)
Definition handleGenerateImage (rendered : Component) : Async Component unit :=
  let genState := genState rendered in
  createApiHandler
    (if negb (Js.truthy (Js.trim (gen_prompt genState)))
     then inShared (setError (Some "請輸入生成提示。"));; mret false
     else mret true)
    (generateImage ai (gen_prompt genState))
    setGenState withGeneratedImage.

(** [handleUpscale] as built by the render that saw [rendered].  The call
    dereferences [upscaleState.originalFile!]; [missingFile] is the
    [TypeError] that the reader throws when handed [null]. *)
Definition handleUpscale (missingFile : string) (fuel : nat) (rendered : Component)
  : Async Component unit :=
  let upscaleState := upscaleState rendered in
  createApiHandler
    (match originalFile upscaleState with
     | None => inShared (setError (Some "請先上傳一張圖片。"));; mret false
     | Some _ => mret true
     end)
    (match originalFile upscaleState with
     | Some originalFile =>
         base64Data ← inShared (readFile ai originalFile);
         upscaleImage ai fuel base64Data (type originalFile)
     | None => throw (Error missingFile)
     end)
    setUpscaleState withUpscaledImage.

(** [videoGenState.sourceFile?.type || null] *)
Definition sourceTypeOf (sourceFile : option File) : option string :=
  match sourceFile with
  | Some file => if Js.truthy (type file) then Some (type file) else None
  | None => None
  end.

(** What the sink that [handleGenerateVideo] hands to [generateVideo] makes
    of the state:
    [(msg) => setVideoGenState(prev => ({...prev, loadingMessage: msg}))].
    The sink is a call of a state setter, which returns. *)
Definition showProgress (msg : string) (c : Component) : Component :=
  {| shared := shared c;
     activeTab := activeTab c;
     genState := genState c;
     videoGenState := withLoadingMessage msg (videoGenState c);
     upscaleState := upscaleState c |}.

(** [handleGenerateVideo] as built by the render that saw [rendered]. *)
Definition handleGenerateVideo (fuel : nat) (rendered : Component) : Async Component unit :=
  let videoGenState := videoGenState rendered in
  if negb (Js.truthy (Js.trim (video_prompt videoGenState)))
  then inShared (setError (Some "請輸入生成提示。"))
  else
    inShared (setIsLoading true);; inShared (setError None);;
    setVideoGenState (withGeneratedVideo None);;
    tryFinally
      (tryCatch
         (base64Data ←
            match sourceFile videoGenState with
            | Some sourceFile => s ← inShared (readFile ai sourceFile); mret (Some s)
            | None => mret None
            end;
          videoUrl ← generateVideo ai fuel (video_prompt videoGenState) base64Data
                       (sourceTypeOf (sourceFile videoGenState)) (returning showProgress);
          setVideoGenState (withGeneratedVideo (Some videoUrl)))
         (fun err => inShared (setError (Some (displayMessage err)))))
      (inShared (setIsLoading false);; setVideoGenState (withLoadingMessage "")).

(** The updater that [handleImport] passes to [setEditState] for the targets
    ['edit'] and ['outpaint']. *)
Definition importIntoEdit (file : File) (outpaint : bool) (prev : EditState) : EditState :=
  let updatedFiles := originalFiles prev ++ [file] in
  {| prompt := if outpaint then "" else "為主體戴上海盜帽。";
     originalFiles := updatedFiles;
     editedImages := <[fileKeyOf file := None]> (editedImages prev);
     selectedFileIndex := Some (length updatedFiles - 1);
     outputName := outputName prev;
     isOutpaint := outpaint |}.

(** [handleImport].  [blobType] gives the [type] of a fetched blob, [stamp]
    is what [Date.now()] gives for the file name and [created] what the
    [File] constructor takes as [lastModified].  [window.scrollTo], which
    touches neither the state nor the service, leaves no event. *)
Definition handleImport (blobType : string -> string) (stamp created : Z)
    (imageUrl : option string) (outputName : string) (targetTab : ImportTarget)
  : Async Component unit :=
  match imageUrl with
  | None => mret tt
  | Some imageUrl =>
      if negb (Js.truthy imageUrl) then mret tt
      else
        tryCatch
          (res ← window_fetch ai imageUrl;
           blob ← settle (blob res);
           let finalFileName :=
             Js.or (Js.trim outputName) ("image-" +:+ pretty stamp) +:+ ".jpeg" in
           let file := {| file_name := finalFileName;
                          lastModified := created;
                          type := blobType blob;
                          bytes := blob |} in
           match targetTab with
           | toTab Tab.edit =>
               inShared (setEditState (importIntoEdit file false));;
               setActiveTab Tab.edit
           | toOutpaint =>
               inShared (setEditState (importIntoEdit file true));;
               setActiveTab Tab.edit
           | toTab Tab.upscale =>
               setUpscaleState (fun prev => {| originalFile := Some file; upscaledImage := None |});;
               setActiveTab Tab.upscale
           | toTab Tab.generateImage | toTab Tab.generateVideo => mret tt
           end)
          (fun err => inShared (setError (Some "無法導入圖片。")))
  end.

End Handlers.

(** ** Vocabulary of the further statements *)

(** The answers of the script to the calls of [editImage], faults left out. *)
Definition answerOf (ai : Remote) (params : GenerateContentParameters) (i : nat)
  : GenerateContentResponse :=
  match generateContent ai params i with
  | inr response => response
  | inl _ => {| candidates := None; responseText := None |}
  end.

(** The requests that a trace shows to have been sent for editing. *)
Definition sentRequests (t : list Event) : list GenerateContentParameters :=
  flat_map (fun e => match e with EvGenerateContent params => [params] | _ => [] end) t.

(** The message of the error that [generateVideo] throws for a caught value. *)
Definition videoFailure (e : Thrown) : string :=
  match e with
  | Error message => "影片生成失敗： " +:+ message
  | NonError => "生成影片時發生未知的錯誤。"
  end.

(** The handles that a run of [generateVideo] holds: the one that the
    submission answers, then the one that each poll answers to the handle
    before it; a fault leaves a handle that is never read. *)
Fixpoint handleAt (ai : Remote) (params : GenerateVideosParameters) (i : nat) : Operation :=
  match i with
  | O =>
      match generateVideos ai params 0 with
      | inr operation => operation
      | inl _ => {| name := ""; done := None; response := None |}
      end
  | S i =>
      match getVideosOperation ai (handleAt ai params i) i with
      | inr operation => operation
      | inl _ => {| name := ""; done := None; response := None |}
      end
  end.

(** The end of a run of [generateVideo] that catches [e] in the world [w]:
    the fault is logged and the translated error thrown. *)
Definition failedVideoRun {X : Type} (w : World X) (e : Thrown)
  : PromiseState string * World X :=
  (Rejected (Error (videoFailure e)),
   {| trace := trace w ++ [EvConsoleError "調用 Gemini API 進行影片生成時出錯:" e];
      caller := caller w |}).

(** The URL that [generateVideo] fetches for the locator [downloadLink]. *)
Definition videoUrlOf (ai : Remote) (downloadLink : string) : string :=
  downloadLink +:+ "&key=" +:+ Js.interpolate (API_KEY ai).

(** The end of a run of [generateVideo] that leaves the polling loop in the
    world [w] with the done handle [operation]. *)
Definition retrievalRun {X : Type} (ai : Remote) (onProgress : string -> X -> X)
    (operation : Operation) (w : World X) : PromiseState string * World X :=
  let missing := failedVideoRun w (Error "影片生成失敗，未收到下載連結。") in
  match downloadLinkOf operation with
  | Some downloadLink =>
      if Js.truthy downloadLink then
        let fetching :=
          {| trace := trace w ++ [ EvProgress "正在獲取影片...";
                                   EvFetch (videoUrlOf ai downloadLink) ];
             caller := onProgress "正在獲取影片..." (caller w) |} in
        match fetch ai (videoUrlOf ai downloadLink) (count isFetch (trace w)) with
        | inl e => failedVideoRun fetching e
        | inr response =>
            if ok response then
              match blob response with
              | inr videoBlob =>
                  (Fulfilled (createObjectURL ai videoBlob),
                   {| trace := trace fetching ++ [EvCreateObjectURL videoBlob];
                      caller := caller fetching |})
              | inl e => failedVideoRun fetching e
              end
            else failedVideoRun fetching (Error ("無法下載影片： " +:+ statusText response))
        end
      else missing
  | None => missing
  end.

(** A video service whose first poll faults. *)
Definition pollFaults : Remote :=
  videoRemote (inr (running "job-0"))
    (fun _ => inl (Error "503 Service Unavailable"))
    (inr {| ok := true; statusText := "OK"; blob := inr "VIDEO" |}).

(** A video service whose retrieval is refused. *)
Definition retrievalRefused : Remote :=
  videoRemote (inr (running "job-0"))
    (fun _ => inr (finished "job-1" (Some "https://videos.example/v1?alt=media")))
    (inr {| ok := false; statusText := "Forbidden"; blob := inr "" |}).

(** A prompt that is there and holds more than white space. *)
Definition notBlank (sent : option string) : Prop :=
  exists t, sent = Some t /\ Js.trim t <> "".

(** The string holds no comma. *)
Fixpoint commaFree (s : string) : bool :=
  match s with
  | EmptyString => true
  | String c rest => negb (String.eqb (String c EmptyString) ",") && commaFree rest
  end.

(** What [sameFile] compares: the name and the time of last modification. *)
Definition identityOf (file : File) : string * Z := (file_name file, lastModified file).

(** A reader that gives the data URL of the bytes of a file. *)
Definition dataUrlReader (file : File) : option string :=
  Some ("data:" +:+ type file +:+ ";base64," +:+ bytes file).

(** A file that is not in [twoFiles]. *)
Definition third : File :=
  {| file_name := "owl.png"; lastModified := 1700000000900; type := "image/png"; bytes := "T1dM" |}.

(** Two files of different names and times whose keys are the same. *)
Definition scan1 : File :=
  {| file_name := "scan1"; lastModified := 2; type := "image/png"; bytes := "QQ==" |}.

Definition scan : File :=
  {| file_name := "scan"; lastModified := 12; type := "image/png"; bytes := "Qg==" |}.

Definition twoScans : AppState :=
  {| isLoading := false;
     error := None;
     editState :=
       {| prompt := "add a hat";
          originalFiles := [scan1; scan];
          editedImages := ∅;
          selectedFileIndex := Some 0;
          outputName := "edited-image";
          isOutpaint := false |} |}.

(** A history without any call to the service. *)
Definition quiet (history : list Event) : Prop :=
  count isGenerateContent history = 0 /\
  count isGenerateImages history = 0 /\
  count isGenerateVideos history = 0 /\
  count isGetVideosOperation history = 0 /\
  count isFetch history = 0.

(** From a world that has the history [history] before the trace of the
    other, the first computation settles as the second does and adds the
    same events. *)
Definition simAfter {X1 X2 A : Type} (history : list Event)
    (m1 : Async X1 A) (m2 : Async X2 A) : Prop :=
  forall w1 w2, trace w1 = history ++ trace w2 ->
    fst (m1 w1) = fst (m2 w2) /\ trace (snd (m1 w1)) = history ++ trace (snd (m2 w2)).

(** What [handleGenerateVideo] reads before the call: the source file, if
    there is one. *)
Definition readSource (ai : Remote) (sourceFile : option File) : Thrown + option string :=
  match sourceFile with
  | Some file =>
      match fileToBase64 ai file with
      | inl e => inl e
      | inr base64Data => inr (Some base64Data)
      end
  | None => inr None
  end.

(** The events of that reading. *)
Definition readingOf (sourceFile : option File) : list Event :=
  match sourceFile with
  | Some file => [EvFileToBase64 file]
  | None => []
  end.

(** A file whose type the browser could not tell. *)
Definition untyped : File :=
  {| file_name := "clip"; lastModified := 1700000000700; type := ""; bytes := "Q0xJUA==" |}.

(** The video tab with a source file. *)
Definition videoTab (source : File) : Component :=
  {| shared := shared initialComponent;
     activeTab := Tab.generateVideo;
     genState := genState initialComponent;
     videoGenState :=
       {| video_prompt := "a cat on a skateboard";
          sourceFile := Some source;
          generatedVideo := None;
          loadingMessage := "" |};
     upscaleState := upscaleState initialComponent |}.

(** The body that [handleImport] gets for [url] when [n] fetches came
    before: the response is fetched and its blob read, whatever the status
    of the response. *)
Definition fetchedBody (ai : Remote) (url : string) (n : nat) : Thrown + string :=
  match fetch ai url n with
  | inl e => inl e
  | inr res => blob res
  end.

(** The file that [handleImport] makes of a fetched body. *)
Definition importedFile (blobType : string -> string) (stamp created : Z)
    (outputName body : string) : File :=
  {| file_name := Js.or (Js.trim outputName) ("image-" +:+ pretty stamp) +:+ ".jpeg";
     lastModified := created;
     type := blobType body;
     bytes := body |}.

(** A service that answers every fetch with [response]. *)
Definition fetchingRemote (response : FetchResponse) : Remote :=
  {| generateContent := fun _ _ => inl (Error "quota exceeded");
     generateImages := fun _ _ => inl NonError;
     generateVideos := fun _ _ => inl NonError;
     getVideosOperation := fun _ _ => inl NonError;
     fetch := fun _ _ => inr response;
     createObjectURL := fun b => b;
     fileToBase64 := fun f => inr (bytes f);
     API_KEY := None;
     typeErrorMessage := readOfUndefined |}.

(** A response that is not [ok] but has a body. *)
Definition notFound : FetchResponse :=
  {| ok := false; statusText := "Not Found"; blob := inr "PGh0bWw+" |}.

(** * Lemmas and theorems *)

(** ** Counting in traces *)

Lemma count_app p (t u : list Event) : count p (t ++ u) = count p t + count p u.
Proof. unfold count. now rewrite List.filter_app, length_app. Qed.

Lemma timeouts_app (t u : list Event) : timeouts (t ++ u) = timeouts t ++ timeouts u.
Proof. unfold timeouts. apply flat_map_app. Qed.

Lemma progressMessages_app (t u : list Event) :
  progressMessages (t ++ u) = progressMessages t ++ progressMessages u.
Proof. unfold progressMessages. apply flat_map_app. Qed.

(** ** The success check of [editImage] *)

Section SuccessCheck.
Variable ai : Remote.

(** The test throws on inline data without MIME type and tells otherwise
    whether the part is image-typed. *)
Lemma isImagePart_cases part :
  (untypedInline part = true /\ isImagePart ai part = inl (typeError ai "startsWith")) \/
  (untypedInline part = false /\ isImagePart ai part = inr (imageTyped part)).
Proof.
  unfold untypedInline, isImagePart, imageTyped.
  destruct (inlineData part) as [inline|]; [|now right].
  cbn [mbind option_bind]. destruct (mimeType inline) as [m|]; [now right | now left].
Qed.

(** Among parts none of which is image-typed or lacks its type, the search
    finds nothing. *)
Lemma findImagePart_none ps :
  existsb imageTyped ps = false -> existsb untypedInline ps = false ->
  findImagePart ai ps = inr None.
Proof.
  induction ps as [|part ps IH]; [reflexivity|].
  cbn [existsb findImagePart]. intros Himage Huntyped.
  apply orb_false_elim in Himage as [Himage Himages].
  apply orb_false_elim in Huntyped as [Huntyped Huntypeds].
  destruct (isImagePart_cases part) as [[Hyes _] | [_ ->]]; [congruence|].
  rewrite Himage. now apply IH.
Qed.

(** The search finds the first image-typed part when no inline data without
    MIME type comes before it. *)
Lemma findImagePart_found before part after :
  existsb imageTyped before = false -> existsb untypedInline before = false ->
  imageTyped part = true ->
  findImagePart ai (before ++ part :: after) = inr (Some part).
Proof.
  induction before as [|q before IH]; cbn [existsb findImagePart app].
  - intros _ _ Himage.
    destruct (isImagePart_cases part) as [[Huntyped _] | [_ ->]]; [|now rewrite Himage].
    unfold untypedInline, imageTyped in *. destruct (inlineData part) as [inline|];
      [|discriminate].
    cbn [mbind option_bind] in Himage. now destruct (mimeType inline).
  - intros Himages Huntypeds Himage.
    apply orb_false_elim in Himages as [Hq Himages].
    apply orb_false_elim in Huntypeds as [Hu Huntypeds].
    destruct (isImagePart_cases q) as [[Hyes _] | [_ ->]]; [congruence|].
    rewrite Hq. now apply IH.
Qed.

(** What the search gives says how the parts are. *)
Lemma findImagePart_outcome ps :
  match findImagePart ai ps with
  | inr (Some part) =>
      exists before after,
        ps = before ++ part :: after /\
        existsb imageTyped before = false /\ existsb untypedInline before = false /\
        imageTyped part = true
  | inr None => existsb imageTyped ps = false /\ existsb untypedInline ps = false
  | inl e =>
      e = typeError ai "startsWith" /\
      exists before part after,
        ps = before ++ part :: after /\
        existsb imageTyped before = false /\ existsb untypedInline before = false /\
        untypedInline part = true
  end.
Proof.
  induction ps as [|q ps IH]; [now split|].
  cbn [findImagePart].
  destruct (isImagePart_cases q) as [[Huntyped ->] | [Huntyped ->]].
  - split; [reflexivity|]. now exists [], q, ps.
  - destruct (imageTyped q) eqn:Himage; [now exists [], ps|].
    destruct (findImagePart ai ps) as [e|[part|]].
    + destruct IH as [He (before & part & after & -> & Hb & Hu & Hp)].
      split; [exact He|]. exists (q :: before), part, after.
      cbn [existsb app]. now rewrite Himage, Huntyped, Hb, Hu.
    + destruct IH as (before & after & -> & Hb & Hu & Hp).
      exists (q :: before), after. cbn [existsb app]. now rewrite Himage, Huntyped, Hb, Hu.
    + destruct IH as [Hb Hu]. cbn [existsb]. now rewrite Himage, Huntyped, Hb, Hu.
Qed.

Lemma imageTyped_inlineData part :
  imageTyped part = true ->
  exists inline, inlineData part = Some inline /\ isImagePart ai part = inr true.
Proof.
  unfold imageTyped, isImagePart. destruct (inlineData part) as [inline|]; [|discriminate].
  cbn [mbind option_bind]. destruct (mimeType inline) as [m|]; [|discriminate].
  intros ->. now exists inline.
Qed.

Lemma imagePartOf_firstParts response :
  imagePartOf ai response = findImagePart ai (firstParts response).
Proof.
  unfold imagePartOf, firstParts. now destruct (firstCandidateParts response).
Qed.

(** A first candidate without image-typed part and without inline data that
    lacks its type is searched in vain. *)
Lemma imagePartOf_none response :
  existsb imageTyped (firstParts response) = false ->
  existsb untypedInline (firstParts response) = false ->
  imagePartOf ai response = inr None.
Proof. rewrite imagePartOf_firstParts. apply findImagePart_none. Qed.

(** The part found holds inline data and passes the test. *)
Lemma imagePartOf_inlineData response part :
  imagePartOf ai response = inr (Some part) ->
  exists inline, inlineData part = Some inline /\ isImagePart ai part = inr true.
Proof.
  rewrite imagePartOf_firstParts. intros Hfind.
  pose proof (findImagePart_outcome (firstParts response)) as Hout. rewrite Hfind in Hout.
  destruct Hout as (before & after & _ & _ & _ & Himage).
  now apply imageTyped_inlineData.
Qed.

Lemma firstParts_allParts response part :
  In part (firstParts response) -> In part (allParts response).
Proof.
  unfold firstParts, firstCandidateParts, allParts.
  destruct (candidates response) as [[|c cs]|]; simpl; try contradiction.
  destruct (content c) as [ct|]; simpl; [|contradiction].
  destruct (parts ct) as [ps|]; simpl; [|contradiction].
  intros Hin. apply in_or_app. now left.
Qed.

(** No image-typed part at all means none in the first candidate. *)
Lemma containsImagePart_firstParts response :
  containsImagePart response = false -> existsb imageTyped (firstParts response) = false.
Proof.
  unfold containsImagePart. intros Hno.
  destruct (existsb imageTyped (firstParts response)) eqn:Hfirst; [|reflexivity].
  apply existsb_exists in Hfirst as [part [Hin Himage]].
  assert (existsb imageTyped (allParts response) = true) as Hyes.
  { apply existsb_exists. exists part. split; [|assumption].
    now apply firstParts_allParts. }
  congruence.
Qed.

End SuccessCheck.

(** ** Reasoning about computations *)

(** A callback that returns is an update of the caller's state. *)
Ltac sink_returns :=
  repeat match goal with
  | |- context [invoke (returning ?f ?m)] =>
      change (invoke (returning f m)) with (update (f m))
  end.

Section Preservation.
Context {X : Type}.
Variable I : World X -> Prop.

Lemma preserves_ret {A} (a : A) : preserves I (mret a).
Proof. intros w Hw. exact Hw. Qed.

Lemma preserves_throw {A} e : preserves I (throw (A := A) e).
Proof. intros w Hw. exact Hw. Qed.

Lemma preserves_pending {A} : preserves I (pending (A := A)).
Proof. intros w Hw. exact Hw. Qed.

Lemma preserves_bind {A B} (m : Async X A) (k : A -> Async X B) :
  preserves I m -> (forall a, preserves I (k a)) -> preserves I (m ≫= k).
Proof.
  intros Hm Hk w Hw. unfold mbind, Async_bind.
  specialize (Hm w Hw). destruct (m w) as [[a|e|] w']; simpl in *; try assumption.
  now apply Hk.
Qed.

Lemma preserves_tryCatch {A} (m : Async X A) handler :
  preserves I m -> (forall e, preserves I (handler e)) -> preserves I (tryCatch m handler).
Proof.
  intros Hm Hh w Hw. unfold tryCatch.
  specialize (Hm w Hw). destruct (m w) as [[a|e|] w']; simpl in *; try assumption.
  now apply Hh.
Qed.

Lemma preserves_tryFinally {A} (m : Async X A) cleanup :
  preserves I m -> preserves I cleanup -> preserves I (tryFinally m cleanup).
Proof.
  intros Hm Hc w Hw. unfold tryFinally.
  specialize (Hm w Hw). destruct (m w) as [[a|e|] w']; simpl in *; try assumption.
  - specialize (Hc w' Hm). now destruct (cleanup w') as [[[]|e|] w''].
  - specialize (Hc w' Hm). now destruct (cleanup w') as [[[]|e'|] w''].
Qed.

Lemma preserves_settle {A} (answer : Thrown + A) : preserves I (settle answer).
Proof. intros w Hw. unfold settle. now destruct answer. Qed.

Lemma preserves_evaluate {A} (outcome : Thrown + A) : preserves I (evaluate outcome).
Proof. intros w Hw. unfold evaluate. now destruct outcome. Qed.

End Preservation.

(** Computations of the service that leave the caller's state alone. *)
Section Frame.
Context {X : Type}.
Variable ai : Remote.
Variable x : X.

Let untouched (w : World X) : Prop := caller w = x.

Lemma untouched_emit e : preserves untouched (emit e).
Proof. intros w Hw. exact Hw. Qed.

Lemma untouched_perform {A} e (answer : Thrown + A) : preserves untouched (perform e answer).
Proof. intros w Hw. unfold perform. now destruct answer. Qed.

Lemma untouched_generateContent params :
  preserves untouched (ai_models_generateContent (X := X) ai params).
Proof. intros w Hw. unfold ai_models_generateContent. now apply untouched_perform. Qed.

Lemma untouched_editImage_loop fuel b m p : forall attempt,
  preserves untouched (editImage_loop (X := X) ai fuel b m p attempt).
Proof.
  induction fuel as [|fuel IH]; intros attempt.
  - apply preserves_pending.
  - simpl. apply preserves_bind; [apply untouched_generateContent|].
    intros response. apply preserves_bind; [apply preserves_evaluate|].
    intros imagePart. destruct (imagePart ≫= inlineData).
    + apply preserves_ret.
    + apply preserves_bind; [apply untouched_emit|]. intros _.
      apply preserves_bind; [apply untouched_emit|]. intros _. apply IH.
Qed.

Lemma untouched_editImage fuel b m p :
  preserves untouched (editImage (X := X) ai fuel b m p).
Proof.
  apply preserves_tryCatch; [apply untouched_editImage_loop|].
  intros e. apply preserves_bind; [apply untouched_emit|].
  intros _. destruct e; apply preserves_throw.
Qed.

End Frame.

(** [editImage] and [outpaintImage] never touch the caller's state. *)
Lemma editImage_caller {X : Type} ai fuel b m p (w : World X) :
  caller (snd (editImage ai fuel b m p w)) = caller w.
Proof. now apply (untouched_editImage ai (caller w)). Qed.

Lemma outpaintImage_caller {X : Type} ai fuel b m p (w : World X) :
  caller (snd (outpaintImage ai fuel b m p w)) = caller w.
Proof. apply editImage_caller. Qed.

(** Computations of the service that only add to the trace. *)
Section Extension.
Context {X : Type}.
Variable ai : Remote.
Variable prefix : list Event.

Let extends (w : World X) : Prop := exists rest, trace w = prefix ++ rest.

Lemma extends_emit e : preserves extends (emit e).
Proof.
  intros w [rest Hw]. exists (rest ++ [e]). cbn [emit snd trace].
  now rewrite Hw, app_assoc.
Qed.

Lemma extends_perform {A} e (answer : Thrown + A) : preserves extends (perform e answer).
Proof.
  intros w Hw. pose proof (extends_emit e w Hw) as Hemit.
  unfold perform. now destruct answer.
Qed.

Lemma extends_generateContent params :
  preserves extends (ai_models_generateContent (X := X) ai params).
Proof. intros w Hw. unfold ai_models_generateContent. now apply extends_perform. Qed.

Lemma extends_editImage_loop fuel b m p : forall attempt,
  preserves extends (editImage_loop (X := X) ai fuel b m p attempt).
Proof.
  induction fuel as [|fuel IH]; intros attempt.
  - apply preserves_pending.
  - simpl. apply preserves_bind; [apply extends_generateContent|].
    intros response. apply preserves_bind; [apply preserves_evaluate|].
    intros imagePart. destruct (imagePart ≫= inlineData).
    + apply preserves_ret.
    + apply preserves_bind; [apply extends_emit|]. intros _.
      apply preserves_bind; [apply extends_emit|]. intros _. apply IH.
Qed.

End Extension.

(** ** The retry loop of [editImage] *)

Section EditImageLoop.
Context {X : Type}.
Variable ai : Remote.
Variables base64ImageData mimeType prompt : string.

Let request := editRequest base64ImageData mimeType prompt.

Lemma count_retryTrace rs c attempt n :
  count isGenerateContent (retryTrace base64ImageData mimeType prompt rs c attempt n) = n.
Proof.
  revert c attempt. induction n as [|n IH]; intros c attempt; [reflexivity|].
  cbn [retryTrace]. rewrite count_app, IH. reflexivity.
Qed.

Lemma timeouts_retryTrace rs c attempt n :
  timeouts (retryTrace base64ImageData mimeType prompt rs c attempt n)
  = repeat RETRY_DELAY n.
Proof.
  revert c attempt. induction n as [|n IH]; intros c attempt; [reflexivity|].
  cbn [retryTrace]. rewrite timeouts_app, IH. reflexivity.
Qed.

Lemma count_other_retryTrace p rs c attempt n :
  (forall params, p (EvGenerateContent params) = false) ->
  (forall m, p (EvWarn m) = false) ->
  (forall ms, p (EvTimeout ms) = false) ->
  count p (retryTrace base64ImageData mimeType prompt rs c attempt n) = 0.
Proof.
  intros Hc Hw Ht. revert c attempt.
  induction n as [|n IH]; intros c attempt; [reflexivity|].
  cbn [retryTrace]. rewrite count_app, IH.
  unfold count, retryEvents. simpl. now rewrite Hc, Hw, Ht.
Qed.

(** One iteration on a response without image in its first candidate. *)
Lemma editImage_loop_retry fuel attempt (w : World X) response :
  generateContent ai request (count isGenerateContent (trace w)) = inr response ->
  imagePartOf ai response = inr None ->
  editImage_loop ai (S fuel) base64ImageData mimeType prompt attempt w
  = editImage_loop ai fuel base64ImageData mimeType prompt (S attempt)
      {| trace := trace w ++ retryEvents base64ImageData mimeType prompt attempt response;
         caller := caller w |}.
Proof.
  intros Hcall Hnone. simpl editImage_loop.
  unfold mbind at 1, Async_bind. unfold ai_models_generateContent, perform.
  fold request. rewrite Hcall.
  unfold mbind at 1, Async_bind, evaluate. rewrite Hnone.
  unfold mbind, Async_bind, console_warn, sleep, emit. simpl.
  now rewrite <- !app_assoc.
Qed.

(** [n] iterations on responses without image. *)
Lemma editImage_loop_retries rs n : forall fuel attempt (w : World X),
  (forall i, i < n ->
     generateContent ai request (count isGenerateContent (trace w) + i)
       = inr (rs (count isGenerateContent (trace w) + i)) /\
     imagePartOf ai (rs (count isGenerateContent (trace w) + i)) = inr None) ->
  editImage_loop ai (n + fuel) base64ImageData mimeType prompt attempt w
  = editImage_loop ai fuel base64ImageData mimeType prompt (attempt + n)
      {| trace := trace w
                  ++ retryTrace base64ImageData mimeType prompt rs
                       (count isGenerateContent (trace w)) attempt n;
         caller := caller w |}.
Proof.
  induction n as [|n IH]; intros fuel attempt w Hrs.
  - simpl. rewrite Nat.add_0_r, app_nil_r. now destruct w.
  - destruct (Hrs 0) as [Hcall Hnone]; [lia|]. rewrite Nat.add_0_r in Hcall, Hnone.
    change (S n + fuel) with (S (n + fuel)).
    rewrite (editImage_loop_retry _ _ _ _ Hcall Hnone).
    assert (count isGenerateContent
              (trace w ++ retryEvents base64ImageData mimeType prompt attempt
                            (rs (count isGenerateContent (trace w))))
            = S (count isGenerateContent (trace w))) as Hcount.
    { rewrite count_app. unfold count at 2. simpl. lia. }
    rewrite IH.
    + simpl trace. simpl caller. rewrite Hcount. cbn [retryTrace].
      rewrite <- app_assoc. f_equal. lia.
    + simpl trace. rewrite Hcount. intros i Hi.
      replace (S (count isGenerateContent (trace w)) + i)
        with (count isGenerateContent (trace w) + S i) by lia.
      apply Hrs. lia.
Qed.

(** An iteration begins with its call, whatever follows, if the handler only
    adds to the trace. *)
Lemma tryCatch_loop_calls fuel attempt (w : World X) handler :
  (forall prefix e,
     preserves (fun v : World X => exists rest, trace v = prefix ++ rest) (handler e)) ->
  exists rest,
    trace (snd (tryCatch (editImage_loop ai (S fuel) base64ImageData mimeType prompt attempt)
                  handler w))
    = trace w ++ EvGenerateContent request :: rest.
Proof.
  intros Hhandler.
  set (extends := fun v : World X =>
                    exists rest, trace v = (trace w ++ [EvGenerateContent request]) ++ rest).
  assert (extends (snd (tryCatch
                          (editImage_loop ai (S fuel) base64ImageData mimeType prompt attempt)
                          handler w))) as [rest Hrest].
  { unfold tryCatch. simpl editImage_loop. unfold mbind at 1, Async_bind.
    unfold ai_models_generateContent, perform. fold request.
    set (w1 := {| trace := trace w ++ [EvGenerateContent request]; caller := caller w |}).
    assert (extends w1) as Hw1 by (exists []; subst w1; cbn [trace]; now rewrite app_nil_r).
    destruct (generateContent ai request _) as [e|response].
    - now apply Hhandler.
    - apply (preserves_tryCatch extends _ handler); [|intros e; apply Hhandler|exact Hw1].
      apply preserves_bind; [apply preserves_evaluate|]. intros imagePart.
      destruct (imagePart ≫= inlineData); [apply preserves_ret|].
      apply preserves_bind; [apply extends_emit|]. intros _.
      apply preserves_bind; [apply extends_emit|]. intros _.
      apply extends_editImage_loop. }
  exists rest. rewrite Hrest. now rewrite <- app_assoc.
Qed.

End EditImageLoop.

(** ** [editImage] as a whole *)

Section EditImageRuns.
Context {X : Type}.
Variable ai : Remote.
Variables base64ImageData mimeType prompt : string.

Let request := editRequest base64ImageData mimeType prompt.

(** While every answer lacks an image in its first candidate, the promise
    stays pending and each iteration leaves call, diagnostic and wait. *)
Lemma editImage_pending rs fuel (x : X) :
  (forall i, i < fuel ->
     generateContent ai request i = inr (rs i) /\ imagePartOf ai (rs i) = inr None) ->
  editImage ai fuel base64ImageData mimeType prompt (start x)
  = (Pending, {| trace := retryTrace base64ImageData mimeType prompt rs 0 1 fuel;
                 caller := x |}).
Proof.
  intros Hrs. unfold editImage, tryCatch.
  replace fuel with (fuel + 0) at 1 by lia.
  rewrite (editImage_loop_retries ai _ _ _ rs fuel 0 1 (start x)) by exact Hrs.
  reflexivity.
Qed.

(** After [n] answers without image, an answer with an image in the first
    candidate ends the loop with the bytes of the first such part. *)
Lemma editImage_fulfilled rs n part inline fuel (x : X) :
  (forall i, i < n ->
     generateContent ai request i = inr (rs i) /\ imagePartOf ai (rs i) = inr None) ->
  generateContent ai request n = inr (rs n) ->
  imagePartOf ai (rs n) = inr (Some part) ->
  inlineData part = Some inline ->
  n < fuel ->
  editImage ai fuel base64ImageData mimeType prompt (start x)
  = (Fulfilled (data inline),
     {| trace := retryTrace base64ImageData mimeType prompt rs 0 1 n
                 ++ [EvGenerateContent request];
        caller := x |}).
Proof.
  intros Hrs Hcall Hpart Hinline Hfuel. unfold editImage, tryCatch.
  replace fuel with (n + S (fuel - S n)) by lia.
  rewrite (editImage_loop_retries ai _ _ _ rs n _ 1 (start x)) by exact Hrs.
  simpl editImage_loop. unfold mbind at 1, Async_bind.
  unfold ai_models_generateContent, perform. simpl trace. simpl caller.
  rewrite count_retryTrace. fold request. rewrite Hcall.
  unfold mbind at 1, Async_bind, evaluate. rewrite Hpart. simpl.
  rewrite Hinline. reflexivity.
Qed.

(** After [n] answers without image, a fault of the call ends the loop; the
    handler logs it and throws the translated error. *)
Lemma editImage_rejected rs n e fuel (x : X) :
  (forall i, i < n ->
     generateContent ai request i = inr (rs i) /\ imagePartOf ai (rs i) = inr None) ->
  generateContent ai request n = inl e ->
  n < fuel ->
  editImage ai fuel base64ImageData mimeType prompt (start x)
  = (Rejected (Error (editFailure e)),
     {| trace := retryTrace base64ImageData mimeType prompt rs 0 1 n
                 ++ [EvGenerateContent request;
                     EvConsoleError "調用 Gemini API 進行圖片編輯時出錯:" e];
        caller := x |}).
Proof.
  intros Hrs Hcall Hfuel. unfold editImage, tryCatch.
  replace fuel with (n + S (fuel - S n)) by lia.
  rewrite (editImage_loop_retries ai _ _ _ rs n _ 1 (start x)) by exact Hrs.
  simpl editImage_loop. unfold mbind at 1, Async_bind.
  unfold ai_models_generateContent, perform. simpl trace. simpl caller.
  rewrite count_retryTrace. fold request. rewrite Hcall.
  unfold mbind, Async_bind, console_error, emit, throw. simpl.
  rewrite <- app_assoc. now destruct e.
Qed.

(** After [n] answers without image, an answer on which the search throws
    ends the loop like a fault of the call: the handler logs the value thrown
    and throws the translated error. *)
Lemma editImage_malformed rs n e fuel (x : X) :
  (forall i, i < n ->
     generateContent ai request i = inr (rs i) /\ imagePartOf ai (rs i) = inr None) ->
  generateContent ai request n = inr (rs n) ->
  imagePartOf ai (rs n) = inl e ->
  n < fuel ->
  editImage ai fuel base64ImageData mimeType prompt (start x)
  = (Rejected (Error (editFailure e)),
     {| trace := retryTrace base64ImageData mimeType prompt rs 0 1 n
                 ++ [EvGenerateContent request;
                     EvConsoleError "調用 Gemini API 進行圖片編輯時出錯:" e];
        caller := x |}).
Proof.
  intros Hrs Hcall Hthrow Hfuel. unfold editImage, tryCatch.
  replace fuel with (n + S (fuel - S n)) by lia.
  rewrite (editImage_loop_retries ai _ _ _ rs n _ 1 (start x)) by exact Hrs.
  simpl editImage_loop. unfold mbind at 1, Async_bind.
  unfold ai_models_generateContent, perform. simpl trace. simpl caller.
  rewrite count_retryTrace. fold request. rewrite Hcall.
  unfold mbind at 1, Async_bind, evaluate. rewrite Hthrow.
  unfold mbind, Async_bind, console_error, emit, throw. simpl.
  rewrite <- app_assoc. now destruct e.
Qed.

End EditImageRuns.

(** ** Claims about [editImage] *)

(** C1 (amended): if the first candidate of each of the first [n] answers
    holds no image-typed part and no inline data without MIME type, and the
    first candidate of answer [n + 1] holds an image-typed part before which
    it has no inline data without MIME type, then [editImage] returns the
    bytes of the first image-typed part of that candidate, whatever text
    comes with it, after exactly [n + 1] remote calls and exactly [n] waits
    of [RETRY_DELAY]. *)
Theorem editImage_returns_first_candidate_image
    {X : Type} (ai : Remote) (base64ImageData mimeType prompt : string)
    (rs : nat -> GenerateContentResponse) (n : nat)
    (before : list Part) (part : Part) (after : list Part)
    (fuel : nat) (x : X) :
  (forall i, i < n ->
     generateContent ai (editRequest base64ImageData mimeType prompt) i = inr (rs i) /\
     existsb imageTyped (firstParts (rs i)) = false /\
     existsb untypedInline (firstParts (rs i)) = false) ->
  generateContent ai (editRequest base64ImageData mimeType prompt) n = inr (rs n) ->
  firstParts (rs n) = before ++ part :: after ->
  existsb imageTyped before = false ->
  existsb untypedInline before = false ->
  imageTyped part = true ->
  n < fuel ->
  let run := editImage ai fuel base64ImageData mimeType prompt (start x) in
  (exists inline, inlineData part = Some inline /\ fst run = Fulfilled (data inline)) /\
  count isGenerateContent (trace (snd run)) = S n /\
  timeouts (trace (snd run)) = repeat 1000%Z n.
Proof.
  intros Hrs Hcall Hps Hbefore Huntyped Himage Hfuel run.
  assert (forall i, i < n ->
            generateContent ai (editRequest base64ImageData mimeType prompt) i = inr (rs i) /\
            imagePartOf ai (rs i) = inr None) as Hretried.
  { intros i Hi. destruct (Hrs i Hi) as (Hi1 & Hi2 & Hi3).
    split; [exact Hi1 | now apply imagePartOf_none]. }
  assert (imagePartOf ai (rs n) = inr (Some part)) as Hpart.
  { rewrite imagePartOf_firstParts, Hps. now apply findImagePart_found. }
  destruct (imageTyped_inlineData ai _ Himage) as [inline [Hinline _]].
  subst run.
  rewrite (editImage_fulfilled ai _ _ _ rs n part inline fuel x Hretried Hcall Hpart Hinline
             Hfuel).
  simpl fst. simpl snd. simpl trace. split; [|split].
  - now exists inline.
  - rewrite count_app, count_retryTrace. unfold count. simpl. lia.
  - rewrite timeouts_app, timeouts_retryTrace. simpl. apply app_nil_r.
Qed.

Lemma editImage_returns_first_candidate_image_witness :
  let run := editImage textThenImage 2 "SU1H" "image/png" "add a hat" (start tt) in
  (exists inline,
     inlineData (imagePart "AAAA") = Some inline /\ fst run = Fulfilled (data inline)) /\
  count isGenerateContent (trace (snd run)) = 2 /\
  timeouts (trace (snd run)) = repeat 1000%Z 1.
Proof.
  apply (editImage_returns_first_candidate_image textThenImage "SU1H" "image/png" "add a hat"
           (fun i => match i with
                     | 0 => textResponse "I cannot do that."
                     | _ => imageResponse "Here you are." "AAAA"
                     end) 1 [textPart "Here you are."] (imagePart "AAAA") []).
  - intros i Hi. assert (i = 0) as -> by lia. repeat split.
  - reflexivity.
  - reflexivity.
  - reflexivity.
  - reflexivity.
  - reflexivity.
  - lia.
Defined.

(** C1 as stated fails, in two ways.  An answer that holds an image-typed
    part, but in its second candidate only, does not end the loop: when the
    service answers every call with such an answer, the promise never settles
    and the calls go on.  And an answer whose first candidate holds an
    image-typed part after inline data without MIME type gives no bytes: the
    search throws, one call is made and the promise is rejected. *)
Lemma editImage_image_in_later_candidate :
  (containsImagePart (laterCandidateResponse "Two drafts." "AAAA") = true /\
   generateContent alwaysLaterCandidate (editRequest "SU1H" "image/png" "add a hat") 0
     = inr (laterCandidateResponse "Two drafts." "AAAA") /\
   (forall fuel,
      fst (editImage alwaysLaterCandidate fuel "SU1H" "image/png" "add a hat" (start tt))
        = Pending /\
      count isGenerateContent
        (trace (snd (editImage alwaysLaterCandidate fuel "SU1H" "image/png" "add a hat"
                       (start tt))))
        = fuel)) /\
  (existsb imageTyped (firstParts (untypedBeforeImage "QUFB" "AAAA")) = true /\
   generateContent (alwaysAnswering (untypedBeforeImage "QUFB" "AAAA"))
     (editRequest "SU1H" "image/png" "add a hat") 0
     = inr (untypedBeforeImage "QUFB" "AAAA") /\
   (forall fuel,
      let run := editImage (alwaysAnswering (untypedBeforeImage "QUFB" "AAAA")) (S fuel)
                   "SU1H" "image/png" "add a hat" (start tt) in
      fst run
      = Rejected (Error "編輯圖片失敗： Cannot read properties of undefined (reading 'startsWith')")
      /\ count isGenerateContent (trace (snd run)) = 1)).
Proof.
  split.
  - split; [reflexivity|]. split; [reflexivity|]. intros fuel.
    rewrite (editImage_pending alwaysLaterCandidate _ _ _
               (fun _ => laterCandidateResponse "Two drafts." "AAAA") fuel tt).
    + cbn [fst snd trace]. split; [reflexivity|]. apply count_retryTrace.
    + intros i _. split; reflexivity.
  - split; [reflexivity|]. split; [reflexivity|]. intros fuel run. subst run.
    rewrite (editImage_malformed (alwaysAnswering (untypedBeforeImage "QUFB" "AAAA")) _ _ _
               (fun _ => untypedBeforeImage "QUFB" "AAAA") 0
               (typeError (alwaysAnswering (untypedBeforeImage "QUFB" "AAAA")) "startsWith")
               (S fuel) tt);
      [split; reflexivity | intros i Hi; lia | reflexivity | reflexivity | lia].
Qed.

(** C2 (amended): if no answer ever holds an image-typed part, no first
    candidate holds inline data without MIME type and no call faults, then
    [editImage] never settles: whatever the number of iterations waited for,
    the promise is pending, every iteration has made its call, and each call
    is followed by one wait of 1000 ms; so for every bound [n] more than [n]
    attempts are made. *)
Theorem editImage_retries_without_ceiling
    {X : Type} (ai : Remote) (base64ImageData mimeType prompt : string)
    (rs : nat -> GenerateContentResponse) :
  (forall i,
     generateContent ai (editRequest base64ImageData mimeType prompt) i = inr (rs i) /\
     containsImagePart (rs i) = false /\
     existsb untypedInline (firstParts (rs i)) = false) ->
  (forall fuel (x : X),
     let run := editImage ai fuel base64ImageData mimeType prompt (start x) in
     fst run = Pending /\
     trace (snd run) = retryTrace base64ImageData mimeType prompt rs 0 1 fuel /\
     count isGenerateContent (trace (snd run)) = fuel /\
     timeouts (trace (snd run)) = repeat 1000%Z fuel) /\
  (forall n (x : X),
     n < count isGenerateContent
           (trace (snd (editImage ai (S n) base64ImageData mimeType prompt (start x))))).
Proof.
  intros Hrs.
  assert (forall fuel (x : X),
            editImage ai fuel base64ImageData mimeType prompt (start x)
            = (Pending, {| trace := retryTrace base64ImageData mimeType prompt rs 0 1 fuel;
                           caller := x |})) as Hrun.
  { intros fuel x. apply editImage_pending. intros i _.
    destruct (Hrs i) as (Hcall & Hno & Htyped). split; [exact Hcall|].
    apply imagePartOf_none; [now apply containsImagePart_firstParts | exact Htyped]. }
  split.
  - intros fuel x run. subst run. rewrite Hrun. cbn [fst snd trace].
    split; [reflexivity|]. split; [reflexivity|]. split.
    + apply count_retryTrace.
    + apply timeouts_retryTrace.
  - intros n x. rewrite Hrun. cbn [snd trace]. rewrite count_retryTrace. lia.
Qed.

Lemma editImage_retries_without_ceiling_witness :
  fst (editImage alwaysText 7 "SU1H" "image/png" "add a hat" (start tt)) = Pending /\
  count isGenerateContent
    (trace (snd (editImage alwaysText 7 "SU1H" "image/png" "add a hat" (start tt)))) = 7.
Proof.
  destruct (editImage_retries_without_ceiling (X := unit) alwaysText
              "SU1H" "image/png" "add a hat" (fun _ => textResponse "I cannot do that."))
    as [Hrun _].
  - intros i. repeat split.
  - destruct (Hrun 7 tt) as [Hp [_ [Hc _]]]. split; assumption.
Defined.

(** C2 as stated fails: the service answers every call, without fault, with
    an answer that holds no image-typed part; its only part is inline data
    without MIME type.  The search throws on the first answer: whatever the
    number of iterations waited for, one call has been made, no wait, and the
    promise is rejected; no second attempt is ever made. *)
Lemma editImage_untyped_part_ends_retrying :
  (forall i,
     generateContent (alwaysAnswering (untypedResponse "QUFB"))
       (editRequest "SU1H" "image/png" "add a hat") i = inr (untypedResponse "QUFB") /\
     containsImagePart (untypedResponse "QUFB") = false) /\
  (forall fuel,
     let run := editImage (alwaysAnswering (untypedResponse "QUFB")) (S fuel)
                  "SU1H" "image/png" "add a hat" (start tt) in
     fst run
     = Rejected (Error "編輯圖片失敗： Cannot read properties of undefined (reading 'startsWith')")
     /\ count isGenerateContent (trace (snd run)) = 1
     /\ timeouts (trace (snd run)) = []).
Proof.
  split; [intros i; split; reflexivity|]. intros fuel run. subst run.
  rewrite (editImage_malformed (alwaysAnswering (untypedResponse "QUFB")) _ _ _
             (fun _ => untypedResponse "QUFB") 0
             (typeError (alwaysAnswering (untypedResponse "QUFB")) "startsWith")
             (S fuel) tt);
    [repeat split | intros i Hi; lia | reflexivity | reflexivity | lia].
Qed.

(** C3: whatever the attempt on which the remote call faults, [editImage]
    makes no further attempt and rejects with one [Error] whose message names
    the operation: the text for a failed edit followed by the message of the
    fault when the fault is an [Error], the text for an unknown error while
    editing when the thrown value is no [Error] and so carries no message. *)
Theorem editImage_fault_is_final
    {X : Type} (ai : Remote) (base64ImageData mimeType prompt : string)
    (rs : nat -> GenerateContentResponse) (n : nat) (e : Thrown)
    (fuel : nat) (x : X) :
  (forall i, i < n ->
     generateContent ai (editRequest base64ImageData mimeType prompt) i = inr (rs i) /\
     imagePartOf ai (rs i) = inr None) ->
  generateContent ai (editRequest base64ImageData mimeType prompt) n = inl e ->
  n < fuel ->
  let run := editImage ai fuel base64ImageData mimeType prompt (start x) in
  fst run = Rejected (Error (match e with
                             | Error message => "編輯圖片失敗： " +:+ message
                             | NonError => "編輯圖片時發生未知的錯誤。"
                             end)) /\
  (forall message, fst run = Rejected (Error message) ->
     String.prefix "編輯圖片" message = true) /\
  count isGenerateContent (trace (snd run)) = S n /\
  timeouts (trace (snd run)) = repeat 1000%Z n /\
  trace (snd run)
  = retryTrace base64ImageData mimeType prompt rs 0 1 n
    ++ [EvGenerateContent (editRequest base64ImageData mimeType prompt);
        EvConsoleError "調用 Gemini API 進行圖片編輯時出錯:" e].
Proof.
  intros Hrs Hcall Hfuel run. subst run.
  rewrite (editImage_rejected ai _ _ _ rs n e fuel x Hrs Hcall Hfuel).
  cbn [fst snd trace]. split; [|split; [|split; [|split]]].
  - reflexivity.
  - intros message Hm. injection Hm as <-. now destruct e.
  - rewrite count_app, count_retryTrace. unfold count. simpl. lia.
  - rewrite timeouts_app, timeouts_retryTrace. simpl. apply app_nil_r.
  - reflexivity.
Qed.

Lemma editImage_fault_is_final_witness :
  let run := editImage textThenFault 5 "SU1H" "image/png" "add a hat" (start tt) in
  fst run = Rejected (Error "編輯圖片失敗： quota exceeded") /\
  count isGenerateContent (trace (snd run)) = 2.
Proof.
  destruct (editImage_fault_is_final (X := unit) textThenFault "SU1H" "image/png" "add a hat"
              (fun _ => textResponse "I cannot do that.") 1 (Error "quota exceeded") 5 tt)
    as [Hres [_ [Hcount _]]].
  - intros i Hi. assert (i = 0) as -> by lia. split; reflexivity.
  - reflexivity.
  - lia.
  - split; assumption.
Defined.

(** C9 (amended): the success check reads the first candidate only.  The
    outcome of the search does not depend on the candidates after the first;
    and when the first candidate of each of the first [n] answers holds no
    image-typed part and no inline data without MIME type, the attempts are
    treated as unsuccessful and attempt [n + 1] is made, whatever the later
    candidates of those answers hold. *)
Theorem editImage_reads_first_candidate_only
    {X : Type} (ai : Remote) (base64ImageData mimeType prompt : string)
    (rs : nat -> GenerateContentResponse) (n : nat) (fuel : nat) (x : X) :
  (forall i, i < n ->
     generateContent ai (editRequest base64ImageData mimeType prompt) i = inr (rs i) /\
     existsb imageTyped (firstParts (rs i)) = false /\
     existsb untypedInline (firstParts (rs i)) = false) ->
  n < fuel ->
  (forall c cs cs' t t',
     imagePartOf ai {| candidates := Some (c :: cs); responseText := t |}
     = imagePartOf ai {| candidates := Some (c :: cs'); responseText := t' |}) /\
  exists rest,
    trace (snd (editImage ai fuel base64ImageData mimeType prompt (start x)))
    = retryTrace base64ImageData mimeType prompt rs 0 1 n
      ++ EvGenerateContent (editRequest base64ImageData mimeType prompt) :: rest.
Proof.
  intros Hrs Hfuel. split; [reflexivity|].
  assert (forall i, i < n ->
            generateContent ai (editRequest base64ImageData mimeType prompt) i = inr (rs i) /\
            imagePartOf ai (rs i) = inr None) as Hretried.
  { intros i Hi. destruct (Hrs i Hi) as (Hi1 & Hi2 & Hi3).
    split; [exact Hi1 | now apply imagePartOf_none]. }
  unfold editImage.
  replace fuel with (n + S (fuel - S n)) by lia.
  unfold tryCatch at 1.
  rewrite (editImage_loop_retries ai _ _ _ rs n _ 1 (start x)) by exact Hretried.
  cbn [start trace caller app Nat.add].
  set (w := {| trace := retryTrace _ _ _ _ _ _ _; caller := x |}).
  change (retryTrace base64ImageData mimeType prompt rs 0 1 n) with (trace w).
  apply (tryCatch_loop_calls ai base64ImageData mimeType prompt).
  intros prefix e. apply preserves_bind; [apply extends_emit|].
  intros _. destruct e; apply preserves_throw.
Qed.

Lemma editImage_reads_first_candidate_only_witness :
  containsImagePart (laterCandidateResponse "Two drafts." "AAAA") = true /\
  exists rest,
    trace (snd (editImage alwaysLaterCandidate 2 "SU1H" "image/png" "add a hat" (start tt)))
    = retryTrace "SU1H" "image/png" "add a hat"
        (fun _ => laterCandidateResponse "Two drafts." "AAAA") 0 1 1
      ++ EvGenerateContent (editRequest "SU1H" "image/png" "add a hat") :: rest.
Proof.
  split; [reflexivity|].
  apply (editImage_reads_first_candidate_only alwaysLaterCandidate "SU1H" "image/png"
           "add a hat" (fun _ => laterCandidateResponse "Two drafts." "AAAA") 1 2 tt).
  - intros i _. repeat split.
  - lia.
Defined.

(** C9 as stated fails: the first candidate of the answer holds no
    image-typed part, its only part being inline data without MIME type, and
    the second candidate holds an image.  The attempt is not retried: the
    search throws, and whatever the number of iterations waited for, one call
    has been made and the promise is rejected. *)
Lemma editImage_untyped_first_candidate_is_not_retried :
  existsb imageTyped (firstParts (untypedFirstCandidate "QUFB" "AAAA")) = false /\
  containsImagePart (untypedFirstCandidate "QUFB" "AAAA") = true /\
  (forall i,
     generateContent (alwaysAnswering (untypedFirstCandidate "QUFB" "AAAA"))
       (editRequest "SU1H" "image/png" "add a hat") i
     = inr (untypedFirstCandidate "QUFB" "AAAA")) /\
  (forall fuel,
     let run := editImage (alwaysAnswering (untypedFirstCandidate "QUFB" "AAAA")) (S fuel)
                  "SU1H" "image/png" "add a hat" (start tt) in
     fst run
     = Rejected (Error "編輯圖片失敗： Cannot read properties of undefined (reading 'startsWith')")
     /\ count isGenerateContent (trace (snd run)) = 1).
Proof.
  split; [reflexivity|]. split; [reflexivity|]. split; [reflexivity|].
  intros fuel run. subst run.
  rewrite (editImage_malformed (alwaysAnswering (untypedFirstCandidate "QUFB" "AAAA")) _ _ _
             (fun _ => untypedFirstCandidate "QUFB" "AAAA") 0
             (typeError (alwaysAnswering (untypedFirstCandidate "QUFB" "AAAA")) "startsWith")
             (S fuel) tt);
    [split; reflexivity | intros i Hi; lia | reflexivity | reflexivity | lia].
Qed.

(** ** Claims about the adapters *)

Lemma trim_empty : Js.trim "" = "".
Proof. reflexivity. Qed.

Lemma truthy_false s : Js.truthy s = false <-> s = "".
Proof.
  unfold Js.truthy. destruct (String.eqb s "") eqn:Heq; simpl.
  - apply String.eqb_eq in Heq. tauto.
  - apply String.eqb_neq in Heq. split; [discriminate|tauto].
Qed.

Lemma truthy_true s : Js.truthy s = true <-> s <> "".
Proof.
  destruct (Js.truthy s) eqn:Ht.
  - split; [|reflexivity]. intros _ Hs. apply truthy_false in Hs. congruence.
  - apply truthy_false in Ht. split; [discriminate|tauto].
Qed.

(** The prompt that [outpaintImage] hands on. *)
Lemma finalPromptOf_blank s : Js.trim s = "" -> finalPromptOf (Some s) = defaultPrompt.
Proof.
  intros Hs. unfold finalPromptOf. rewrite Hs.
  now rewrite andb_false_r.
Qed.

Lemma finalPromptOf_given s : Js.trim s <> "" -> finalPromptOf (Some s) = s.
Proof.
  intros Hs. unfold finalPromptOf.
  assert (Js.truthy (Js.trim s) = true) as -> by now apply truthy_true.
  assert (Js.truthy s = true) as ->.
  { apply truthy_true. intros ->. now apply Hs. }
  reflexivity.
Qed.

(** C6 (amended): [outpaintImage] with a prompt that is absent, empty or
    made of white space only is [editImage] with the fixed default prompt;
    with a prompt that holds anything else it is [editImage] with that prompt
    as given; and [upscaleImage] is [editImage] with the fixed upscale prompt:
    same promise, same trace, from every world and for every service. *)
Theorem outpaint_and_upscale_are_edits
    {X : Type} (ai : Remote) (fuel : nat) (base64ImageData mimeType : string)
    (w : World X) :
  (forall prompt,
     prompt = None \/ (exists s, prompt = Some s /\ Js.trim s = "") ->
     outpaintImage ai fuel base64ImageData mimeType prompt w
     = editImage ai fuel base64ImageData mimeType defaultPrompt w) /\
  (forall s,
     Js.trim s <> "" ->
     outpaintImage ai fuel base64ImageData mimeType (Some s) w
     = editImage ai fuel base64ImageData mimeType s w) /\
  upscaleImage ai fuel base64ImageData mimeType w
  = editImage ai fuel base64ImageData mimeType upscalePrompt w.
Proof.
  split; [|split].
  - intros prompt [->|[s [-> Hs]]]; unfold outpaintImage; [reflexivity|].
    now rewrite finalPromptOf_blank.
  - intros s Hs. unfold outpaintImage. now rewrite finalPromptOf_given.
  - reflexivity.
Qed.

Lemma outpaint_and_upscale_are_edits_witness :
  outpaintImage textThenImage 2 "SU1H" "image/png" (Some "") (start tt)
  = editImage textThenImage 2 "SU1H" "image/png" defaultPrompt (start tt) /\
  outpaintImage textThenImage 2 "SU1H" "image/png" (Some " add a castle ") (start tt)
  = editImage textThenImage 2 "SU1H" "image/png" " add a castle " (start tt).
Proof.
  destruct (outpaint_and_upscale_are_edits textThenImage 2 "SU1H" "image/png" (start tt))
    as [Hdefault [Hgiven _]].
  split.
  - apply Hdefault. right. exists "". split; reflexivity.
  - apply Hgiven. vm_compute. discriminate.
Defined.

(** C6 as stated fails: a prompt of one space is not empty, yet
    [outpaintImage] sends the default prompt and not the space. *)
Lemma outpaintImage_blank_prompt_is_replaced :
  Js.truthy " " = true /\
  sentPrompts (trace (snd (outpaintImage textThenImage 1 "SU1H" "image/png" (Some " ") (start tt))))
    = [Some defaultPrompt] /\
  sentPrompts (trace (snd (editImage textThenImage 1 "SU1H" "image/png" " " (start tt))))
    = [Some " "] /\
  outpaintImage textThenImage 1 "SU1H" "image/png" (Some " ") (start tt)
    <> editImage textThenImage 1 "SU1H" "image/png" " " (start tt).
Proof.
  split; [reflexivity|]. split; [reflexivity|]. split; [reflexivity|].
  intros Heq.
  apply (f_equal (fun r => sentPrompts (trace (snd r)))) in Heq.
  vm_compute in Heq. discriminate Heq.
Qed.

(** C7 (amended): [generateImage] makes exactly one remote call and never
    waits or stays pending.  A non-empty list of generated images whose first
    entry holds an image gives the bytes of that image; a first entry
    without image gives at once the translated error of the failed read; an
    empty or absent list gives at once the translated error, and so does a
    fault of the call. *)
Theorem generateImage_single_call {X : Type} (ai : Remote) (prompt : string) (x : X) :
  let run := generateImage ai prompt (start x) in
  count isGenerateImages (trace (snd run)) = 1 /\
  timeouts (trace (snd run)) = [] /\
  fst run <> Pending /\
  match generateImages ai (imageRequest prompt) 0 with
  | inr response =>
      match generatedImages response with
      | Some (first :: _) =>
          match image first with
          | Some image => fst run = Fulfilled (imageBytes image)
          | None =>
              fst run
              = Rejected (Error ("圖片生成失敗： " +:+ typeErrorMessage ai "imageBytes"))
          end
      | Some [] | None => fst run = Rejected (Error "圖片生成失敗： API 未返回任何圖片。")
      end
  | inl (Error message) => fst run = Rejected (Error ("圖片生成失敗： " +:+ message))
  | inl NonError => fst run = Rejected (Error "生成圖片時發生未知的錯誤。")
  end.
Proof.
  unfold generateImage, tryCatch, mbind, Async_bind, ai_models_generateImages, perform.
  cbn [start trace caller]. change (count isGenerateImages []) with 0.
  destruct (generateImages ai (imageRequest prompt) 0) as [[message|]|response].
  - cbn. repeat split; discriminate.
  - cbn. repeat split; discriminate.
  - destruct (generatedImages response) as [[|first rest]|];
      [| destruct (image first) as [image|] |]; cbn; repeat split; discriminate.
Qed.

(** C7 as stated fails: the list of generated images is not empty, but its
    first entry holds no image.  No bytes are returned: the one call is made
    and the promise is rejected with the translated error of the failed
    read. *)
Lemma generateImage_entry_without_image :
  generateImages (imagingRemote (inr {| generatedImages := Some [ {| image := None |} ] |}))
    (imageRequest "a robot") 0
  = inr {| generatedImages := Some [ {| image := None |} ] |} /\
  (let run := generateImage
                (imagingRemote (inr {| generatedImages := Some [ {| image := None |} ] |}))
                "a robot" (start tt) in
   fst run
   = Rejected (Error "圖片生成失敗： Cannot read properties of undefined (reading 'imageBytes')")
   /\ count isGenerateImages (trace (snd run)) = 1).
Proof. split; [reflexivity|]. split; reflexivity. Qed.

(** ** The polling loop of [generateVideo] *)

Lemma polled_app (t u : list Event) : polled (t ++ u) = polled t ++ polled u.
Proof. unfold polled. apply flat_map_app. Qed.

Lemma count_pollTrace ops c idx n : count isGetVideosOperation (pollTrace ops c idx n) = n.
Proof.
  revert c idx. induction n as [|n IH]; intros c idx; [reflexivity|].
  cbn [pollTrace]. rewrite count_app, IH. reflexivity.
Qed.

Lemma count_other_pollTrace p ops c idx n :
  (forall m, p (EvProgress m) = false) ->
  (forall ms, p (EvTimeout ms) = false) ->
  (forall op, p (EvGetVideosOperation op) = false) ->
  count p (pollTrace ops c idx n) = 0.
Proof.
  intros Hp Ht Hg. revert c idx.
  induction n as [|n IH]; intros c idx; [reflexivity|].
  cbn [pollTrace]. rewrite count_app, IH.
  unfold count, pollEvents. simpl. now rewrite Hp, Ht, Hg.
Qed.

Lemma timeouts_pollTrace ops c idx n :
  timeouts (pollTrace ops c idx n) = repeat POLLING_INTERVAL n.
Proof.
  revert c idx. induction n as [|n IH]; intros c idx; [reflexivity|].
  cbn [pollTrace]. rewrite timeouts_app, IH. reflexivity.
Qed.

Lemma progressMessages_pollTrace ops c idx n :
  progressMessages (pollTrace ops c idx n) = map messageAt (seq idx n).
Proof.
  revert c idx. induction n as [|n IH]; intros c idx; [reflexivity|].
  cbn [pollTrace]. rewrite progressMessages_app, IH. reflexivity.
Qed.

Lemma polled_pollTrace ops c idx n :
  polled (pollTrace ops c idx n) = map ops (seq c n).
Proof.
  revert c idx. induction n as [|n IH]; intros c idx; [reflexivity|].
  cbn [pollTrace]. rewrite polled_app, IH. reflexivity.
Qed.

Lemma deliver_app {X : Type} (onProgress : string -> X -> X) ms ms' x :
  deliver onProgress (ms ++ ms') x = deliver onProgress ms' (deliver onProgress ms x).
Proof. unfold deliver. apply fold_left_app. Qed.

(** The rotating list wraps around. *)
Lemma messageAt_wraps i : messageAt (i + length messages) = messageAt i.
Proof.
  unfold messageAt. f_equal.
  rewrite <- (Nat.mul_1_l (length messages)) at 1.
  apply Nat.Div0.mod_add.
Qed.

Section GenerateVideoLoop.
Context {X : Type}.
Variable ai : Remote.
Variable onProgress : string -> X -> X.

(** One iteration on a handle that is not done. *)
Lemma generateVideo_loop_poll fuel messageIndex (w : World X) operation operation' :
  isDone operation = false ->
  getVideosOperation ai operation (count isGetVideosOperation (trace w)) = inr operation' ->
  generateVideo_loop ai (S fuel) (returning onProgress) operation messageIndex w
  = generateVideo_loop ai fuel (returning onProgress) operation' (S messageIndex)
      {| trace := trace w ++ pollEvents messageIndex operation;
         caller := onProgress (messageAt messageIndex) (caller w) |}.
Proof.
  intros Hdone Hpoll. cbn [generateVideo_loop]. rewrite Hdone.
  unfold mbind at 1 2 3, Async_bind, notify. sink_returns. unfold sleep, emit, update.
  unfold mbind at 1, Async_bind. cbn [trace caller].
  unfold ai_operations_getVideosOperation, perform. cbn [trace caller].
  rewrite !count_app. unfold count at 2 3. cbn [List.filter isGetVideosOperation length].
  rewrite !Nat.add_0_r, Hpoll.
  now rewrite <- !app_assoc.
Qed.

(** A handle that is done leaves the loop at once. *)
Lemma generateVideo_loop_done fuel messageIndex (w : World X) operation :
  isDone operation = true ->
  generateVideo_loop ai fuel
      (returning onProgress) operation messageIndex w = (Fulfilled operation, w).
Proof. intros Hdone. destruct fuel; cbn [generateVideo_loop]; now rewrite Hdone. Qed.

(** [n] iterations on handles that are not done, each query answering with
    the next handle. *)
Lemma generateVideo_loop_polls ops n : forall fuel messageIndex (w : World X),
  (forall i, i < n ->
     isDone (ops (count isGetVideosOperation (trace w) + i)) = false /\
     getVideosOperation ai (ops (count isGetVideosOperation (trace w) + i))
       (count isGetVideosOperation (trace w) + i)
     = inr (ops (S (count isGetVideosOperation (trace w) + i)))) ->
  generateVideo_loop ai (n + fuel) (returning onProgress)
    (ops (count isGetVideosOperation (trace w))) messageIndex w
  = generateVideo_loop ai fuel (returning onProgress)
      (ops (count isGetVideosOperation (trace w) + n)) (messageIndex + n)
      {| trace := trace w
                  ++ pollTrace ops (count isGetVideosOperation (trace w)) messageIndex n;
         caller := deliver onProgress (map messageAt (seq messageIndex n)) (caller w) |}.
Proof.
  induction n as [|n IH]; intros fuel messageIndex w Hops.
  - cbn [pollTrace seq map deliver fold_left Nat.add].
    rewrite !Nat.add_0_r, app_nil_r. now destruct w.
  - destruct (Hops 0) as [Hdone Hpoll]; [lia|]. rewrite Nat.add_0_r in Hdone, Hpoll.
    change (S n + fuel) with (S (n + fuel)).
    rewrite (generateVideo_loop_poll _ _ _ _ _ Hdone Hpoll).
    set (w1 := {| trace := trace w ++ pollEvents messageIndex _; caller := _ |}).
    assert (count isGetVideosOperation (trace w1) = S (count isGetVideosOperation (trace w)))
      as Hcount.
    { subst w1. cbn [trace]. rewrite count_app. unfold count at 2. simpl. lia. }
    rewrite <- Hcount. rewrite IH.
    + rewrite Hcount. subst w1. cbn [trace caller pollTrace seq map].
      rewrite <- app_assoc. f_equal; [f_equal; lia|lia].
    + rewrite Hcount. intros i Hi.
      replace (S (count isGetVideosOperation (trace w)) + i)
        with (count isGetVideosOperation (trace w) + S i) by lia.
      apply Hops. lia.
Qed.

(** Submission and [n] polls, up to the statements after the loop, whatever
    these statements and the handler are. *)
Lemma generateVideo_reaches_done {A} prompt base64ImageData mimeType ops n fuel (x : X)
    (rest : Operation -> Async X A) handler :
  generateVideos ai (videoRequest prompt base64ImageData mimeType) 0 = inr (ops 0) ->
  (forall i, i < n ->
     isDone (ops i) = false /\ getVideosOperation ai (ops i) i = inr (ops (S i))) ->
  isDone (ops n) = true ->
  n <= fuel ->
  tryCatch
    (notify (returning onProgress) "正在初始化影片生成...";;
     operation ← ai_models_generateVideos ai (videoRequest prompt base64ImageData mimeType);
     operation ← generateVideo_loop ai fuel (returning onProgress) operation 0;
     rest operation)
    handler (start x)
  = tryCatch (rest (ops n)) handler (polledWorld onProgress prompt base64ImageData mimeType ops n x).
Proof.
  intros Hsubmit Hops Hdone Hfuel.
  unfold tryCatch at 1. unfold mbind at 1 2, Async_bind, notify. sink_returns.
  unfold mbind at 1, Async_bind, emit, update, ai_models_generateVideos, perform.
  cbn [start trace caller app]. change (count isGenerateVideos [_]) with 0.
  rewrite Hsubmit.
  unfold mbind at 1, Async_bind.
  set (w1 := {| trace := [_; _]; caller := _ |}).
  assert (count isGetVideosOperation (trace w1) = 0) as Hcount by reflexivity.
  replace fuel with (n + (fuel - n)) by lia.
  pose proof (generateVideo_loop_polls ops n (fuel - n) 0 w1) as Hloop.
  rewrite Hcount in Hloop. cbn [Nat.add] in Hloop. rewrite Hloop by exact Hops.
  rewrite generateVideo_loop_done by exact Hdone.
  unfold tryCatch, polledWorld. subst w1. cbn [trace caller deliver fold_left].
  reflexivity.
Qed.

End GenerateVideoLoop.

(** ** Two runs that differ in the caller only *)

Section Simulation.
Context {X1 X2 : Type}.

Local Abbreviation related := (@sim X1 X2 _).

Lemma sim_ret {A} (a : A) : related (mret a) (mret a).
Proof. intros w1 w2 Hw. now split. Qed.

Lemma sim_throw {A} e : related (throw (A := A) e) (throw e).
Proof. intros w1 w2 Hw. now split. Qed.

Lemma sim_pending {A} : related (pending (A := A)) pending.
Proof. intros w1 w2 Hw. now split. Qed.

Lemma sim_bind {A B} (m1 : Async X1 A) (m2 : Async X2 A) k1 (k2 : A -> Async X2 B) :
  sim m1 m2 -> (forall a, related (k1 a) (k2 a)) -> related (m1 ≫= k1) (m2 ≫= k2).
Proof.
  intros Hm Hk w1 w2 Hw. unfold mbind, Async_bind.
  destruct (Hm w1 w2 Hw) as [Hres Htr].
  destruct (m1 w1) as [r1 v1], (m2 w2) as [r2 v2]. simpl in Hres, Htr. subst r2.
  destruct r1 as [a|e|]; [now apply Hk| |]; now split.
Qed.

Lemma sim_tryCatch {A} (m1 : Async X1 A) (m2 : Async X2 A) h1 h2 :
  sim m1 m2 -> (forall e, related (h1 e) (h2 e)) -> related (tryCatch m1 h1) (tryCatch m2 h2).
Proof.
  intros Hm Hh w1 w2 Hw. unfold tryCatch.
  destruct (Hm w1 w2 Hw) as [Hres Htr].
  destruct (m1 w1) as [r1 v1], (m2 w2) as [r2 v2]. simpl in Hres, Htr. subst r2.
  destruct r1 as [a|e|]; [|now apply Hh|]; now split.
Qed.

Lemma sim_emit e : related (emit e) (emit e).
Proof. intros w1 w2 Hw. simpl. now rewrite Hw. Qed.

Lemma sim_perform {A} e (answer : Thrown + A) : related (perform e answer) (perform e answer).
Proof. intros w1 w2 Hw. unfold perform. destruct answer; simpl; now rewrite Hw. Qed.

Lemma sim_settle {A} (answer : Thrown + A) : related (settle answer) (settle answer).
Proof. intros w1 w2 Hw. unfold settle. now destruct answer. Qed.

Lemma sim_invoke g1 g2 :
  (forall x, exists x', g1 x = inr x') -> (forall x, exists x', g2 x = inr x') ->
  related (invoke g1) (invoke g2).
Proof.
  intros H1 H2 w1 w2 Hw. unfold invoke.
  destruct (H1 (caller w1)) as [x1 ->], (H2 (caller w2)) as [x2 ->]. now split.
Qed.

Variable ai : Remote.
Variable sink1 : string -> X1 -> Thrown + X1.
Variable sink2 : string -> X2 -> Thrown + X2.
Hypothesis Hreturns1 : returns sink1.
Hypothesis Hreturns2 : returns sink2.

Lemma sim_notify message : related (notify sink1 message) (notify sink2 message).
Proof.
  apply sim_bind; [apply sim_emit|]. intros _.
  apply sim_invoke; [apply Hreturns1 | apply Hreturns2].
Qed.

Lemma sim_generateVideos params :
  related (ai_models_generateVideos ai params) (ai_models_generateVideos ai params).
Proof.
  intros w1 w2 Hw. unfold ai_models_generateVideos. rewrite Hw. now apply sim_perform.
Qed.

Lemma sim_getVideosOperation operation :
  related (ai_operations_getVideosOperation ai operation)
      (ai_operations_getVideosOperation ai operation).
Proof.
  intros w1 w2 Hw. unfold ai_operations_getVideosOperation. rewrite Hw.
  now apply sim_perform.
Qed.

Lemma sim_fetch url : related (window_fetch ai url) (window_fetch ai url).
Proof. intros w1 w2 Hw. unfold window_fetch. rewrite Hw. now apply sim_perform. Qed.

Lemma sim_createObjectURL videoBlob :
  related (URL_createObjectURL ai videoBlob) (URL_createObjectURL ai videoBlob).
Proof. apply sim_bind; [apply sim_emit|]. intros _. apply sim_ret. Qed.

Lemma sim_generateVideo_loop fuel : forall operation messageIndex,
  related (generateVideo_loop ai fuel sink1 operation messageIndex)
      (generateVideo_loop ai fuel sink2 operation messageIndex).
Proof.
  induction fuel as [|fuel IH]; intros operation messageIndex; cbn [generateVideo_loop];
    destruct (isDone operation); try apply sim_ret; [apply sim_pending|].
  apply sim_bind; [apply sim_notify|]. intros _.
  apply sim_bind; [apply sim_emit|]. intros _.
  apply sim_bind; [apply sim_getVideosOperation|]. intros operation'. apply IH.
Qed.

Lemma sim_generateVideo fuel prompt base64ImageData mimeType :
  related (generateVideo ai fuel prompt base64ImageData mimeType sink1)
      (generateVideo ai fuel prompt base64ImageData mimeType sink2).
Proof.
  apply sim_tryCatch.
  - apply sim_bind; [apply sim_notify|]. intros _.
    apply sim_bind; [apply sim_generateVideos|]. intros operation.
    apply sim_bind; [apply sim_generateVideo_loop|]. intros operation'.
    destruct (downloadLinkOf operation') as [downloadLink|]; [|apply sim_throw].
    destruct (Js.truthy downloadLink); [|apply sim_throw].
    apply sim_bind; [apply sim_notify|]. intros _.
    apply sim_bind; [apply sim_fetch|]. intros response.
    destruct (ok response); [|apply sim_throw].
    apply sim_bind; [apply sim_settle|]. intros videoBlob. apply sim_createObjectURL.
  - intros e. apply sim_bind; [apply sim_emit|]. intros _. destruct e; apply sim_throw.
Qed.

End Simulation.

(** ** The sink receives exactly the progress messages of the trace *)

Section Delivery.
Context {X : Type}.
Variable ai : Remote.
Variable onProgress : string -> X -> X.
Variable x0 : X.

Let delivered (w : World X) : Prop :=
  caller w = deliver onProgress (progressMessages (trace w)) x0.

Lemma delivered_emit e :
  (forall m, e <> EvProgress m) -> preserves delivered (emit e).
Proof.
  intros He w Hw. unfold delivered in *. cbn [emit snd trace caller].
  rewrite progressMessages_app.
  assert (progressMessages [e] = []) as ->.
  { destruct e; try reflexivity. now destruct (He message). }
  now rewrite app_nil_r.
Qed.

Lemma delivered_perform {A} e (answer : Thrown + A) :
  (forall m, e <> EvProgress m) -> preserves delivered (perform e answer).
Proof.
  intros He w Hw. pose proof (delivered_emit e He w Hw) as Hemit.
  unfold perform. now destruct answer.
Qed.

Lemma delivered_notify message : preserves delivered (notify (returning onProgress) message).
Proof.
  intros w Hw. unfold delivered in *.
  unfold notify. sink_returns. unfold mbind, Async_bind, emit, update. cbn [snd trace caller].
  rewrite progressMessages_app, deliver_app, <- Hw. reflexivity.
Qed.

Lemma delivered_generateVideo_loop fuel : forall operation messageIndex,
  preserves delivered (generateVideo_loop ai fuel (returning onProgress) operation messageIndex).
Proof.
  induction fuel as [|fuel IH]; intros operation messageIndex; cbn [generateVideo_loop];
    destruct (isDone operation); try apply preserves_ret; [apply preserves_pending|].
  apply preserves_bind; [apply delivered_notify|]. intros _.
  apply preserves_bind; [now apply delivered_emit|]. intros _.
  apply preserves_bind; [|intros operation'; apply IH].
  intros w Hw. unfold ai_operations_getVideosOperation. now apply delivered_perform.
Qed.

Lemma delivered_generateVideo fuel prompt base64ImageData mimeType :
  preserves delivered (generateVideo ai fuel prompt base64ImageData mimeType
      (returning onProgress)).
Proof.
  apply preserves_tryCatch.
  - apply preserves_bind; [apply delivered_notify|]. intros _.
    apply preserves_bind.
    { intros w Hw. unfold ai_models_generateVideos. now apply delivered_perform. }
    intros operation.
    apply preserves_bind; [apply delivered_generateVideo_loop|]. intros operation'.
    destruct (downloadLinkOf operation') as [downloadLink|]; [|apply preserves_throw].
    destruct (Js.truthy downloadLink); [|apply preserves_throw].
    apply preserves_bind; [apply delivered_notify|]. intros _.
    apply preserves_bind.
    { intros w Hw. unfold window_fetch. now apply delivered_perform. }
    intros response. destruct (ok response); [|apply preserves_throw].
    apply preserves_bind; [apply preserves_settle|]. intros videoBlob.
    apply preserves_bind; [now apply delivered_emit|]. intros _. apply preserves_ret.
  - intros e. apply preserves_bind; [now apply delivered_emit|]. intros _.
    destruct e; apply preserves_throw.
Qed.

End Delivery.

(** In a fresh run the sink has received the progress messages of the trace,
    in their order, and nothing else has touched the caller's state. *)
Lemma generateVideo_delivers {X : Type} ai fuel prompt base64ImageData mimeType
    (onProgress : string -> X -> X) (x : X) :
  caller (snd (generateVideo ai fuel prompt base64ImageData mimeType
      (returning onProgress) (start x)))
  = deliver onProgress
      (progressMessages
         (trace (snd (generateVideo ai fuel prompt base64ImageData mimeType
             (returning onProgress) (start x)))))
      x.
Proof. now apply (delivered_generateVideo ai onProgress x). Qed.

(** ** A sink that returns is called on the progress messages of the trace *)

Lemma handOver_app {X : Type} (sink : string -> X -> Thrown + X) ms ms' x x' :
  handOver sink ms x = inr x' -> handOver sink (ms ++ ms') x = handOver sink ms' x'.
Proof.
  revert x. induction ms as [|m ms IH]; intros x; cbn [handOver app].
  - now intros [= ->].
  - destruct (sink m x) as [e|x1]; [discriminate | apply IH].
Qed.

Section HandOver.
Context {X : Type}.
Variable ai : Remote.
Variable sink : string -> X -> Thrown + X.
Hypothesis Hreturns : returns sink.
Variable x0 : X.

Let handed (w : World X) : Prop :=
  handOver sink (progressMessages (trace w)) x0 = inr (caller w).

Lemma handed_emit e :
  (forall m, e <> EvProgress m) -> preserves handed (emit e).
Proof.
  intros He w Hw. unfold handed in *. cbn [emit snd trace caller].
  rewrite progressMessages_app.
  assert (progressMessages [e] = []) as ->.
  { destruct e; try reflexivity. now destruct (He message). }
  now rewrite app_nil_r.
Qed.

Lemma handed_perform {A} e (answer : Thrown + A) :
  (forall m, e <> EvProgress m) -> preserves handed (perform e answer).
Proof.
  intros He w Hw. pose proof (handed_emit e He w Hw) as Hemit.
  unfold perform. now destruct answer.
Qed.

Lemma handed_notify message : preserves handed (notify sink message).
Proof.
  intros w Hw. unfold handed in *.
  unfold notify, invoke, mbind, Async_bind, emit. cbn [snd trace caller].
  destruct (Hreturns message (caller w)) as [x' Hx']. rewrite Hx'. cbn [snd trace caller].
  rewrite progressMessages_app, (handOver_app _ _ _ _ _ Hw). cbn. now rewrite Hx'.
Qed.

Lemma handed_generateVideo_loop fuel : forall operation messageIndex,
  preserves handed (generateVideo_loop ai fuel sink operation messageIndex).
Proof.
  induction fuel as [|fuel IH]; intros operation messageIndex; cbn [generateVideo_loop];
    destruct (isDone operation); try apply preserves_ret; [apply preserves_pending|].
  apply preserves_bind; [apply handed_notify|]. intros _.
  apply preserves_bind; [now apply handed_emit|]. intros _.
  apply preserves_bind; [|intros operation'; apply IH].
  intros w Hw. unfold ai_operations_getVideosOperation. now apply handed_perform.
Qed.

Lemma handed_generateVideo fuel prompt base64ImageData mimeType :
  preserves handed (generateVideo ai fuel prompt base64ImageData mimeType sink).
Proof.
  apply preserves_tryCatch.
  - apply preserves_bind; [apply handed_notify|]. intros _.
    apply preserves_bind.
    { intros w Hw. unfold ai_models_generateVideos. now apply handed_perform. }
    intros operation.
    apply preserves_bind; [apply handed_generateVideo_loop|]. intros operation'.
    destruct (downloadLinkOf operation') as [downloadLink|]; [|apply preserves_throw].
    destruct (Js.truthy downloadLink); [|apply preserves_throw].
    apply preserves_bind; [apply handed_notify|]. intros _.
    apply preserves_bind.
    { intros w Hw. unfold window_fetch. now apply handed_perform. }
    intros response. destruct (ok response); [|apply preserves_throw].
    apply preserves_bind; [apply preserves_settle|]. intros videoBlob.
    apply preserves_bind; [now apply handed_emit|]. intros _. apply preserves_ret.
  - intros e. apply preserves_bind; [now apply handed_emit|]. intros _.
    destruct e; apply preserves_throw.
Qed.

End HandOver.

(** ** More waiting does not change a settled promise *)

Section Settled.
Context {X : Type}.
Variable ai : Remote.

(** If the continuation [k'] agrees with [k] wherever [k] settles, so do the
    computations that end with them. *)
Lemma bind_settled {A B} (m : Async X A) (k k' : A -> Async X B) (w : World X) :
  (forall a v, fst (k a v) <> Pending -> k' a v = k a v) ->
  fst ((m ≫= k) w) <> Pending ->
  (m ≫= k') w = (m ≫= k) w.
Proof.
  unfold mbind, Async_bind. intros Hk.
  destruct (m w) as [[a|e|] v]; auto.
Qed.

Lemma bind_pending {A B} (m : Async X A) (k : A -> Async X B) (w : World X) :
  fst (m w) = Pending -> fst ((m ≫= k) w) = Pending.
Proof.
  unfold mbind, Async_bind. destruct (m w) as [[a|e|] v]; try discriminate. reflexivity.
Qed.

Lemma bind_head {A B} (m m' : Async X A) (k : A -> Async X B) (w : World X) :
  m' w = m w -> (m' ≫= k) w = (m ≫= k) w.
Proof. unfold mbind, Async_bind. now intros ->. Qed.

(** The same under a handler. *)
Lemma tryCatch_settled {A} (m m' : Async X A) handler (w : World X) :
  (fst (m w) <> Pending -> m' w = m w) ->
  fst (tryCatch m handler w) <> Pending ->
  tryCatch m' handler w = tryCatch m handler w.
Proof.
  unfold tryCatch. intros Hm Hsettled. rewrite Hm; [reflexivity|].
  intros Hpending. apply Hsettled.
  destruct (m w) as [[a|e|] v]; try discriminate. reflexivity.
Qed.

Lemma editImage_loop_settled fuel b m p : forall attempt (w : World X) extra,
  fst (editImage_loop ai fuel b m p attempt w) <> Pending ->
  editImage_loop ai (fuel + extra) b m p attempt w = editImage_loop ai fuel b m p attempt w.
Proof.
  induction fuel as [|fuel IH]; intros attempt w extra Hsettled.
  - now destruct Hsettled.
  - cbn [Nat.add editImage_loop] in *. apply bind_settled; [|exact Hsettled].
    intros response v Hv. apply bind_settled; [|exact Hv].
    intros imagePart v0. destruct (imagePart ≫= inlineData); [reflexivity|].
    clear Hv. intros Hv. apply bind_settled; [|exact Hv].
    intros _ v1 Hv1. apply bind_settled; [|exact Hv1].
    intros _ v2 Hv2. now apply IH.
Qed.

Lemma editImage_settled fuel b m p (w : World X) extra :
  fst (editImage ai fuel b m p w) <> Pending ->
  editImage ai (fuel + extra) b m p w = editImage ai fuel b m p w.
Proof.
  unfold editImage. intros Hsettled. apply tryCatch_settled; [|exact Hsettled].
  apply editImage_loop_settled.
Qed.

Lemma generateVideo_loop_settled fuel onProgress :
  forall operation messageIndex (w : World X) extra,
  fst (generateVideo_loop ai fuel onProgress operation messageIndex w) <> Pending ->
  generateVideo_loop ai (fuel + extra) onProgress operation messageIndex w
  = generateVideo_loop ai fuel onProgress operation messageIndex w.
Proof.
  induction fuel as [|fuel IH]; intros operation messageIndex w extra Hsettled.
  - cbn [Nat.add generateVideo_loop] in *.
    destruct (isDone operation) eqn:Hdone.
    + destruct extra; cbn [generateVideo_loop]; now rewrite Hdone.
    + now destruct Hsettled.
  - cbn [Nat.add generateVideo_loop] in *.
    destruct (isDone operation); [reflexivity|].
    apply bind_settled; [|exact Hsettled].
    intros _ v Hv. apply bind_settled; [|exact Hv].
    intros _ v1 Hv1. apply bind_settled; [|exact Hv1].
    intros operation' v2 Hv2. now apply IH.
Qed.

Lemma generateVideo_settled fuel prompt base64ImageData mimeType onProgress
    (w : World X) extra :
  fst (generateVideo ai fuel prompt base64ImageData mimeType onProgress w) <> Pending ->
  generateVideo ai (fuel + extra) prompt base64ImageData mimeType onProgress w
  = generateVideo ai fuel prompt base64ImageData mimeType onProgress w.
Proof.
  unfold generateVideo. intros Hsettled. apply tryCatch_settled; [|exact Hsettled].
  intros Hbody. apply bind_settled; [|exact Hbody].
  intros _ v Hv. apply bind_settled; [|exact Hv].
  intros operation v1 Hv1. apply bind_head.
  apply generateVideo_loop_settled.
  intros Hpending. apply Hv1. now apply bind_pending.
Qed.

End Settled.

(** ** The retrieval of [generateVideo] *)

Section GenerateVideoRetrieval.
Context {X : Type}.
Variable ai : Remote.
Variable onProgress : string -> X -> X.

(** After the polls, a done handle with a locator leads to the message for
    the retrieval, one [fetch] of the locator with the key appended, and then
    either the object URL or the logged failure of the retrieval. *)
Lemma generateVideo_retrieves prompt base64ImageData mimeType ops n fuel (x : X) link :
  generateVideos ai (videoRequest prompt base64ImageData mimeType) 0 = inr (ops 0) ->
  (forall i, i < n ->
     isDone (ops i) = false /\ getVideosOperation ai (ops i) i = inr (ops (S i))) ->
  isDone (ops n) = true ->
  downloadLinkOf (ops n) = Some link ->
  link <> "" ->
  n <= fuel ->
  exists rest,
    trace (snd (generateVideo ai fuel prompt base64ImageData mimeType
        (returning onProgress) (start x)))
    = trace (polledWorld onProgress prompt base64ImageData mimeType ops n x)
      ++ [EvProgress "正在獲取影片...";
          EvFetch (link +:+ "&key=" +:+ Js.interpolate (API_KEY ai))]
      ++ rest /\
    ((exists e, rest = [EvConsoleError "調用 Gemini API 進行影片生成時出錯:" e])
     \/ (exists b, rest = [EvCreateObjectURL b])).
Proof.
  intros Hsubmit Hops Hdone Hlink Hne Hfuel. unfold generateVideo.
  rewrite (generateVideo_reaches_done ai onProgress prompt base64ImageData mimeType
             ops n fuel x) by assumption.
  rewrite Hlink.
  assert (Js.truthy link = true) as -> by now apply truthy_true.
  set (w := polledWorld _ _ _ _ _ _ _).
  assert (count isFetch (trace w) = 0) as Hcount.
  { subst w. unfold polledWorld. cbn [trace]. rewrite count_app.
    now rewrite (count_other_pollTrace isFetch). }
  unfold tryCatch.
  unfold mbind at 1 2, Async_bind, notify. sink_returns.
  unfold mbind at 1, Async_bind, emit, update, window_fetch, perform.
  cbn [trace caller]. rewrite count_app, Hcount.
  change (0 + count isFetch [EvProgress "正在獲取影片..."]) with 0.
  destruct (fetch ai _ 0) as [e|response].
  - exists [EvConsoleError "調用 Gemini API 進行影片生成時出錯:" e]. split; [|left; now exists e].
    unfold mbind, Async_bind, console_error, emit, throw.
    destruct e; cbn [snd trace]; now rewrite <- !app_assoc.
  - destruct (ok response).
    + unfold mbind at 1, Async_bind, settle. destruct (blob response) as [e|videoBlob].
      * exists [EvConsoleError "調用 Gemini API 進行影片生成時出錯:" e]. split; [|left; now exists e].
        unfold mbind, Async_bind, console_error, emit, throw.
        destruct e; cbn [snd trace]; now rewrite <- !app_assoc.
      * exists [EvCreateObjectURL videoBlob]. split; [|right; now exists videoBlob].
        unfold URL_createObjectURL, mbind, Async_bind, emit, mret, Async_ret.
        cbn [snd trace]. now rewrite <- !app_assoc.
    + eexists. split; [|left; eexists; reflexivity].
      unfold mbind, Async_bind, console_error, emit, throw.
      cbn [snd trace]. now rewrite <- !app_assoc.
Qed.

End GenerateVideoRetrieval.
(** ** Claims about [generateVideo] *)

(** C4: when the submission answers a handle that is not done, the first
    poll answers one that is not done and the second poll one that is done
    and carries a locator, [generateVideo] submits once, polls twice and
    retrieves once; the first poll passes the submitted handle and the second
    the handle that the first poll answered; the messages shown are the
    initial one, entries 0 and 1 of the rotating list and the one for the
    retrieval, each rotating message immediately before its wait; and the
    rotating list is read at the index modulo its length. *)
Theorem generateVideo_two_polls
    {X : Type} (ai : Remote) (prompt : string) (base64ImageData mimeType : option string)
    (onProgress : string -> X -> X) (op0 op1 op2 : Operation) (link : string)
    (fuel : nat) (x : X) :
  generateVideos ai (videoRequest prompt base64ImageData mimeType) 0 = inr op0 ->
  isDone op0 = false ->
  getVideosOperation ai op0 0 = inr op1 ->
  isDone op1 = false ->
  getVideosOperation ai op1 1 = inr op2 ->
  isDone op2 = true ->
  downloadLinkOf op2 = Some link ->
  link <> "" ->
  2 <= fuel ->
  let run := generateVideo ai fuel prompt base64ImageData mimeType
      (returning onProgress) (start x) in
  count isGenerateVideos (trace (snd run)) = 1 /\
  count isGetVideosOperation (trace (snd run)) = 2 /\
  count isFetch (trace (snd run)) = 1 /\
  polled (trace (snd run)) = [op0; op1] /\
  progressMessages (trace (snd run))
  = [ "正在初始化影片生成..."; nth 0 messages ""; nth 1 messages ""; "正在獲取影片..." ] /\
  (exists rest,
     trace (snd run)
     = [ EvProgress "正在初始化影片生成...";
         EvGenerateVideos (videoRequest prompt base64ImageData mimeType);
         EvProgress (nth 0 messages ""); EvTimeout 10000; EvGetVideosOperation op0;
         EvProgress (nth 1 messages ""); EvTimeout 10000; EvGetVideosOperation op1;
         EvProgress "正在獲取影片...";
         EvFetch (link +:+ "&key=" +:+ Js.interpolate (API_KEY ai)) ] ++ rest) /\
  (forall i, messageAt i = nth (i mod 5) messages "undefined") /\
  caller (snd run) = deliver onProgress (progressMessages (trace (snd run))) x.
Proof.
  intros Hsubmit Hd0 Hp0 Hd1 Hp1 Hd2 Hlink Hne Hfuel run.
  destruct (generateVideo_retrieves ai onProgress prompt base64ImageData mimeType
              (fun i => match i with 0 => op0 | 1 => op1 | _ => op2 end) 2 fuel x link)
    as [rest [Htrace Hrest]];
    [ exact Hsubmit
    | intros [|[|i]] Hi; [now split | now split | lia]
    | exact Hd2 | exact Hlink | exact Hne | exact Hfuel | ].
  assert (count isGenerateVideos rest = 0 /\ count isGetVideosOperation rest = 0 /\
          count isFetch rest = 0 /\ polled rest = [] /\ progressMessages rest = [])
    as [Hs [Hp [Hf [Hh Hm]]]].
  { destruct Hrest as [[e ->]|[b ->]]; repeat split. }
  assert (caller (snd run) = deliver onProgress (progressMessages (trace (snd run))) x)
    as Hdeliver by apply generateVideo_delivers.
  revert Hdeliver. subst run. rewrite Htrace.
  unfold polledWorld. cbn [trace pollTrace pollEvents app]. intros Hdeliver.
  split; [|split; [|split; [|split; [|split; [|split; [|split]]]]]].
  - unfold count in *. cbn [List.filter isGenerateVideos length]. now rewrite Hs.
  - unfold count in *. cbn [List.filter isGetVideosOperation length]. now rewrite Hp.
  - unfold count in *. cbn [List.filter isFetch length]. now rewrite Hf.
  - unfold polled in *. cbn [flat_map app]. now rewrite Hh.
  - unfold progressMessages in *. cbn [flat_map app]. now rewrite Hm.
  - exists rest. reflexivity.
  - intros i. reflexivity.
  - exact Hdeliver.
Qed.

Lemma generateVideo_two_polls_witness :
  let run := generateVideo twoPolls 2 "a cat running" None None (returning record) (start []) in
  fst run = Fulfilled "blob:VIDEO" /\
  count isGenerateVideos (trace (snd run)) = 1 /\
  count isGetVideosOperation (trace (snd run)) = 2 /\
  count isFetch (trace (snd run)) = 1 /\
  polled (trace (snd run)) = [running "job-0"; running "job-1"] /\
  caller (snd run)
  = [ "正在初始化影片生成..."; "正在設定場景..."; "AI 正在發揮創意..."; "正在獲取影片..." ].
Proof.
  destruct (generateVideo_two_polls twoPolls "a cat running" None None record
              (running "job-0") (running "job-1")
              (finished "job-2" (Some "https://videos.example/v1?alt=media"))
              "https://videos.example/v1?alt=media" 2 [])
    as [Hs [Hp [Hf [Hh [Hm [_ [_ Hc]]]]]]]; try reflexivity.
  - discriminate.
  - intros run. split; [reflexivity|].
    split; [exact Hs|]. split; [exact Hp|]. split; [exact Hf|]. split; [exact Hh|].
    subst run. rewrite Hc, Hm. reflexivity.
Defined.

(** C5: whenever the job is reported done, after any number of polls, and
    the done handle carries no locator (or an empty one), [generateVideo]
    rejects with the translated error for the missing download link and the
    trace holds no retrieval. *)
Theorem generateVideo_without_locator_fails
    {X : Type} (ai : Remote) (prompt : string) (base64ImageData mimeType : option string)
    (onProgress : string -> X -> X) (ops : nat -> Operation) (n fuel : nat) (x : X) :
  generateVideos ai (videoRequest prompt base64ImageData mimeType) 0 = inr (ops 0) ->
  (forall i, i < n ->
     isDone (ops i) = false /\ getVideosOperation ai (ops i) i = inr (ops (S i))) ->
  isDone (ops n) = true ->
  downloadLinkOf (ops n) = None \/ downloadLinkOf (ops n) = Some "" ->
  n <= fuel ->
  let run := generateVideo ai fuel prompt base64ImageData mimeType
      (returning onProgress) (start x) in
  fst run = Rejected (Error "影片生成失敗： 影片生成失敗，未收到下載連結。") /\
  count isFetch (trace (snd run)) = 0 /\
  count isGenerateVideos (trace (snd run)) = 1 /\
  count isGetVideosOperation (trace (snd run)) = n.
Proof.
  intros Hsubmit Hops Hdone Hlink Hfuel run. subst run. unfold generateVideo.
  rewrite (generateVideo_reaches_done ai onProgress prompt base64ImageData mimeType
             ops n fuel x) by assumption.
  assert (forall (w : World X),
            tryCatch
              (match downloadLinkOf (ops n) with
               | Some downloadLink =>
                   if Js.truthy downloadLink
                   then
                     notify (returning onProgress) "正在獲取影片...";;
                     (let videoUrl := downloadLink +:+ "&key=" +:+ Js.interpolate (API_KEY ai) in
                      response ← window_fetch ai videoUrl;
                      (if ok response
                       then videoBlob ← settle (blob response); URL_createObjectURL ai videoBlob
                       else throw (Error ("無法下載影片： " +:+ statusText response))))
                   else throw (Error "影片生成失敗，未收到下載連結。")
               | None => throw (Error "影片生成失敗，未收到下載連結。")
               end)
              (fun error =>
                 console_error "調用 Gemini API 進行影片生成時出錯:" error;;
                 match error with
                 | Error message => throw (Error ("影片生成失敗： " +:+ message))
                 | NonError => throw (Error "生成影片時發生未知的錯誤。")
                 end) w
            = (Rejected (Error "影片生成失敗： 影片生成失敗，未收到下載連結。"),
               {| trace := trace w
                           ++ [EvConsoleError "調用 Gemini API 進行影片生成時出錯:"
                                 (Error "影片生成失敗，未收到下載連結。")];
                  caller := caller w |})) as Hfail.
  { intros w. destruct Hlink as [-> | ->]; reflexivity. }
  rewrite Hfail. unfold polledWorld. cbn [fst snd trace].
  split; [reflexivity|].
  rewrite !count_app.
  rewrite (count_other_pollTrace isFetch), (count_other_pollTrace isGenerateVideos),
    count_pollTrace by reflexivity.
  unfold count. cbn [List.filter isFetch isGenerateVideos isGetVideosOperation length].
  repeat split; lia.
Qed.

Lemma generateVideo_without_locator_fails_witness :
  let run := generateVideo doneWithoutLocator 3 "a cat running" None None
      (returning record) (start []) in
  fst run = Rejected (Error "影片生成失敗： 影片生成失敗，未收到下載連結。") /\
  count isFetch (trace (snd run)) = 0 /\
  count isGenerateVideos (trace (snd run)) = 1 /\
  count isGetVideosOperation (trace (snd run)) = 1.
Proof.
  apply (generateVideo_without_locator_fails doneWithoutLocator "a cat running" None None
           record (fun i => match i with 0 => running "job-0" | _ => finished "job-1" None end)
           1 3 []).
  - reflexivity.
  - intros i Hi. assert (i = 0) as -> by lia. split; reflexivity.
  - reflexivity.
  - left. reflexivity.
  - lia.
Defined.

(** C8 (amended): a progress sink that returns does not steer
    [generateVideo].  For any two sinks that return from every call, over any
    two states of their own, and the same service, the two runs make the same
    calls in the same order (submission, polls, retrieval, waits and
    messages) and settle in the same way; and each sink has been called, by
    the time the promise settles, on exactly the progress messages of the
    trace, in their order. *)
Theorem generateVideo_sink_does_not_steer
    {X1 X2 : Type} (ai : Remote) (fuel : nat) (prompt : string)
    (base64ImageData mimeType : option string)
    (sink1 : string -> X1 -> Thrown + X1) (sink2 : string -> X2 -> Thrown + X2)
    (x1 : X1) (x2 : X2)
    (Hreturns1 : returns sink1) (Hreturns2 : returns sink2) :
  let run1 := generateVideo ai fuel prompt base64ImageData mimeType sink1 (start x1) in
  let run2 := generateVideo ai fuel prompt base64ImageData mimeType sink2 (start x2) in
  fst run1 = fst run2 /\
  trace (snd run1) = trace (snd run2) /\
  handOver sink1 (progressMessages (trace (snd run1))) x1 = inr (caller (snd run1)) /\
  handOver sink2 (progressMessages (trace (snd run2))) x2 = inr (caller (snd run2)).
Proof.
  intros run1 run2.
  destruct (sim_generateVideo ai sink1 sink2 Hreturns1 Hreturns2 fuel prompt base64ImageData
              mimeType (start x1) (start x2) eq_refl) as [Hres Htrace].
  split; [exact Hres|]. split; [exact Htrace|]. split.
  - now apply (handed_generateVideo ai sink1 Hreturns1 x1).
  - now apply (handed_generateVideo ai sink2 Hreturns2 x2).
Qed.

Lemma generateVideo_sink_does_not_steer_witness :
  let run1 := generateVideo onePoll 1 "a cat running" None None (returning record)
                (start []) in
  let run2 := generateVideo onePoll 1 "a cat running" None None
                (returning (fun _ (calls : nat) => S calls)) (start 0) in
  fst run1 = fst run2 /\
  trace (snd run1) = trace (snd run2) /\
  caller (snd run1) = [ "正在初始化影片生成..."; "正在設定場景..."; "正在獲取影片..." ] /\
  caller (snd run2) = 3.
Proof.
  destruct (generateVideo_sink_does_not_steer onePoll 1 "a cat running" None None
              (returning record) (returning (fun _ (calls : nat) => S calls)) [] 0)
    as (Hres & Htrace & _ & _).
  - intros message x. now eexists.
  - intros message x. now eexists.
  - split; [exact Hres|]. split; [exact Htrace|]. split; reflexivity.
Defined.

(** C8 as stated fails: one sink returns, the other throws when it is called.
    With the same service, the run with the first submits the job, polls and
    is fulfilled; the run with the second ends at the first message, before
    any submission, and is rejected with the translated error of what the
    sink threw. *)
Lemma generateVideo_throwing_sink_steers :
  let run1 := generateVideo onePoll 1 "a cat running" None None (returning record)
                (start []) in
  let run2 := generateVideo onePoll 1 "a cat running" None None failingSink (start []) in
  fst run1 = Fulfilled "blob:VIDEO" /\
  count isGenerateVideos (trace (snd run1)) = 1 /\
  count isGetVideosOperation (trace (snd run1)) = 1 /\
  fst run2 = Rejected (Error "影片生成失敗： sink failed") /\
  count isGenerateVideos (trace (snd run2)) = 0 /\
  count isGetVideosOperation (trace (snd run2)) = 0.
Proof. repeat split. Qed.

(** ** [handleEdit] *)

Section HandleEdit.
Variable ai : Remote.

Lemma editCall_caller fuel es file (w : World AppState) :
  caller (snd (editCall ai fuel es file w)) = caller w.
Proof.
  unfold editCall, mbind, Async_bind, readFile, perform.
  destruct (fileToBase64 ai file) as [e|base64Data]; [reflexivity|].
  destruct (isOutpaint es).
  - now rewrite outpaintImage_caller.
  - now rewrite editImage_caller.
Qed.

Lemma promptAccepted_check es :
  promptAccepted es ->
  negb (isOutpaint es) && negb (Js.truthy (Js.trim (prompt es))) = false.
Proof.
  intros [-> | Hp]; [reflexivity|].
  apply truthy_true in Hp. rewrite Hp. apply andb_false_r.
Qed.

(** With a file selected and the prompt accepted, [handleEdit] clears the
    entry, makes the call and stores its result or shows its error. *)
Lemma handleEdit_run fuel rendered file (w : World AppState) :
  selectedOriginalFile (editState rendered) = Some file ->
  promptAccepted (editState rendered) ->
  handleEdit ai fuel rendered w
  = afterCall (fileKeyOf file)
      (editCall ai fuel (editState rendered) file
         {| trace := trace w; caller := cleared (fileKeyOf file) (caller w) |}).
Proof.
  intros Hsel Hprompt. unfold handleEdit. rewrite Hsel.
  rewrite (promptAccepted_check _ Hprompt).
  unfold setIsLoading, setError, setEditState.
  unfold mbind at 1 2 3, Async_bind, update. cbn [trace caller isLoading error editState].
  unfold tryFinally, tryCatch, editCall.
  unfold mbind at 1 3, Async_bind, readFile, perform. cbn [trace caller].
  fold (cleared (fileKeyOf file) (caller w)).
  destruct (fileToBase64 ai file) as [e|base64Data].
  - reflexivity.
  - unfold mbind, Async_bind.
    destruct (isOutpaint (editState rendered)).
    + destruct (outpaintImage ai fuel base64Data (type file) _ _) as [[result|e|] w2];
        reflexivity.
    + destruct (editImage ai fuel base64Data (type file) _ _) as [[result|e|] w2];
        reflexivity.
Qed.

(** Without a selected file or with a refused prompt, only the error text
    changes. *)
Lemma handleEdit_refused fuel rendered (w : World AppState) :
  selectedOriginalFile (editState rendered) = None \/ ~ promptAccepted (editState rendered) ->
  editState (caller (snd (handleEdit ai fuel rendered w))) = editState (caller w) /\
  trace (snd (handleEdit ai fuel rendered w)) = trace w.
Proof.
  intros Hrefused. unfold handleEdit.
  destruct (selectedOriginalFile (editState rendered)) as [file|]; [|now split].
  destruct Hrefused as [Hnone|Hprompt]; [discriminate|].
  destruct (negb (isOutpaint (editState rendered))
            && negb (Js.truthy (Js.trim (prompt (editState rendered))))) eqn:Hcheck;
    [now split|].
  exfalso. apply Hprompt. unfold promptAccepted.
  destruct (isOutpaint (editState rendered)); [now left|right].
  simpl in Hcheck. apply negb_false_iff in Hcheck. now apply truthy_true.
Qed.

End HandleEdit.

(** ** Claim about [handleEdit] *)

(** C10: [handleEdit] changes, of the edit state, nothing but the entry of
    the edited-image map whose key is the name of the selected file followed
    by its [lastModified]: every other key has the entry it had, on every
    path, and the other fields are as they were.  When the handler goes on
    (a file is selected and the prompt accepted), the call is made in the
    state in which that entry is already cleared, and the entry holds the
    result if the call is fulfilled and stays cleared if the call is
    rejected or has not settled. *)
Theorem handleEdit_changes_one_entry
    (ai : Remote) (fuel : nat) (rendered : AppState) (w : World AppState) :
  let w' := snd (handleEdit ai fuel rendered w) in
  let before := editState (caller w) in
  let after := editState (caller w') in
  (prompt after = prompt before /\
   originalFiles after = originalFiles before /\
   selectedFileIndex after = selectedFileIndex before /\
   outputName after = outputName before /\
   isOutpaint after = isOutpaint before) /\
  (forall key,
     (forall file, selectedOriginalFile (editState rendered) = Some file ->
                   key <> fileKeyOf file) ->
     editedImages after !! key = editedImages before !! key) /\
  (forall file,
     selectedOriginalFile (editState rendered) = Some file ->
     promptAccepted (editState rendered) ->
     let entered := {| trace := trace w; caller := cleared (fileKeyOf file) (caller w) |} in
     let call := editCall ai fuel (editState rendered) file entered in
     editedImages (editState (caller entered)) !! fileKeyOf file = Some None /\
     caller (snd call) = caller entered /\
     trace w' = trace (snd call) /\
     editedImages after !! fileKeyOf file
     = Some (match fst call with Fulfilled result => Some result | _ => None end) /\
     (forall e, fst call = Rejected e -> error (caller w') = Some (displayMessage e))).
Proof.
  intros w' before after.
  assert (selectedOriginalFile (editState rendered) = None \/
          ~ promptAccepted (editState rendered) \/
          exists file, selectedOriginalFile (editState rendered) = Some file /\
                       promptAccepted (editState rendered)) as Hcases.
  { destruct (selectedOriginalFile (editState rendered)) as [file|]; [|now left].
    right. unfold promptAccepted.
    destruct (isOutpaint (editState rendered)); [right; exists file; auto|].
    destruct (decide (Js.trim (prompt (editState rendered)) = "")) as [Hblank|Hgiven].
    - left. intros [Ho|Hp]; [discriminate|contradiction].
    - right. exists file. auto. }
  destruct Hcases as [Hnone | [Hrefused | [file [Hsel Hprompt]]]].
  - destruct (handleEdit_refused ai fuel rendered w (or_introl Hnone)) as [Hstate _].
    subst after before w'. rewrite Hstate.
    split; [repeat split|]. split; [reflexivity|]. intros file Hfile. congruence.
  - destruct (handleEdit_refused ai fuel rendered w (or_intror Hrefused)) as [Hstate _].
    subst after before w'. rewrite Hstate.
    split; [repeat split|]. split; [reflexivity|]. intros file _ Hprompt. contradiction.
  - pose proof (handleEdit_run ai fuel rendered file w Hsel Hprompt) as Hrun.
    pose proof (editCall_caller ai fuel (editState rendered) file
                  {| trace := trace w; caller := cleared (fileKeyOf file) (caller w) |})
      as Hcaller.
    subst after before w'. rewrite Hrun. clear Hrun.
    destruct (editCall ai fuel (editState rendered) file _) as [[result|e|] w2] eqn:Hcall;
      cbn [snd caller] in Hcaller; cbn [afterCall fst snd trace caller editState];
      rewrite Hcaller; cbn [cleared editState withEditedImage prompt originalFiles
                            selectedFileIndex outputName isOutpaint editedImages error].
    all: split; [repeat split|].
    all: split;
      [ intros key Hkey; specialize (Hkey file Hsel);
        rewrite ?lookup_insert_ne by congruence; reflexivity | ].
    all: intros file' Hsel' _; assert (file' = file) as -> by congruence.
    all: rewrite Hcall.
    all: cbn [trace caller cleared editState withEditedImage editedImages fst snd].
    all: rewrite ?lookup_insert_eq; repeat split; try congruence.
Qed.

Lemma handleEdit_changes_one_entry_witness :
  let w' := snd (handleEdit textThenImage 2 twoFiles (start twoFiles)) in
  editedImages (editState (caller w')) !! fileKeyOf photo = Some (Some "AAAA") /\
  editedImages (editState (caller w')) !! fileKeyOf sketch = Some (Some "QkJCQg==").
Proof.
  destruct (handleEdit_changes_one_entry textThenImage 2 twoFiles (start twoFiles))
    as [_ [Hother Hentry]].
  split.
  - destruct (Hentry photo) as [_ [_ [_ [Hphoto _]]]].
    + reflexivity.
    + right. vm_compute. discriminate.
    + exact Hphoto.
  - rewrite (Hother (fileKeyOf sketch)).
    + reflexivity.
    + intros file Hfile. injection Hfile as <-. vm_compute. discriminate.
Defined.

(** ** The two end-to-end scenarios *)

(** Text on attempt 1, an image on attempt 2: the bytes of attempt 2 after
    one wait. *)
Example edit_text_then_image :
  let run := editImage textThenImage 2 "SU1H" "image/png" "add a hat" (start tt) in
  fst run = Fulfilled "AAAA" /\ timeouts (trace (snd run)) = [1000%Z].
Proof. split; reflexivity. Qed.

(** Not done once, then done with a locator: the retrieved artifact, and the
    sink has been told the initial message, entry 0 of the rotating list and
    the message of the retrieval. *)
Example video_one_poll :
  let run := generateVideo onePoll 1 "a cat running" None None (returning record) (start []) in
  fst run = Fulfilled "blob:VIDEO" /\
  caller (snd run) = [ "正在初始化影片生成..."; "正在設定場景..."; "正在獲取影片..." ] /\
  polled (trace (snd run)) = [running "job-0"].
Proof. repeat split; reflexivity. Qed.

(** * Further properties *)

(** ** Every outcome of [editImage] *)

Section EditImageOutcomes.
Context {X : Type}.
Variable ai : Remote.
Variables base64ImageData mimeType prompt : string.

Let request := editRequest base64ImageData mimeType prompt.
Let rs := answerOf ai (editRequest base64ImageData mimeType prompt).

(** The first [n] answers are answers without image in the first candidate. *)
Let retried (n : nat) : Prop :=
  forall i, i < n ->
    generateContent ai request i = inr (rs i) /\ imagePartOf ai (rs i) = inr None.

(** Within [fuel] calls, either every answer is searched in vain, or a first
    call faults, or a first answer holds an image that the search finds, or
    the search of a first answer throws. *)
Lemma editImage_cases fuel :
  retried fuel \/
  exists n, n < fuel /\ retried n /\
    ((exists e, generateContent ai request n = inl e) \/
     (generateContent ai request n = inr (rs n) /\
      ((exists part, imagePartOf ai (rs n) = inr (Some part)) \/
       (exists e, imagePartOf ai (rs n) = inl e)))).
Proof.
  induction fuel as [|fuel IH].
  - left. intros i Hi. lia.
  - destruct IH as [Hall | [n [Hn Hcase]]].
    + destruct (generateContent ai request fuel) as [e|response] eqn:Hcall.
      * right. exists fuel. split; [lia|]. split; [exact Hall|]. left. now exists e.
      * assert (rs fuel = response) as Hrs.
        { subst rs. unfold answerOf. fold request. now rewrite Hcall. }
        destruct (imagePartOf ai response) as [e|[part|]] eqn:Hpart.
        -- right. exists fuel. split; [lia|]. split; [exact Hall|]. right.
           rewrite Hrs. split; [exact Hcall|]. right. now exists e.
        -- right. exists fuel. split; [lia|]. split; [exact Hall|]. right.
           rewrite Hrs. split; [exact Hcall|]. left. now exists part.
        -- left. intros i Hi. destruct (decide (i = fuel)) as [->|Hne].
           ++ rewrite Hrs. now split.
           ++ apply Hall. lia.
    + right. exists n. split; [lia|exact Hcase].
Qed.

Lemma sentRequests_app (t u : list Event) :
  sentRequests (t ++ u) = sentRequests t ++ sentRequests u.
Proof. unfold sentRequests. apply flat_map_app. Qed.

Lemma sentRequests_retryTrace responses c attempt n :
  sentRequests (retryTrace base64ImageData mimeType prompt responses c attempt n)
  = repeat request n.
Proof.
  revert c attempt. induction n as [|n IH]; intros c attempt; [reflexivity|].
  cbn [retryTrace]. rewrite sentRequests_app, IH. reflexivity.
Qed.

End EditImageOutcomes.

(** X1: whatever the service answers, every call of a run of [editImage]
    carries the same request: the image, the MIME type and the prompt as
    given, asking for image and text; and there are no more calls than
    iterations waited for. *)
Theorem editImage_repeats_one_request
    {X : Type} (ai : Remote) (base64ImageData mimeType prompt : string)
    (fuel : nat) (x : X) :
  let run := editImage ai fuel base64ImageData mimeType prompt (start x) in
  sentRequests (trace (snd run))
  = repeat (editRequest base64ImageData mimeType prompt)
      (count isGenerateContent (trace (snd run))) /\
  count isGenerateContent (trace (snd run)) <= fuel.
Proof.
  intros run. subst run.
  destruct (editImage_cases ai base64ImageData mimeType prompt fuel)
    as [Hall | [n [Hn [Hretried [[e Hfault] | [Hcall [[part Hpart] | [e Hthrow]]]]]]]].
  - rewrite (editImage_pending ai _ _ _ _ fuel x Hall). cbn [snd trace].
    rewrite sentRequests_retryTrace, count_retryTrace. split; [reflexivity|lia].
  - rewrite (editImage_rejected ai _ _ _ _ n e fuel x Hretried Hfault Hn). cbn [snd trace].
    rewrite sentRequests_app, sentRequests_retryTrace, count_app, count_retryTrace.
    cbn. split; [|lia]. rewrite Nat.add_1_r. now rewrite <- repeat_cons.
  - destruct (imagePartOf_inlineData _ _ _ Hpart) as [inline [Hinline _]].
    rewrite (editImage_fulfilled ai _ _ _ _ n part inline fuel x Hretried Hcall Hpart Hinline Hn).
    cbn [snd trace].
    rewrite sentRequests_app, sentRequests_retryTrace, count_app, count_retryTrace.
    cbn. split; [|lia]. rewrite Nat.add_1_r. now rewrite <- repeat_cons.
  - rewrite (editImage_malformed ai _ _ _ _ n e fuel x Hretried Hcall Hthrow Hn).
    cbn [snd trace].
    rewrite sentRequests_app, sentRequests_retryTrace, count_app, count_retryTrace.
    cbn. split; [|lia]. rewrite Nat.add_1_r. now rewrite <- repeat_cons.
Qed.

(** X2: [editImage] is fulfilled only with bytes that the service sent: the
    value is the data of the first image-typed part of the first candidate
    of the last answer, every earlier answer had no such part, and no call
    faulted. *)
Theorem editImage_fulfilled_only_with_image
    {X : Type} (ai : Remote) (base64ImageData mimeType prompt : string)
    (fuel : nat) (x : X) (value : string) :
  let run := editImage ai fuel base64ImageData mimeType prompt (start x) in
  fst run = Fulfilled value ->
  exists n response part inline,
    n < fuel /\
    generateContent ai (editRequest base64ImageData mimeType prompt) n = inr response /\
    imagePartOf ai response = inr (Some part) /\
    isImagePart ai part = inr true /\
    inlineData part = Some inline /\
    value = data inline /\
    (forall i, i < n ->
       exists earlier,
         generateContent ai (editRequest base64ImageData mimeType prompt) i = inr earlier /\
         imagePartOf ai earlier = inr None) /\
    count isGenerateContent (trace (snd run)) = S n.
Proof.
  intros run. subst run.
  destruct (editImage_cases ai base64ImageData mimeType prompt fuel)
    as [Hall | [n [Hn [Hretried [[e Hfault] | [Hcall [[part Hpart] | [e Hthrow]]]]]]]].
  - rewrite (editImage_pending ai _ _ _ _ fuel x Hall). discriminate.
  - rewrite (editImage_rejected ai _ _ _ _ n e fuel x Hretried Hfault Hn). discriminate.
  - destruct (imagePartOf_inlineData _ _ _ Hpart) as [inline [Hinline Himage]].
    rewrite (editImage_fulfilled ai _ _ _ _ n part inline fuel x Hretried Hcall Hpart Hinline Hn).
    cbn [fst snd trace]. intros [= <-].
    exists n, (answerOf ai (editRequest base64ImageData mimeType prompt) n), part, inline.
    split; [exact Hn|]. split; [exact Hcall|]. split; [exact Hpart|].
    split; [exact Himage|].
    split; [exact Hinline|]. split; [reflexivity|]. split.
    + intros i Hi. eexists. exact (Hretried i Hi).
    + rewrite count_app, count_retryTrace. cbn. lia.
  - rewrite (editImage_malformed ai _ _ _ _ n e fuel x Hretried Hcall Hthrow Hn). discriminate.
Qed.

Lemma editImage_fulfilled_only_with_image_witness :
  exists n response part inline,
    n < 2 /\
    generateContent textThenImage (editRequest "SU1H" "image/png" "add a hat") n = inr response /\
    imagePartOf textThenImage response = inr (Some part) /\
    isImagePart textThenImage part = inr true /\
    inlineData part = Some inline /\
    "AAAA" = data inline /\
    (forall i, i < n ->
       exists earlier,
         generateContent textThenImage (editRequest "SU1H" "image/png" "add a hat") i
           = inr earlier /\
         imagePartOf textThenImage earlier = inr None) /\
    count isGenerateContent
      (trace (snd (editImage textThenImage 2 "SU1H" "image/png" "add a hat" (start tt))))
    = S n.
Proof.
  apply (editImage_fulfilled_only_with_image textThenImage "SU1H" "image/png" "add a hat"
           2 tt "AAAA").
  reflexivity.
Defined.

(** X3: [editImage] is rejected only when something is thrown inside its
    loop, and that is either a fault of a call of the service, or the
    [TypeError] of the success check on an answer whose first candidate
    holds inline data without MIME type before any image-typed part.  The
    reason is the one translated [Error] of what was thrown, every earlier
    answer was searched in vain, and the call concerned is the last one. *)
Theorem editImage_rejected_only_by_throw
    {X : Type} (ai : Remote) (base64ImageData mimeType prompt : string)
    (fuel : nat) (x : X) (reason : Thrown) :
  let run := editImage ai fuel base64ImageData mimeType prompt (start x) in
  fst run = Rejected reason ->
  exists n e,
    n < fuel /\
    (generateContent ai (editRequest base64ImageData mimeType prompt) n = inl e \/
     exists response before part after,
       generateContent ai (editRequest base64ImageData mimeType prompt) n = inr response /\
       firstParts response = before ++ part :: after /\
       existsb imageTyped before = false /\
       existsb untypedInline before = false /\
       untypedInline part = true /\
       e = typeError ai "startsWith") /\
    reason = Error (editFailure e) /\
    (forall i, i < n ->
       exists earlier,
         generateContent ai (editRequest base64ImageData mimeType prompt) i = inr earlier /\
         imagePartOf ai earlier = inr None) /\
    count isGenerateContent (trace (snd run)) = S n /\
    timeouts (trace (snd run)) = repeat RETRY_DELAY n.
Proof.
  intros run. subst run.
  destruct (editImage_cases ai base64ImageData mimeType prompt fuel)
    as [Hall | [n [Hn [Hretried [[e Hfault] | [Hcall [[part Hpart] | [e Hthrow]]]]]]]].
  - rewrite (editImage_pending ai _ _ _ _ fuel x Hall). discriminate.
  - rewrite (editImage_rejected ai _ _ _ _ n e fuel x Hretried Hfault Hn).
    cbn [fst snd trace]. intros [= <-]. exists n, e.
    split; [exact Hn|]. split; [now left|]. split; [reflexivity|]. split; [|split].
    + intros i Hi. eexists. exact (Hretried i Hi).
    + rewrite count_app, count_retryTrace. cbn. lia.
    + rewrite timeouts_app, timeouts_retryTrace. cbn. apply app_nil_r.
  - destruct (imagePartOf_inlineData _ _ _ Hpart) as [inline [Hinline _]].
    rewrite (editImage_fulfilled ai _ _ _ _ n part inline fuel x Hretried Hcall Hpart Hinline Hn).
    discriminate.
  - rewrite (editImage_malformed ai _ _ _ _ n e fuel x Hretried Hcall Hthrow Hn).
    cbn [fst snd trace]. intros [= <-]. exists n, e.
    split; [exact Hn|]. split; [|split; [reflexivity|split; [|split]]].
    + right. rewrite imagePartOf_firstParts in Hthrow.
      pose proof (findImagePart_outcome ai
                    (firstParts (answerOf ai (editRequest base64ImageData mimeType prompt) n)))
        as Hout.
      rewrite Hthrow in Hout.
      destruct Hout as [He (before & part & after & Hps & Hb & Hu & Hp)].
      now exists (answerOf ai (editRequest base64ImageData mimeType prompt) n),
        before, part, after.
    + intros i Hi. eexists. exact (Hretried i Hi).
    + rewrite count_app, count_retryTrace. cbn. lia.
    + rewrite timeouts_app, timeouts_retryTrace. cbn. apply app_nil_r.
Qed.

Lemma editImage_rejected_only_by_throw_witness :
  exists n e,
    n < 3 /\
    (generateContent (alwaysAnswering (untypedBeforeImage "QUFB" "AAAA"))
       (editRequest "SU1H" "image/png" "add a hat") n = inl e \/
     exists response before part after,
       generateContent (alwaysAnswering (untypedBeforeImage "QUFB" "AAAA"))
         (editRequest "SU1H" "image/png" "add a hat") n = inr response /\
       firstParts response = before ++ part :: after /\
       existsb imageTyped before = false /\
       existsb untypedInline before = false /\
       untypedInline part = true /\
       e = typeError (alwaysAnswering (untypedBeforeImage "QUFB" "AAAA")) "startsWith") /\
    Error "編輯圖片失敗： Cannot read properties of undefined (reading 'startsWith')"
    = Error (editFailure e) /\
    (forall i, i < n ->
       exists earlier,
         generateContent (alwaysAnswering (untypedBeforeImage "QUFB" "AAAA"))
           (editRequest "SU1H" "image/png" "add a hat") i = inr earlier /\
         imagePartOf (alwaysAnswering (untypedBeforeImage "QUFB" "AAAA")) earlier
         = inr None) /\
    count isGenerateContent
      (trace (snd (editImage (alwaysAnswering (untypedBeforeImage "QUFB" "AAAA")) 3
                     "SU1H" "image/png" "add a hat" (start tt))))
    = S n /\
    timeouts
      (trace (snd (editImage (alwaysAnswering (untypedBeforeImage "QUFB" "AAAA")) 3
                     "SU1H" "image/png" "add a hat" (start tt))))
    = repeat RETRY_DELAY n.
Proof.
  apply (editImage_rejected_only_by_throw (alwaysAnswering (untypedBeforeImage "QUFB" "AAAA"))
           "SU1H" "image/png" "add a hat" 3 tt
           (Error "編輯圖片失敗： Cannot read properties of undefined (reading 'startsWith')")).
  reflexivity.
Defined.

(** ** Every outcome of [generateVideo] *)

Section GenerateVideoOutcomes.
Context {X : Type}.
Variable ai : Remote.
Variable onProgress : string -> X -> X.
Variable prompt : string.
Variables base64ImageData mimeType : option string.

Let request := videoRequest prompt base64ImageData mimeType.

(** The first [n] polls are answered, to handles that are not done. *)
Let polling (ops : nat -> Operation) (n : nat) : Prop :=
  forall i, i < n ->
    isDone (ops i) = false /\ getVideosOperation ai (ops i) i = inr (ops (S i)).

(** Submission and [n] polls, then a poll that faults. *)
Lemma generateVideo_reaches_fault {A} ops n e fuel (x : X)
    (rest : Operation -> Async X A) handler :
  generateVideos ai request 0 = inr (ops 0) ->
  polling ops n ->
  isDone (ops n) = false ->
  getVideosOperation ai (ops n) n = inl e ->
  n < fuel ->
  tryCatch
    (notify (returning onProgress) "正在初始化影片生成...";;
     operation ← ai_models_generateVideos ai request;
     operation ← generateVideo_loop ai fuel (returning onProgress) operation 0;
     rest operation)
    handler (start x)
  = handler e
      {| trace := trace (polledWorld onProgress prompt base64ImageData mimeType ops n x)
                  ++ pollEvents n (ops n);
         caller := onProgress (messageAt n)
                     (caller (polledWorld onProgress prompt base64ImageData mimeType ops n x)) |}.
Proof.
  intros Hsubmit Hops Hdone Hpoll Hfuel.
  unfold tryCatch at 1. unfold mbind at 1 2, Async_bind, notify. sink_returns.
  unfold mbind at 1, Async_bind, emit, update, ai_models_generateVideos, perform.
  cbn [start trace caller app]. change (count isGenerateVideos [_]) with 0.
  fold request. rewrite Hsubmit.
  unfold mbind at 1, Async_bind.
  set (w1 := {| trace := [_; _]; caller := _ |}).
  assert (count isGetVideosOperation (trace w1) = 0) as Hcount by reflexivity.
  replace fuel with (n + S (fuel - S n)) by lia.
  pose proof (generateVideo_loop_polls ai onProgress ops n (S (fuel - S n)) 0 w1) as Hloop.
  rewrite Hcount in Hloop. cbn [Nat.add] in Hloop. rewrite Hloop by exact Hops.
  cbn [generateVideo_loop]. rewrite Hdone.
  unfold mbind at 1 2 3, Async_bind, notify. sink_returns. unfold sleep.
  unfold mbind at 1, Async_bind, emit, update. cbn [trace caller].
  unfold ai_operations_getVideosOperation, perform. cbn [trace caller].
  rewrite !count_app, count_pollTrace. subst w1. cbn [trace caller].
  change (count isGetVideosOperation [_; _]) with 0.
  change (count isGetVideosOperation [EvProgress _]) with 0.
  change (count isGetVideosOperation [EvTimeout _]) with 0.
  replace (0 + n + 0 + 0) with n by lia. rewrite Hpoll.
  unfold polledWorld, pollEvents. cbn [trace caller deliver fold_left].
  rewrite <- !app_assoc. reflexivity.
Qed.

(** Submission and [fuel] polls, the last handle not being done. *)
Lemma generateVideo_reaches_pending {A} ops fuel (x : X)
    (rest : Operation -> Async X A) handler :
  generateVideos ai request 0 = inr (ops 0) ->
  polling ops fuel ->
  isDone (ops fuel) = false ->
  tryCatch
    (notify (returning onProgress) "正在初始化影片生成...";;
     operation ← ai_models_generateVideos ai request;
     operation ← generateVideo_loop ai fuel (returning onProgress) operation 0;
     rest operation)
    handler (start x)
  = (Pending, polledWorld onProgress prompt base64ImageData mimeType ops fuel x).
Proof.
  intros Hsubmit Hops Hdone.
  unfold tryCatch at 1. unfold mbind at 1 2, Async_bind, notify. sink_returns.
  unfold mbind at 1, Async_bind, emit, update, ai_models_generateVideos, perform.
  cbn [start trace caller app]. change (count isGenerateVideos [_]) with 0.
  fold request. rewrite Hsubmit.
  unfold mbind at 1, Async_bind.
  set (w1 := {| trace := [_; _]; caller := _ |}).
  assert (count isGetVideosOperation (trace w1) = 0) as Hcount by reflexivity.
  replace fuel with (fuel + 0) at 1 by lia.
  pose proof (generateVideo_loop_polls ai onProgress ops fuel 0 0 w1) as Hloop.
  rewrite Hcount in Hloop. cbn [Nat.add] in Hloop. rewrite Hloop by exact Hops.
  cbn [generateVideo_loop]. rewrite Hdone.
  unfold polledWorld, pending. subst w1. cbn [trace caller deliver fold_left].
  reflexivity.
Qed.

(** A submission that faults. *)
Lemma generateVideo_submission_faults {A} e fuel (x : X)
    (rest : Operation -> Async X A) handler :
  generateVideos ai request 0 = inl e ->
  tryCatch
    (notify (returning onProgress) "正在初始化影片生成...";;
     operation ← ai_models_generateVideos ai request;
     operation ← generateVideo_loop ai fuel (returning onProgress) operation 0;
     rest operation)
    handler (start x)
  = handler e
      {| trace := [ EvProgress "正在初始化影片生成..."; EvGenerateVideos request ];
         caller := onProgress "正在初始化影片生成..." x |}.
Proof.
  intros Hsubmit.
  unfold tryCatch at 1. unfold mbind at 1 2, Async_bind, notify. sink_returns.
  unfold mbind at 1, Async_bind, emit, update, ai_models_generateVideos, perform.
  cbn [start trace caller app]. change (count isGenerateVideos [_]) with 0.
  fold request. now rewrite Hsubmit.
Qed.

(** What the script decides within [fuel] polls: the submission faults; or
    the polls go on; or a first handle is done; or a first poll faults. *)
Lemma generateVideo_cases fuel :
  let ops := handleAt ai request in
  (exists e, generateVideos ai request 0 = inl e) \/
  (generateVideos ai request 0 = inr (ops 0) /\
   ((polling ops fuel /\ isDone (ops fuel) = false) \/
    (exists n, n <= fuel /\ polling ops n /\ isDone (ops n) = true) \/
    (exists n e, n < fuel /\ polling ops n /\ isDone (ops n) = false /\
                 getVideosOperation ai (ops n) n = inl e))).
Proof.
  intros ops.
  destruct (generateVideos ai request 0) as [e|op0] eqn:Hsubmit; [left; now exists e|].
  right. split.
  { subst ops. cbn [handleAt]. now rewrite Hsubmit. }
  induction fuel as [|fuel IH].
  - destruct (isDone (ops 0)) eqn:Hdone.
    + right. left. exists 0. split; [lia|].
      split; [|first [exact Hdone | reflexivity]]. intros i Hi. lia.
    + left. split; [|first [exact Hdone | reflexivity]]. intros i Hi. lia.
  - destruct IH as [[Hpolling Hdone] | [[n [Hn Hcase]] | [n [e [Hn Hcase]]]]].
    + destruct (getVideosOperation ai (ops fuel) fuel) as [e|next] eqn:Hpoll.
      * right. right. exists fuel, e. split; [lia|]. split; [exact Hpolling|].
        split; [exact Hdone | first [exact Hpoll | reflexivity]].
      * assert (ops (S fuel) = next) as Hnext.
        { subst ops. cbn [handleAt]. now rewrite Hpoll. }
        assert (polling ops (S fuel)) as Hmore.
        { intros i Hi. destruct (decide (i = fuel)) as [->|Hne].
          - rewrite Hnext. now split.
          - apply Hpolling. lia. }
        destruct (isDone (ops (S fuel))) eqn:Hdone'.
        -- right. left. exists (S fuel). split; [lia|].
           split; [exact Hmore | first [exact Hdone' | reflexivity]].
        -- left. split; [exact Hmore | first [exact Hdone' | reflexivity]].
    + right. left. exists n. split; [lia|exact Hcase].
    + right. right. exists n, e. split; [lia|exact Hcase].
Qed.

End GenerateVideoOutcomes.

Section GenerateVideoRuns.
Context {X : Type}.
Variable ai : Remote.
Variable onProgress : string -> X -> X.
Variable prompt : string.
Variables base64ImageData mimeType : option string.

Let request := videoRequest prompt base64ImageData mimeType.

(** The statements after the loop, under the handler, from any world. *)
Lemma generateVideo_retrieval operation (w : World X) :
  tryCatch
    (match downloadLinkOf operation with
     | Some downloadLink =>
         if Js.truthy downloadLink
         then
           notify (returning onProgress) "正在獲取影片...";;
           (let videoUrl := downloadLink +:+ "&key=" +:+ Js.interpolate (API_KEY ai) in
            response ← window_fetch ai videoUrl;
            (if ok response
             then videoBlob ← settle (blob response); URL_createObjectURL ai videoBlob
             else throw (Error ("無法下載影片： " +:+ statusText response))))
         else throw (Error "影片生成失敗，未收到下載連結。")
     | None => throw (Error "影片生成失敗，未收到下載連結。")
     end)
    (fun error =>
       console_error "調用 Gemini API 進行影片生成時出錯:" error;;
       match error with
       | Error message => throw (Error ("影片生成失敗： " +:+ message))
       | NonError => throw (Error "生成影片時發生未知的錯誤。")
       end) w
  = retrievalRun ai onProgress operation w.
Proof.
  unfold retrievalRun, failedVideoRun, videoUrlOf, tryCatch.
  destruct (downloadLinkOf operation) as [downloadLink|]; [|reflexivity].
  destruct (Js.truthy downloadLink); [|reflexivity].
  unfold mbind at 1 2, Async_bind, notify. sink_returns.
  unfold mbind at 1, Async_bind, emit, update, window_fetch, perform.
  cbn [trace caller]. rewrite count_app.
  change (count isFetch [EvProgress "正在獲取影片..."]) with 0. rewrite Nat.add_0_r.
  destruct (fetch ai _ _) as [e|response].
  - unfold mbind, Async_bind, console_error, emit, throw.
    destruct e; cbn [trace caller videoFailure]; now rewrite <- !app_assoc.
  - destruct (ok response).
    + unfold mbind at 1, Async_bind, settle. destruct (blob response) as [e|videoBlob].
      * unfold mbind, Async_bind, console_error, emit, throw.
        destruct e; cbn [trace caller videoFailure]; now rewrite <- !app_assoc.
      * unfold URL_createObjectURL, mbind, Async_bind, emit, mret, Async_ret.
        cbn [trace caller]. now rewrite <- !app_assoc.
    + unfold mbind, Async_bind, console_error, emit, throw.
      cbn [trace caller videoFailure]. now rewrite <- !app_assoc.
Qed.

(** A run whose polls end with a done handle. *)
Lemma generateVideo_done_run ops n fuel (x : X) :
  generateVideos ai request 0 = inr (ops 0) ->
  (forall i, i < n ->
     isDone (ops i) = false /\ getVideosOperation ai (ops i) i = inr (ops (S i))) ->
  isDone (ops n) = true ->
  n <= fuel ->
  generateVideo ai fuel prompt base64ImageData mimeType (returning onProgress) (start x)
  = retrievalRun ai onProgress (ops n)
      (polledWorld onProgress prompt base64ImageData mimeType ops n x).
Proof.
  intros Hsubmit Hops Hdone Hfuel. unfold generateVideo.
  rewrite (generateVideo_reaches_done ai onProgress prompt base64ImageData mimeType
             ops n fuel x) by assumption.
  apply generateVideo_retrieval.
Qed.

(** A run one of whose polls faults. *)
Lemma generateVideo_poll_fault_run ops n e fuel (x : X) :
  generateVideos ai request 0 = inr (ops 0) ->
  (forall i, i < n ->
     isDone (ops i) = false /\ getVideosOperation ai (ops i) i = inr (ops (S i))) ->
  isDone (ops n) = false ->
  getVideosOperation ai (ops n) n = inl e ->
  n < fuel ->
  generateVideo ai fuel prompt base64ImageData mimeType (returning onProgress) (start x)
  = failedVideoRun
      {| trace := trace (polledWorld onProgress prompt base64ImageData mimeType ops n x)
                  ++ pollEvents n (ops n);
         caller := onProgress (messageAt n)
                     (caller (polledWorld onProgress prompt base64ImageData mimeType ops n x)) |}
      e.
Proof.
  intros Hsubmit Hops Hdone Hpoll Hfuel. unfold generateVideo.
  rewrite (generateVideo_reaches_fault ai onProgress prompt base64ImageData mimeType
             ops n e fuel x) by assumption.
  unfold failedVideoRun, mbind, Async_bind, console_error, emit, throw.
  now destruct e.
Qed.

(** A run whose submission faults. *)
Lemma generateVideo_submission_fault_run e fuel (x : X) :
  generateVideos ai request 0 = inl e ->
  generateVideo ai fuel prompt base64ImageData mimeType (returning onProgress) (start x)
  = failedVideoRun
      {| trace := [ EvProgress "正在初始化影片生成..."; EvGenerateVideos request ];
         caller := onProgress "正在初始化影片生成..." x |}
      e.
Proof.
  intros Hsubmit. unfold generateVideo.
  rewrite (generateVideo_submission_faults ai onProgress prompt base64ImageData mimeType
             e fuel x) by assumption.
  unfold failedVideoRun, mbind, Async_bind, console_error, emit, throw.
  now destruct e.
Qed.

(** A run whose polls go on. *)
Lemma generateVideo_pending_run ops fuel (x : X) :
  generateVideos ai request 0 = inr (ops 0) ->
  (forall i, i < fuel ->
     isDone (ops i) = false /\ getVideosOperation ai (ops i) i = inr (ops (S i))) ->
  isDone (ops fuel) = false ->
  generateVideo ai fuel prompt base64ImageData mimeType (returning onProgress) (start x)
  = (Pending, polledWorld onProgress prompt base64ImageData mimeType ops fuel x).
Proof.
  intros Hsubmit Hops Hdone. unfold generateVideo.
  now rewrite (generateVideo_reaches_pending ai onProgress prompt base64ImageData mimeType
                 ops fuel x).
Qed.

End GenerateVideoRuns.

(** ** Further properties of [generateVideo] *)

Ltac count_video_trace :=
  unfold polledWorld, failedVideoRun, pollEvents;
  cbn [fst snd trace caller];
  rewrite ?count_app, ?timeouts_app, ?progressMessages_app, ?polled_app,
    ?count_pollTrace, ?timeouts_pollTrace, ?progressMessages_pollTrace, ?polled_pollTrace,
    ?(count_other_pollTrace isFetch), ?(count_other_pollTrace isGenerateVideos) by reflexivity;
  cbn.

(** X4: a fault of the submission or of a poll ends [generateVideo] at once.
    After a faulting submission there is no poll and no wait; after a fault
    of poll [n + 1] there is no further poll; in both cases nothing is
    retrieved and the promise is rejected with the translated error of that
    fault. *)
Theorem generateVideo_fault_is_final
    {X : Type} (ai : Remote) (prompt : string) (base64ImageData mimeType : option string)
    (onProgress : string -> X -> X) (fuel : nat) (x : X) (e : Thrown) :
  let run := generateVideo ai fuel prompt base64ImageData mimeType
      (returning onProgress) (start x) in
  (generateVideos ai (videoRequest prompt base64ImageData mimeType) 0 = inl e ->
   fst run = Rejected (Error (videoFailure e)) /\
   count isGetVideosOperation (trace (snd run)) = 0 /\
   timeouts (trace (snd run)) = [] /\
   count isFetch (trace (snd run)) = 0) /\
  (forall ops n,
     generateVideos ai (videoRequest prompt base64ImageData mimeType) 0 = inr (ops 0) ->
     (forall i, i < n ->
        isDone (ops i) = false /\ getVideosOperation ai (ops i) i = inr (ops (S i))) ->
     isDone (ops n) = false ->
     getVideosOperation ai (ops n) n = inl e ->
     n < fuel ->
     fst run = Rejected (Error (videoFailure e)) /\
     count isGetVideosOperation (trace (snd run)) = S n /\
     polled (trace (snd run)) = map ops (seq 0 (S n)) /\
     count isFetch (trace (snd run)) = 0).
Proof.
  intros run. subst run. split.
  - intros Hsubmit. rewrite (generateVideo_submission_fault_run ai onProgress _ _ _ e fuel x Hsubmit).
    repeat split.
  - intros ops n Hsubmit Hops Hdone Hpoll Hfuel.
    rewrite (generateVideo_poll_fault_run ai onProgress _ _ _ ops n e fuel x
               Hsubmit Hops Hdone Hpoll Hfuel).
    count_video_trace. split; [reflexivity|]. split; [lia|]. split; [|lia].
    rewrite app_nil_r. change (ops 0 :: map ops (seq 1 n)) with (map ops (seq 0 (S n))).
    rewrite seq_S, map_app. reflexivity.
Qed.

Lemma generateVideo_fault_is_final_witness :
  let run := generateVideo pollFaults 4 "a cat running" None None (returning record) (start []) in
  fst run = Rejected (Error "影片生成失敗： 503 Service Unavailable") /\
  count isGetVideosOperation (trace (snd run)) = 1 /\
  polled (trace (snd run)) = [running "job-0"] /\
  count isFetch (trace (snd run)) = 0.
Proof.
  destruct (generateVideo_fault_is_final pollFaults "a cat running" None None record 4 []
              (Error "503 Service Unavailable")) as [_ Hpoll].
  apply (Hpoll (fun _ => running "job-0") 0).
  - reflexivity.
  - intros i Hi. lia.
  - reflexivity.
  - reflexivity.
  - lia.
Defined.

(** X5: once a handle is done and carries a non-empty locator, the outcome of
    [generateVideo] is that of the one retrieval of the locator with
    [&key=] and the key appended: the object URL of the body when the
    answer is [ok] and its body can be read, otherwise the translated error
    of the fetch fault, of the status text, or of the unreadable body. *)
Theorem generateVideo_retrieval_outcome
    {X : Type} (ai : Remote) (prompt : string) (base64ImageData mimeType : option string)
    (onProgress : string -> X -> X) (ops : nat -> Operation) (n fuel : nat) (x : X)
    (link : string) :
  generateVideos ai (videoRequest prompt base64ImageData mimeType) 0 = inr (ops 0) ->
  (forall i, i < n ->
     isDone (ops i) = false /\ getVideosOperation ai (ops i) i = inr (ops (S i))) ->
  isDone (ops n) = true ->
  downloadLinkOf (ops n) = Some link ->
  link <> "" ->
  n <= fuel ->
  let run := generateVideo ai fuel prompt base64ImageData mimeType
      (returning onProgress) (start x) in
  fst run
  = match fetch ai (link +:+ "&key=" +:+ Js.interpolate (API_KEY ai)) 0 with
    | inl e => Rejected (Error (videoFailure e))
    | inr response =>
        if ok response then
          match blob response with
          | inr videoBlob => Fulfilled (createObjectURL ai videoBlob)
          | inl e => Rejected (Error (videoFailure e))
          end
        else Rejected (Error ("影片生成失敗： 無法下載影片： " +:+ statusText response))
    end /\
  count isFetch (trace (snd run)) = 1 /\
  count isGetVideosOperation (trace (snd run)) = n.
Proof.
  intros Hsubmit Hops Hdone Hlink Hne Hfuel run. subst run.
  rewrite (generateVideo_done_run ai onProgress _ _ _ ops n fuel x Hsubmit Hops Hdone Hfuel).
  unfold retrievalRun. rewrite Hlink.
  assert (Js.truthy link = true) as -> by now apply truthy_true.
  assert (count isFetch
            (trace (polledWorld onProgress prompt base64ImageData mimeType ops n x)) = 0)
    as ->.
  { unfold polledWorld. cbn [trace]. rewrite count_app.
    now rewrite (count_other_pollTrace isFetch). }
  unfold videoUrlOf.
  destruct (fetch ai _ 0) as [e|response].
  - count_video_trace. repeat split; lia.
  - destruct (ok response).
    + destruct (blob response) as [e|videoBlob]; count_video_trace; repeat split; lia.
    + count_video_trace. repeat split; lia.
Qed.

Lemma generateVideo_retrieval_outcome_witness :
  let run := generateVideo retrievalRefused 3 "a cat running" None None
      (returning record) (start []) in
  fst run = Rejected (Error "影片生成失敗： 無法下載影片： Forbidden") /\
  count isFetch (trace (snd run)) = 1 /\
  count isGetVideosOperation (trace (snd run)) = 1.
Proof.
  apply (generateVideo_retrieval_outcome retrievalRefused "a cat running" None None record
           (fun i => match i with
                     | 0 => running "job-0"
                     | _ => finished "job-1" (Some "https://videos.example/v1?alt=media")
                     end)
           1 3 [] "https://videos.example/v1?alt=media").
  - reflexivity.
  - intros i Hi. assert (i = 0) as -> by lia. split; reflexivity.
  - reflexivity.
  - reflexivity.
  - discriminate.
  - lia.
Defined.

(** X6: [generateVideo] is fulfilled only with the object URL of a retrieved
    body: some handle was done and carried a non-empty locator, every handle
    before it was polled, the one fetch of the locator was answered [ok],
    and the value is the object URL of the body of that answer. *)
Theorem generateVideo_fulfilled_only_after_retrieval
    {X : Type} (ai : Remote) (prompt : string) (base64ImageData mimeType : option string)
    (onProgress : string -> X -> X) (fuel : nat) (x : X) (value : string) :
  let run := generateVideo ai fuel prompt base64ImageData mimeType
      (returning onProgress) (start x) in
  let ops := handleAt ai (videoRequest prompt base64ImageData mimeType) in
  fst run = Fulfilled value ->
  exists n link response videoBlob,
    n <= fuel /\
    generateVideos ai (videoRequest prompt base64ImageData mimeType) 0 = inr (ops 0) /\
    (forall i, i < n ->
       isDone (ops i) = false /\ getVideosOperation ai (ops i) i = inr (ops (S i))) /\
    isDone (ops n) = true /\
    downloadLinkOf (ops n) = Some link /\ link <> "" /\
    fetch ai (link +:+ "&key=" +:+ Js.interpolate (API_KEY ai)) 0 = inr response /\
    ok response = true /\
    blob response = inr videoBlob /\
    value = createObjectURL ai videoBlob /\
    count isGetVideosOperation (trace (snd run)) = n /\
    count isFetch (trace (snd run)) = 1.
Proof.
  intros run ops. subst run.
  destruct (generateVideo_cases ai prompt base64ImageData mimeType fuel)
    as [[e Hsubmit] | [Hsubmit [[Hpolling Hdone] | [[n [Hn [Hpolling Hdone]]]
                                                   | [n [e [Hn [Hpolling [Hdone Hpoll]]]]]]]]];
    fold ops in Hsubmit; try fold ops in Hpolling; try fold ops in Hdone; try fold ops in Hpoll.
  - rewrite (generateVideo_submission_fault_run ai onProgress _ _ _ e fuel x Hsubmit).
    discriminate.
  - rewrite (generateVideo_pending_run ai onProgress _ _ _ ops fuel x Hsubmit Hpolling Hdone).
    discriminate.
  - rewrite (generateVideo_done_run ai onProgress _ _ _ ops n fuel x Hsubmit Hpolling Hdone Hn).
    unfold retrievalRun.
    assert (count isFetch
              (trace (polledWorld onProgress prompt base64ImageData mimeType ops n x)) = 0)
      as ->.
    { unfold polledWorld. cbn [trace]. rewrite count_app.
      now rewrite (count_other_pollTrace isFetch). }
    destruct (downloadLinkOf (ops n)) as [link|] eqn:Hlink; [|discriminate].
    destruct (Js.truthy link) eqn:Htruthy; [|discriminate].
    unfold videoUrlOf.
    destruct (fetch ai _ 0) as [e|response] eqn:Hfetch; [discriminate|].
    destruct (ok response) eqn:Hok; [|discriminate].
    destruct (blob response) as [e|videoBlob] eqn:Hblob; [discriminate|].
    cbn [fst]. intros [= <-].
    exists n, link, response, videoBlob.
    split; [exact Hn|]. split; [exact Hsubmit|]. split; [exact Hpolling|].
    split; [exact Hdone|]. split; [exact Hlink|]. split; [now apply truthy_true|].
    split; [exact Hfetch|]. split; [exact Hok|]. split; [exact Hblob|].
    split; [reflexivity|]. count_video_trace. split; lia.
  - rewrite (generateVideo_poll_fault_run ai onProgress _ _ _ ops n e fuel x
               Hsubmit Hpolling Hdone Hpoll Hn).
    discriminate.
Qed.

Lemma generateVideo_fulfilled_only_after_retrieval_witness :
  exists n link response videoBlob,
    n <= 2 /\
    generateVideos twoPolls (videoRequest "a cat running" None None) 0
      = inr (handleAt twoPolls (videoRequest "a cat running" None None) 0) /\
    (forall i, i < n ->
       isDone (handleAt twoPolls (videoRequest "a cat running" None None) i) = false /\
       getVideosOperation twoPolls
         (handleAt twoPolls (videoRequest "a cat running" None None) i) i
       = inr (handleAt twoPolls (videoRequest "a cat running" None None) (S i))) /\
    isDone (handleAt twoPolls (videoRequest "a cat running" None None) n) = true /\
    downloadLinkOf (handleAt twoPolls (videoRequest "a cat running" None None) n)
      = Some link /\ link <> "" /\
    fetch twoPolls (link +:+ "&key=" +:+ Js.interpolate (API_KEY twoPolls)) 0 = inr response /\
    ok response = true /\
    blob response = inr videoBlob /\
    "blob:VIDEO" = createObjectURL twoPolls videoBlob /\
    count isGetVideosOperation
      (trace (snd (generateVideo twoPolls 2 "a cat running" None None
          (returning record) (start []))))
    = n /\
    count isFetch
      (trace (snd (generateVideo twoPolls 2 "a cat running" None None
          (returning record) (start []))))
    = 1.
Proof.
  apply (generateVideo_fulfilled_only_after_retrieval twoPolls "a cat running" None None
           record 2 [] "blob:VIDEO").
  reflexivity.
Defined.

(** X7: the shape of every run of [generateVideo], whatever the service
    does: exactly one submission, at most one retrieval, at most as many
    polls as iterations waited for, one wait of [POLLING_INTERVAL] for each
    poll, and as progress messages the initial one, then the rotating list
    read in order from index 0, one entry for each poll, then the message of
    the retrieval if there is one.  A promise that is still pending has used
    up the iterations. *)
Theorem generateVideo_run_shape
    {X : Type} (ai : Remote) (prompt : string) (base64ImageData mimeType : option string)
    (onProgress : string -> X -> X) (fuel : nat) (x : X) :
  let run := generateVideo ai fuel prompt base64ImageData mimeType
      (returning onProgress) (start x) in
  let polls := count isGetVideosOperation (trace (snd run)) in
  let fetches := count isFetch (trace (snd run)) in
  count isGenerateVideos (trace (snd run)) = 1 /\
  fetches <= 1 /\
  polls <= fuel /\
  timeouts (trace (snd run)) = repeat POLLING_INTERVAL polls /\
  progressMessages (trace (snd run))
  = "正在初始化影片生成..." :: map messageAt (seq 0 polls) ++ repeat "正在獲取影片..." fetches /\
  (fst run = Pending -> polls = fuel).
Proof.
  intros run polls fetches. subst polls fetches run.
  set (ops := handleAt ai (videoRequest prompt base64ImageData mimeType)).
  destruct (generateVideo_cases ai prompt base64ImageData mimeType fuel)
    as [[e Hsubmit] | [Hsubmit [[Hpolling Hdone] | [[n [Hn [Hpolling Hdone]]]
                                                   | [n [e [Hn [Hpolling [Hdone Hpoll]]]]]]]]];
    fold ops in Hsubmit; try fold ops in Hpolling; try fold ops in Hdone; try fold ops in Hpoll.
  - rewrite (generateVideo_submission_fault_run ai onProgress _ _ _ e fuel x Hsubmit).
    cbn. repeat split; try lia. discriminate.
  - rewrite (generateVideo_pending_run ai onProgress _ _ _ ops fuel x Hsubmit Hpolling Hdone).
    count_video_trace. rewrite !app_nil_r. repeat split; lia.
  - rewrite (generateVideo_done_run ai onProgress _ _ _ ops n fuel x Hsubmit Hpolling Hdone Hn).
    unfold retrievalRun.
    destruct (downloadLinkOf (ops n)) as [link|];
      [destruct (Js.truthy link);
       [destruct (fetch ai _ _) as [e|response];
        [|destruct (ok response); [destruct (blob response) as [e|videoBlob]|]]|]|].
    all: count_video_trace; rewrite ?app_nil_r, ?Nat.add_0_r.
    all: repeat split; try lia; try discriminate.
    all: try (rewrite Nat.add_1_r || replace (n + 0 + 1 + 0) with (S n) by lia).
    all: try reflexivity.
  - rewrite (generateVideo_poll_fault_run ai onProgress _ _ _ ops n e fuel x
               Hsubmit Hpolling Hdone Hpoll Hn).
    unfold failedVideoRun, polledWorld, pollEvents. set (mn := messageAt n).
    cbn [fst snd trace caller].
    rewrite ?count_app, ?timeouts_app, ?progressMessages_app,
      ?count_pollTrace, ?timeouts_pollTrace, ?progressMessages_pollTrace,
      ?(count_other_pollTrace isFetch), ?(count_other_pollTrace isGenerateVideos)
      by reflexivity.
    cbn. rewrite ?app_nil_r, ?Nat.add_0_r, !Nat.add_1_r.
    repeat split; try lia; try discriminate.
    + cbn [repeat]. now rewrite repeat_cons.
    + rewrite seq_S, map_app. reflexivity.
Qed.

(** ** The prompts that reach the service *)

Lemma sentPrompts_app (t u : list Event) : sentPrompts (t ++ u) = sentPrompts t ++ sentPrompts u.
Proof. unfold sentPrompts. apply flat_map_app. Qed.

Lemma trim_defaultPrompt : Js.trim defaultPrompt <> "".
Proof. vm_compute. discriminate. Qed.

(** The prompt that [outpaintImage] hands on is never blank. *)
Lemma finalPromptOf_notBlank prompt : Js.trim (finalPromptOf prompt) <> "".
Proof.
  destruct prompt as [p|]; [|exact trim_defaultPrompt].
  destruct (decide (Js.trim p = "")) as [Hblank|Hgiven].
  - rewrite (finalPromptOf_blank _ Hblank). exact trim_defaultPrompt.
  - now rewrite (finalPromptOf_given _ Hgiven).
Qed.

(** Computations that send none but prompts of a kind [P]. *)
Section SentPrompts.
Context {X : Type}.
Variable ai : Remote.
Variable P : option string -> Prop.

Let sound (w : World X) : Prop := Forall P (sentPrompts (trace w)).

Lemma sound_emit e :
  (forall params, e <> EvGenerateContent params) -> preserves sound (emit e).
Proof.
  intros He w Hw. unfold sound in *. cbn [emit snd trace].
  rewrite sentPrompts_app. apply Forall_app. split; [exact Hw|].
  destruct e; try (cbn; constructor). now destruct (He params).
Qed.

Lemma sound_perform {A} e (answer : Thrown + A) :
  (forall params, e <> EvGenerateContent params) -> preserves sound (perform e answer).
Proof.
  intros He w Hw. pose proof (sound_emit e He w Hw) as Hemit.
  unfold perform. now destruct answer.
Qed.

Lemma sound_editImage fuel b m p :
  P (Some p) -> preserves sound (editImage (X := X) ai fuel b m p).
Proof.
  intros Hp.
  assert (forall k attempt, preserves sound (editImage_loop (X := X) ai k b m p attempt))
    as Hloop.
  { induction k as [|k IH]; intros attempt; [apply preserves_pending|].
    simpl. apply preserves_bind.
    - intros w Hw. unfold ai_models_generateContent, perform, sound in *.
      assert (Forall P (sentPrompts (trace w ++ [EvGenerateContent (editRequest b m p)])))
        as Hnext.
      { rewrite sentPrompts_app. apply Forall_app. split; [exact Hw|].
        cbn. now repeat constructor. }
      now destruct (generateContent ai _ _).
    - intros response. apply preserves_bind; [apply preserves_evaluate|]. intros imagePart.
      destruct (imagePart ≫= inlineData); [apply preserves_ret|].
      apply preserves_bind; [now apply sound_emit|]. intros _.
      apply preserves_bind; [now apply sound_emit|]. intros _. apply IH. }
  apply preserves_tryCatch; [apply Hloop|].
  intros e. apply preserves_bind; [now apply sound_emit|].
  intros _. destruct e; apply preserves_throw.
Qed.

End SentPrompts.

(** X8: [outpaintImage] never sends a blank prompt: whatever prompt it is
    given, every prompt that a run sends is one and the same, the given one
    or the default, and this prompt holds more than white space. *)
Theorem outpaintImage_never_sends_blank
    {X : Type} (ai : Remote) (fuel : nat) (base64ImageData mimeType : string)
    (prompt : option string) (x : X) :
  let run := outpaintImage ai fuel base64ImageData mimeType prompt (start x) in
  notBlank (Some (finalPromptOf prompt)) /\
  Forall (fun sent => sent = Some (finalPromptOf prompt)) (sentPrompts (trace (snd run))) /\
  (prompt = None \/ (exists given, prompt = Some given /\ Js.trim given = "") ->
   finalPromptOf prompt = defaultPrompt) /\
  (forall given, prompt = Some given -> Js.trim given <> "" -> finalPromptOf prompt = given).
Proof.
  intros run. subst run. split; [|split; [|split]].
  - exists (finalPromptOf prompt). split; [reflexivity|apply finalPromptOf_notBlank].
  - unfold outpaintImage.
    apply (sound_editImage ai (fun sent => sent = Some (finalPromptOf prompt)));
      [reflexivity | constructor].
  - intros [-> | [given [-> Hblank]]]; [reflexivity | now apply finalPromptOf_blank].
  - intros given -> Hgiven. now apply finalPromptOf_given.
Qed.

(** X9: [handleEdit] never sends a blank prompt to the service: in every
    run, refused or not, every prompt sent holds more than white space. *)
Theorem handleEdit_never_sends_blank
    (ai : Remote) (fuel : nat) (rendered st : AppState) :
  Forall notBlank (sentPrompts (trace (snd (handleEdit ai fuel rendered (start st))))).
Proof.
  destruct (selectedOriginalFile (editState rendered)) as [file|] eqn:Hsel.
  - destruct (decide (isOutpaint (editState rendered) = true)) as [Hout|Hedit].
    + rewrite (handleEdit_run ai fuel rendered file (start st) Hsel (or_introl Hout)).
      assert (Forall notBlank
                (sentPrompts (trace (snd (editCall ai fuel (editState rendered) file
                   {| trace := trace (start st);
                      caller := cleared (fileKeyOf file) (caller (start st)) |})))))
        as Hcall.
      { unfold editCall. rewrite Hout.
        apply (preserves_bind (fun w => Forall notBlank (sentPrompts (trace w)))).
        - unfold readFile. now apply sound_perform.
        - intros base64Data. unfold outpaintImage. apply sound_editImage.
          eexists. split; [reflexivity|apply finalPromptOf_notBlank].
        - constructor. }
      destruct (editCall _ _ _ _ _) as [[result|e|] w]; exact Hcall.
    + destruct (decide (Js.trim (prompt (editState rendered)) = "")) as [Hblank|Hgiven].
      * destruct (handleEdit_refused ai fuel rendered (start st)) as [_ ->];
          [|constructor].
        right. intros [Ho|Hp]; contradiction.
      * rewrite (handleEdit_run ai fuel rendered file (start st) Hsel (or_intror Hgiven)).
        assert (Forall notBlank
                  (sentPrompts (trace (snd (editCall ai fuel (editState rendered) file
                     {| trace := trace (start st);
                        caller := cleared (fileKeyOf file) (caller (start st)) |})))))
          as Hcall.
        { unfold editCall.
          destruct (isOutpaint (editState rendered)); [now destruct Hedit|].
          apply (preserves_bind (fun w => Forall notBlank (sentPrompts (trace w)))).
          - unfold readFile. now apply sound_perform.
          - intros base64Data. apply sound_editImage.
            eexists. split; [reflexivity|exact Hgiven].
          - constructor. }
        destruct (editCall _ _ _ _ _) as [[result|e|] w]; exact Hcall.
  - destruct (handleEdit_refused ai fuel rendered (start st)) as [_ ->];
      [now left|constructor].
Qed.

(** ** [fileToBase64] *)

Lemma splitComma_commaFree s : commaFree s = true -> Utility.splitComma s = [s].
Proof.
  induction s as [|c rest IH]; [reflexivity|].
  cbn [commaFree Utility.splitComma]. destruct (String.eqb (String c "") ","); [discriminate|].
  cbn [negb andb]. intros Hrest. now rewrite (IH Hrest).
Qed.

Lemma splitComma_header header rest :
  commaFree header = true ->
  Utility.splitComma (header +:+ "," +:+ rest) = header :: Utility.splitComma rest.
Proof.
  induction header as [|c header IH]; [reflexivity|].
  cbn [commaFree]. intros Hfree. apply andb_prop in Hfree as [Hc Hheader].
  change (String c header +:+ "," +:+ rest) with (String c (header +:+ "," +:+ rest)).
  cbn [Utility.splitComma].
  destruct (String.eqb (String c "") ","); [discriminate|].
  now rewrite (IH Hheader).
Qed.

(** X10: [fileToBase64] gives what stands between the first and the second
    comma of what the reader reads.  For a data URL, whose header holds no
    comma, that is the payload when the payload holds no comma (as base64
    does not); a result without comma gives [undefined]; and when the reader
    fails the promise is rejected with a value that is no [Error]. *)
Theorem fileToBase64_takes_payload
    (readAsDataURL : File -> option string) (file : File) :
  (forall header payload,
     readAsDataURL file = Some (header +:+ "," +:+ payload) ->
     commaFree header = true ->
     commaFree payload = true ->
     Utility.fileToBase64 readAsDataURL file = inr (Some payload)) /\
  (forall header payload rest,
     readAsDataURL file = Some (header +:+ "," +:+ payload +:+ "," +:+ rest) ->
     commaFree header = true ->
     commaFree payload = true ->
     Utility.fileToBase64 readAsDataURL file = inr (Some payload)) /\
  (forall result,
     readAsDataURL file = Some result ->
     commaFree result = true ->
     Utility.fileToBase64 readAsDataURL file = inr None) /\
  (readAsDataURL file = None ->
   Utility.fileToBase64 readAsDataURL file = inl NonError).
Proof.
  unfold Utility.fileToBase64. repeat split.
  - intros header payload -> Hheader Hpayload.
    now rewrite (splitComma_header _ _ Hheader), (splitComma_commaFree _ Hpayload).
  - intros header payload rest -> Hheader Hpayload.
    now rewrite (splitComma_header _ _ Hheader), (splitComma_header _ _ Hpayload).
  - intros result -> Hfree. now rewrite (splitComma_commaFree _ Hfree).
  - now intros ->.
Qed.

Lemma fileToBase64_takes_payload_witness :
  Utility.fileToBase64 dataUrlReader photo = inr (Some "SU1H").
Proof.
  destruct (fileToBase64_takes_payload dataUrlReader photo) as [Hpayload _].
  apply (Hpayload "data:image/png;base64" "SU1H"); reflexivity.
Defined.

(** ** [handleEditFileChange] *)

Lemma sameFile_identity (of_ nf : File) :
  sameFile of_ nf = true <-> identityOf of_ = identityOf nf.
Proof.
  unfold sameFile, identityOf. rewrite andb_true_iff, String.eqb_eq, Z.eqb_eq.
  split; [intros [-> ->]; reflexivity | intros [= -> ->]; now split].
Qed.

Lemma known_identity (files : list File) (nf : File) :
  existsb (fun of_ => sameFile of_ nf) files = true <->
  In (identityOf nf) (map identityOf files).
Proof.
  rewrite existsb_exists, in_map_iff. split.
  - intros [of_ [Hin Hsame]]. exists of_. now apply sameFile_identity in Hsame.
  - intros [of_ [Hsame Hin]]. exists of_. split; [exact Hin | now apply sameFile_identity].
Qed.

Lemma handleEditFileChange_run (file : File) (files : list File) (w : World AppState) :
  handleEditFileChange (Some (file :: files)) w =
  (Fulfilled tt,
   {| trace := trace w;
      caller := {| isLoading := isLoading (caller w);
                   error := None;
                   editState := addFiles (file :: files) (editState (caller w)) |} |}).
Proof. reflexivity. Qed.

(** X11: choosing files never disturbs what the edit tab holds: the files
    that were there keep their places, the stored results, the prompt and
    the other fields stay, nothing is sent or read, and what is appended is
    exactly the chosen files that have the name and time of no file of the
    list, in the order in which they were chosen.  A choice of at least one
    file moves the selection to the end of the old list and clears the
    error; an absent or empty choice changes nothing at all, the selection
    and the error included. *)
Theorem handleEditFileChange_appends_unknown_files
    (files : option (list File)) (w : World AppState) :
  let before := editState (caller w) in
  let after := editState (caller (snd (handleEditFileChange files w))) in
  fst (handleEditFileChange files w) = Fulfilled tt /\
  trace (snd (handleEditFileChange files w)) = trace w /\
  isLoading (caller (snd (handleEditFileChange files w))) = isLoading (caller w) /\
  editedImages after = editedImages before /\
  prompt after = prompt before /\
  outputName after = outputName before /\
  isOutpaint after = isOutpaint before /\
  originalFiles after =
    originalFiles before ++
    List.filter (fun nf => negb (existsb (fun of_ => sameFile of_ nf) (originalFiles before)))
      (default [] files) /\
  (forall i file, originalFiles before !! i = Some file -> originalFiles after !! i = Some file) /\
  (forall nf, In nf (originalFiles after) <->
     In nf (originalFiles before) \/
     (In nf (default [] files) /\
      ~ In (identityOf nf) (map identityOf (originalFiles before)))) /\
  (forall file, hasEditedVersion after file = hasEditedVersion before file) /\
  match files with
  | Some (_ :: _) =>
      selectedFileIndex after = Some (length (originalFiles before)) /\
      error (caller (snd (handleEditFileChange files w))) = None
  | Some [] | None => snd (handleEditFileChange files w) = w
  end.
Proof.
  destruct files as [[|file files]|];
    [cbn; rewrite app_nil_r; repeat split; try tauto; intros [H|[[] _]]; exact H
    | | cbn; rewrite app_nil_r; repeat split; try tauto; intros [H|[[] _]]; exact H].
  rewrite handleEditFileChange_run.
  cbn [fst snd caller trace editState isLoading error default].
  cbn [addFiles editedImages prompt outputName isOutpaint originalFiles selectedFileIndex].
  repeat split; try reflexivity.
  - intros i f Hi. now apply lookup_app_l_Some.
  - rewrite in_app_iff, filter_In, negb_true_iff, <- not_true_iff_false, known_identity. tauto.
  - rewrite in_app_iff, filter_In, negb_true_iff, <- not_true_iff_false, known_identity. tauto.
Qed.

(** X12: when one of the chosen files has the name and time of no file of
    the list, the first such file becomes the selected one. *)
Theorem handleEditFileChange_selects_first_new_file
    (files : list File) (nf : File) (w : World AppState)
    (Hnew : List.find
              (fun nf => negb (existsb (fun of_ => sameFile of_ nf)
                                 (originalFiles (editState (caller w)))))
              files = Some nf) :
  selectedOriginalFile (editState (caller (snd (handleEditFileChange (Some files) w))))
  = Some nf.
Proof.
  destruct files as [|file files]; [discriminate|].
  rewrite handleEditFileChange_run. cbn [snd caller editState].
  unfold selectedOriginalFile, addFiles. cbn [selectedFileIndex originalFiles mbind option_bind].
  set (known := fun nf => negb (existsb (fun of_ => sameFile of_ nf) _)) in *.
  rewrite lookup_app_r by lia. rewrite Nat.sub_diag.
  revert Hnew. generalize (file :: files). intros l.
  induction l as [|f l IH]; [discriminate|].
  cbn [find List.filter]. destruct (known f); [intros [= ->]; reflexivity | exact IH].
Qed.

Lemma handleEditFileChange_selects_first_new_file_witness :
  selectedOriginalFile
    (editState (caller (snd (handleEditFileChange (Some [photo; third; sketch]) (start twoFiles)))))
  = Some third.
Proof.
  apply handleEditFileChange_selects_first_new_file. reflexivity.
Defined.

Lemma filter_known_nil (known files : list File) :
  (forall nf, In nf files -> In (identityOf nf) (map identityOf known)) ->
  List.filter (fun nf => negb (existsb (fun of_ => sameFile of_ nf) known)) files = [].
Proof.
  induction files as [|f files IH]; [reflexivity|].
  intros Hknown. cbn [List.filter].
  replace (existsb (fun of_ => sameFile of_ f) known) with true
    by (symmetry; apply known_identity, Hknown; now left).
  apply IH. intros nf Hin. apply Hknown. now right.
Qed.

(** X13: when every chosen file has the name and time of a file of the list,
    the list stays as it is but the selection moves past its end: no file is
    selected any more, no edited image is shown, the button of the edit tab
    is disabled, and [handleEdit] asks for a file without reading or sending
    anything. *)
Theorem handleEditFileChange_known_files_deselect
    (ai : Remote) (fuel : nat) (files : list File) (w : World AppState)
    (Hsome : files <> [])
    (Hknown : forall nf, In nf files ->
                In (identityOf nf) (map identityOf (originalFiles (editState (caller w))))) :
  let w' := snd (handleEditFileChange (Some files) w) in
  originalFiles (editState (caller w')) = originalFiles (editState (caller w)) /\
  selectedFileIndex (editState (caller w'))
    = Some (length (originalFiles (editState (caller w)))) /\
  selectedOriginalFile (editState (caller w')) = None /\
  editedImageUrl (editState (caller w')) = None /\
  editButtonDisabled (caller w') = true /\
  handleEdit ai fuel (caller w') w'
  = (Fulfilled tt,
     {| trace := trace w;
        caller := {| isLoading := isLoading (caller w);
                     error := Some "請先上傳並選擇一張圖片。";
                     editState := editState (caller w') |} |}).
Proof.
  destruct files as [|file files]; [contradiction|]. clear Hsome.
  rewrite handleEditFileChange_run. cbn [snd caller editState].
  assert (Hfiles : originalFiles (addFiles (file :: files) (editState (caller w)))
                   = originalFiles (editState (caller w))).
  { unfold addFiles. cbn [originalFiles].
    now rewrite (filter_known_nil _ _ Hknown), app_nil_r. }
  assert (Hnone : selectedOriginalFile (addFiles (file :: files) (editState (caller w))) = None).
  { unfold selectedOriginalFile. rewrite Hfiles. cbn [addFiles selectedFileIndex mbind option_bind].
    now apply lookup_ge_None. }
  split; [exact Hfiles|]. split; [reflexivity|]. split; [exact Hnone|].
  split; [unfold editedImageUrl; now rewrite Hnone|].
  split; [unfold editButtonDisabled; cbn [editState]; now rewrite Hnone|].
  unfold handleEdit. cbn [editState]. now rewrite Hnone.
Qed.

Lemma handleEditFileChange_known_files_deselect_witness :
  selectedOriginalFile
    (editState (caller (snd (handleEditFileChange (Some [sketch; photo]) (start twoFiles)))))
  = None.
Proof.
  refine (proj1 (proj2 (proj2
    (handleEditFileChange_known_files_deselect textThenImage 0 [sketch; photo]
       (start twoFiles) _ _)))).
  - discriminate.
  - intros nf [<-|[<-|[]]]; cbn; tauto.
Defined.

Lemma NoDup_filter_identity (keep : File -> bool) (files : list File) :
  NoDup (map identityOf files) -> NoDup (map identityOf (List.filter keep files)).
Proof.
  induction files as [|f files IH]; [intros _; constructor|].
  cbn [map List.filter]. intros Hnodup. inversion Hnodup as [|? ? Hnotin Hrest]; subst.
  destruct (keep f); [|now apply IH].
  cbn [map]. constructor; [|now apply IH].
  intros Hin. apply Hnotin. apply list_elem_of_In. apply list_elem_of_In in Hin.
  apply in_map_iff in Hin as [g [Hg Hin]].
  apply filter_In in Hin as [Hin _]. apply in_map_iff. now exists g.
Qed.

(** X14: the de-duplication keeps the files of the list apart: when no two
    files of the list have the same name and time, and no two of the chosen
    files have, then no two files of the list have after the choice. *)
Theorem handleEditFileChange_keeps_files_distinct
    (files : option (list File)) (w : World AppState)
    (Hlist : NoDup (map identityOf (originalFiles (editState (caller w)))))
    (Hchosen : NoDup (map identityOf (default [] files))) :
  NoDup (map identityOf
           (originalFiles (editState (caller (snd (handleEditFileChange files w)))))).
Proof.
  destruct files as [[|file files]|]; [exact Hlist | | exact Hlist].
  rewrite handleEditFileChange_run. cbn [snd caller editState addFiles originalFiles].
  cbn [default] in Hchosen. rewrite map_app.
  set (unknown := fun nf => negb (existsb (fun of_ => sameFile of_ nf) _)).
  apply NoDup_app. repeat split.
  - exact Hlist.
  - intros key Hold Hnew. apply list_elem_of_In in Hold, Hnew.
    apply in_map_iff in Hnew as [nf [<- Hnf]].
    apply filter_In in Hnf as [_ Hunknown]. unfold unknown in Hunknown.
    apply negb_true_iff in Hunknown. apply not_true_iff_false in Hunknown.
    apply Hunknown. now apply known_identity.
  - now apply NoDup_filter_identity.
Qed.

Lemma handleEditFileChange_keeps_files_distinct_witness :
  NoDup (map identityOf
           (originalFiles
              (editState (caller (snd (handleEditFileChange (Some [photo; third])
                                         (start twoFiles))))))).
Proof.
  apply handleEditFileChange_keeps_files_distinct; cbn;
    repeat (constructor; [rewrite ?elem_of_cons, ?elem_of_nil; intros H;
                          repeat destruct H as [H|H]; try discriminate H; exact H|]);
    constructor.
Defined.

(** ** [handleEdit] and what the edit tab shows *)

Section HandleEditOutcomes.
Variable ai : Remote.

Lemma promptAccepted_dec (es : EditState) : {promptAccepted es} + {~ promptAccepted es}.
Proof.
  unfold promptAccepted.
  destruct (isOutpaint es); [left; now left|].
  destruct (decide (Js.trim (prompt es) = "")) as [Hblank|Hgiven].
  - right. intros [Hout|Hp]; [discriminate | contradiction].
  - left. now right.
Defined.

Lemma handleEdit_refusal fuel rendered (w : World AppState) :
  ~ (exists file, selectedOriginalFile (editState rendered) = Some file /\
                  promptAccepted (editState rendered)) ->
  exists message,
    (message = "請先上傳並選擇一張圖片。" \/ message = "請輸入編輯提示。") /\
    handleEdit ai fuel rendered w
    = (Fulfilled tt,
       {| trace := trace w;
          caller := {| isLoading := isLoading (caller w);
                       error := Some message;
                       editState := editState (caller w) |} |}).
Proof.
  intros Hrefused. unfold handleEdit.
  destruct (selectedOriginalFile (editState rendered)) as [file|];
    [|eexists; split; [now left | reflexivity]].
  destruct (promptAccepted_dec (editState rendered)) as [Hprompt|Hprompt];
    [exfalso; apply Hrefused; now exists file|].
  destruct (negb (isOutpaint (editState rendered))
            && negb (Js.truthy (Js.trim (prompt (editState rendered))))) eqn:Hcheck;
    [eexists; split; [now right | reflexivity]|].
  exfalso. apply Hprompt. unfold promptAccepted.
  destruct (isOutpaint (editState rendered)); [now left|right].
  simpl in Hcheck. apply negb_false_iff in Hcheck. now apply truthy_true.
Qed.

Lemma editCall_from_cleared fuel es file (w : World AppState) :
  caller (snd (editCall ai fuel es file
                 {| trace := trace w; caller := cleared (fileKeyOf file) (caller w) |}))
  = cleared (fileKeyOf file) (caller w).
Proof. now rewrite editCall_caller. Qed.

End HandleEditOutcomes.

(** X15: the promise of [handleEdit] is never rejected.  When no file is
    selected, or the prompt is blank outside outpaint mode, it is fulfilled
    with one of the two requests shown as the error and nothing else
    changed, the loading flag included.  Otherwise the loading flag is up and
    the error cleared for as long as the call is awaited, and the flag is
    down once the promise is fulfilled. *)
Theorem handleEdit_settles_and_unlocks
    (ai : Remote) (fuel : nat) (rendered : AppState) (w : World AppState) :
  let goesOn := exists file, selectedOriginalFile (editState rendered) = Some file /\
                             promptAccepted (editState rendered) in
  let run := handleEdit ai fuel rendered w in
  (forall e, fst run <> Rejected e) /\
  (~ goesOn ->
   fst run = Fulfilled tt /\
   trace (snd run) = trace w /\
   editState (caller (snd run)) = editState (caller w) /\
   isLoading (caller (snd run)) = isLoading (caller w) /\
   (error (caller (snd run)) = Some "請先上傳並選擇一張圖片。" \/
    error (caller (snd run)) = Some "請輸入編輯提示。")) /\
  (goesOn -> fst run = Fulfilled tt -> isLoading (caller (snd run)) = false) /\
  (fst run = Pending ->
   goesOn /\ isLoading (caller (snd run)) = true /\ error (caller (snd run)) = None).
Proof.
  cbv zeta.
  assert (Hcases :
    (exists file, selectedOriginalFile (editState rendered) = Some file /\
                  promptAccepted (editState rendered)) \/
    ~ (exists file, selectedOriginalFile (editState rendered) = Some file /\
                    promptAccepted (editState rendered))).
  { destruct (selectedOriginalFile (editState rendered)) as [file|];
      [|right; intros [file [Hfile _]]; discriminate].
    destruct (promptAccepted_dec (editState rendered)) as [Hprompt|Hprompt];
      [left; now exists file | right; intros [file' [_ Hp]]; contradiction]. }
  destruct Hcases as [Hgoes|Hrefused].
  - destruct Hgoes as [file [Hsel Hprompt]].
    rewrite (handleEdit_run ai fuel rendered file w Hsel Hprompt).
    pose proof (editCall_from_cleared ai fuel (editState rendered) file w) as Hcaller.
    destruct (editCall ai fuel (editState rendered) file _) as [[result|e|] w1];
      cbn [snd] in Hcaller; cbn [afterCall fst snd caller isLoading error].
    + split; [discriminate|]. split; [intros Hrefused; exfalso; apply Hrefused; now exists file|].
      split; [reflexivity | discriminate].
    + split; [discriminate|]. split; [intros Hrefused; exfalso; apply Hrefused; now exists file|].
      split; [reflexivity | discriminate].
    + rewrite Hcaller. cbn [cleared isLoading error].
      split; [discriminate|]. split; [intros Hrefused; exfalso; apply Hrefused; now exists file|].
      split; [discriminate|]. intros _. split; [now exists file | now split].
  - destruct (handleEdit_refusal ai fuel rendered w Hrefused) as [message [Hmessage ->]].
    cbn [fst snd caller trace isLoading error editState].
    split; [discriminate|]. split; [|split; [contradiction | discriminate]].
    intros _. repeat split. destruct Hmessage as [-> | ->]; [now left | now right].
Qed.

(** X16: what the edit tab shows after [handleEdit], built by the latest
    render, went on with the selected file.  A result of the call that is
    not the empty string is shown as a JPEG data URL and the thumbnail of the
    file is marked; the empty string as a result is stored but nothing is
    shown and no error either; a failure of the call shows its message and no
    image; while the call is awaited no image is shown. *)
Theorem handleEdit_shows_result
    (ai : Remote) (fuel : nat) (file : File) (w : World AppState)
    (Hsel : selectedOriginalFile (editState (caller w)) = Some file)
    (Hprompt : promptAccepted (editState (caller w))) :
  let call := editCall ai fuel (editState (caller w)) file
                {| trace := trace w; caller := cleared (fileKeyOf file) (caller w) |} in
  let after := caller (snd (handleEdit ai fuel (caller w) w)) in
  selectedOriginalFile (editState after) = Some file /\
  match fst call with
  | Fulfilled result =>
      editedImageUrl (editState after)
      = (if Js.truthy result then Some ("data:image/jpeg;base64," +:+ result) else None) /\
      hasEditedVersion (editState after) file = Js.truthy result /\
      error after = None
  | Rejected e =>
      editedImageUrl (editState after) = None /\
      hasEditedVersion (editState after) file = false /\
      error after = Some (displayMessage e)
  | Pending =>
      editedImageUrl (editState after) = None /\
      hasEditedVersion (editState after) file = false /\
      error after = None
  end.
Proof.
  cbv zeta. rewrite (handleEdit_run ai fuel (caller w) file w Hsel Hprompt).
  pose proof (editCall_from_cleared ai fuel (editState (caller w)) file w) as Hcaller.
  destruct (editCall ai fuel (editState (caller w)) file _) as [[result|e|] w1];
    cbn [snd] in Hcaller; cbn [afterCall fst snd caller editState error]; rewrite Hcaller;
    cbn [cleared editState error].
  - assert (Hsame : selectedOriginalFile
                      (withEditedImage (fileKeyOf file) (Some result)
                         (withEditedImage (fileKeyOf file) None (editState (caller w))))
                    = Some file) by exact Hsel.
    split; [exact Hsame|]. unfold editedImageUrl, hasEditedVersion. rewrite Hsame.
    cbn [withEditedImage editedImages]. rewrite lookup_insert_eq.
    now destruct (Js.truthy result).
  - assert (Hsame : selectedOriginalFile
                      (withEditedImage (fileKeyOf file) None (editState (caller w)))
                    = Some file) by exact Hsel.
    split; [exact Hsame|]. unfold editedImageUrl, hasEditedVersion. rewrite Hsame.
    cbn [withEditedImage editedImages]. rewrite lookup_insert_eq. now repeat split.
  - assert (Hsame : selectedOriginalFile
                      (withEditedImage (fileKeyOf file) None (editState (caller w)))
                    = Some file) by exact Hsel.
    split; [exact Hsame|]. unfold editedImageUrl, hasEditedVersion. rewrite Hsame.
    cbn [withEditedImage editedImages]. rewrite lookup_insert_eq. now repeat split.
Qed.

Lemma handleEdit_shows_result_witness :
  editedImageUrl (editState (caller (snd (handleEdit textThenImage 2 twoFiles (start twoFiles)))))
  = Some "data:image/jpeg;base64,AAAA".
Proof.
  assert (Hsel : selectedOriginalFile (editState (caller (start twoFiles))) = Some photo)
    by reflexivity.
  assert (Hprompt : promptAccepted (editState (caller (start twoFiles))))
    by (right; discriminate).
  exact (proj1 (proj2 (handleEdit_shows_result textThenImage 2 photo (start twoFiles)
                         Hsel Hprompt))).
Defined.

(** X17: the edited image is kept under the name of the file followed by
    its time, so a file of the list whose key reads the same shares it:
    after [handleEdit] stored a result for the selected file, the thumbnail
    of such a file is marked as edited too, and selecting it shows that very
    result. *)
Theorem handleEdit_result_is_shared_by_key
    (ai : Remote) (fuel : nat) (file other : File) (index : nat) (result : string)
    (w : World AppState)
    (Hsel : selectedOriginalFile (editState (caller w)) = Some file)
    (Hprompt : promptAccepted (editState (caller w)))
    (Hcall : fst (editCall ai fuel (editState (caller w)) file
                    {| trace := trace w; caller := cleared (fileKeyOf file) (caller w) |})
             = Fulfilled result)
    (Hother : originalFiles (editState (caller w)) !! index = Some other)
    (Hkey : fileKeyOf other = fileKeyOf file) :
  let after := snd (handleEdit ai fuel (caller w) w) in
  hasEditedVersion (editState (caller after)) other = Js.truthy result /\
  editedImageUrl (editState (caller (snd (selectThumbnail index after))))
  = (if Js.truthy result then Some ("data:image/jpeg;base64," +:+ result) else None).
Proof.
  cbv zeta. rewrite (handleEdit_run ai fuel (caller w) file w Hsel Hprompt).
  pose proof (editCall_from_cleared ai fuel (editState (caller w)) file w) as Hcaller.
  destruct (editCall ai fuel (editState (caller w)) file _) as [[result'|e|] w1];
    cbn [fst] in Hcall; try discriminate Hcall. injection Hcall as ->.
  cbn [snd] in Hcaller. cbn [afterCall snd caller editState]. rewrite Hcaller.
  cbn [cleared editState]. split.
  - unfold hasEditedVersion. cbn [withEditedImage editedImages].
    rewrite Hkey, lookup_insert_eq. now destruct (Js.truthy result).
  - unfold selectThumbnail, setEditState, update. cbn [snd caller editState].
    unfold editedImageUrl, selectedOriginalFile.
    cbn [withSelectedFileIndex withEditedImage selectedFileIndex originalFiles editedImages
         mbind option_bind].
    rewrite Hother, Hkey, lookup_insert_eq. reflexivity.
Qed.

Lemma handleEdit_result_is_shared_by_key_witness :
  sameFile scan1 scan = false /\
  hasEditedVersion
    (editState (caller (snd (handleEdit textThenImage 2 twoScans (start twoScans))))) scan
  = true.
Proof.
  split; [reflexivity|].
  assert (Hsel : selectedOriginalFile (editState (caller (start twoScans))) = Some scan1)
    by reflexivity.
  assert (Hprompt : promptAccepted (editState (caller (start twoScans))))
    by (right; discriminate).
  exact (proj1 (handleEdit_result_is_shared_by_key textThenImage 2 scan1 scan 1 "AAAA"
                  (start twoScans) Hsel Hprompt eq_refl eq_refl eq_refl)).
Defined.

(** ** [createApiHandler] and the handlers of the other tabs *)

(** X18: [handleGenerateImage] always settles fulfilled and touches nothing
    but the loading flag, the error and the generated image.  A prompt of
    white space only gives the request for a prompt as the error, without any
    call and with the earlier image kept.  Otherwise one request with the
    prompt as typed is sent, the loading flag is down at the end, and either
    the image of the first entry of the answer is stored with the error
    cleared, or no image is stored and the translated error is shown: that
    of the failed read when the first entry holds no image, that of the
    missing images when the list is empty or absent, that of the fault when
    the call faults. *)
Theorem handleGenerateImage_outcome
    (ai : Remote) (rendered : Component) (w : World Component) :
  let p := gen_prompt (genState rendered) in
  let run := handleGenerateImage ai rendered w in
  let after := caller (snd run) in
  fst run = Fulfilled tt /\
  activeTab after = activeTab (caller w) /\
  editState (shared after) = editState (shared (caller w)) /\
  videoGenState after = videoGenState (caller w) /\
  upscaleState after = upscaleState (caller w) /\
  gen_prompt (genState after) = gen_prompt (genState (caller w)) /\
  gen_outputName (genState after) = gen_outputName (genState (caller w)) /\
  (Js.trim p = "" ->
   trace (snd run) = trace w /\
   error (shared after) = Some "請輸入生成提示。" /\
   isLoading (shared after) = isLoading (shared (caller w)) /\
   generatedImage (genState after) = generatedImage (genState (caller w))) /\
  (Js.trim p <> "" ->
   (exists logged, trace (snd run) = trace w ++ EvGenerateImages (imageRequest p) :: logged /\
                   count isGenerateImages logged = 0) /\
   isLoading (shared after) = false /\
   match generateImages ai (imageRequest p) (count isGenerateImages (trace w)) with
   | inr response =>
       match generatedImages response with
       | Some (first :: _) =>
           match image first with
           | Some image =>
               generatedImage (genState after) = Some (imageBytes image) /\
               error (shared after) = None
           | None =>
               generatedImage (genState after) = None /\
               error (shared after)
               = Some ("圖片生成失敗： " +:+ typeErrorMessage ai "imageBytes")
           end
       | Some [] | None =>
           generatedImage (genState after) = None /\
           error (shared after) = Some "圖片生成失敗： API 未返回任何圖片。"
       end
   | inl (Error message) =>
       generatedImage (genState after) = None /\
       error (shared after) = Some ("圖片生成失敗： " +:+ message)
   | inl NonError =>
       generatedImage (genState after) = None /\
       error (shared after) = Some "生成圖片時發生未知的錯誤。"
   end).
Proof.
  cbv zeta. unfold handleGenerateImage, createApiHandler.
  destruct (Js.truthy (Js.trim (gen_prompt (genState rendered)))) eqn:Hprompt.
  - apply truthy_true in Hprompt.
    unfold generateImage, tryFinally, tryCatch, mbind, Async_bind, inShared, setIsLoading,
      setError, setGenState, update, ai_models_generateImages, perform, console_error, emit,
      throw, mret, Async_ret.
    cbn [negb fst snd trace caller shared withShared].
    unfold typeError.
    destruct (generateImages ai _ _) as [[message|]|response];
      [| |destruct (generatedImages response) as [[|first rest]|];
          [|destruct (image first) as [image|]|]];
      cbn; (do 7 (split; [reflexivity|])); (split; [intros Hblank; contradiction|]);
      intros _; (split; [|now split]);
      eexists; (split; [rewrite <- ?app_assoc; reflexivity | reflexivity]).
  - apply truthy_false in Hprompt.
    cbn. do 7 (split; [reflexivity|]). split; [intros _; now repeat split|].
    intros Hgiven. contradiction.
Qed.

(** *** The service after a history without calls *)

Section After.
Context {X1 X2 : Type}.
Variable history : list Event.
Hypothesis Hquiet : quiet history.

Local Abbreviation after := (@simAfter X1 X2 _ history).

Lemma after_ret {A} (a : A) : after (mret a) (mret a).
Proof. intros w1 w2 Hw. now split. Qed.

Lemma after_throw {A} e : after (throw (A := A) e) (throw e).
Proof. intros w1 w2 Hw. now split. Qed.

Lemma after_pending {A} : after (pending (A := A)) pending.
Proof. intros w1 w2 Hw. now split. Qed.

Lemma after_bind {A B} (m1 : Async X1 A) (m2 : Async X2 A) k1 (k2 : A -> Async X2 B) :
  simAfter history m1 m2 -> (forall a, after (k1 a) (k2 a)) -> after (m1 ≫= k1) (m2 ≫= k2).
Proof.
  intros Hm Hk w1 w2 Hw. unfold mbind, Async_bind.
  destruct (Hm w1 w2 Hw) as [Hres Htr].
  destruct (m1 w1) as [r1 v1], (m2 w2) as [r2 v2]. simpl in Hres, Htr. subst r2.
  destruct r1 as [a|e|]; [now apply Hk| |]; now split.
Qed.

Lemma after_tryCatch {A} (m1 : Async X1 A) (m2 : Async X2 A) h1 h2 :
  simAfter history m1 m2 -> (forall e, after (h1 e) (h2 e)) ->
  after (tryCatch m1 h1) (tryCatch m2 h2).
Proof.
  intros Hm Hh w1 w2 Hw. unfold tryCatch.
  destruct (Hm w1 w2 Hw) as [Hres Htr].
  destruct (m1 w1) as [r1 v1], (m2 w2) as [r2 v2]. simpl in Hres, Htr. subst r2.
  destruct r1 as [a|e|]; [|now apply Hh|]; now split.
Qed.

Lemma after_emit e : after (emit e) (emit e).
Proof. intros w1 w2 Hw. simpl. now rewrite Hw, app_assoc. Qed.

Lemma after_update f1 f2 : after (update f1) (update f2).
Proof. intros w1 w2 Hw. now split. Qed.

Lemma after_perform {A} e (answer : Thrown + A) : after (perform e answer) (perform e answer).
Proof. intros w1 w2 Hw. unfold perform. destruct answer; simpl; now rewrite Hw, app_assoc. Qed.

Lemma after_settle {A} (answer : Thrown + A) : after (settle answer) (settle answer).
Proof. intros w1 w2 Hw. unfold settle. now destruct answer. Qed.

Lemma after_evaluate {A} (outcome : Thrown + A) : after (evaluate outcome) (evaluate outcome).
Proof. intros w1 w2 Hw. unfold evaluate. now destruct outcome. Qed.

Lemma after_notify f1 f2 message :
  after (notify (returning f1) message) (notify (returning f2) message).
Proof.
  apply after_bind; [apply after_emit|]. intros _.
  exact (after_update (f1 message) (f2 message)).
Qed.

Variable ai : Remote.

Lemma after_generateContent params :
  after (ai_models_generateContent ai params) (ai_models_generateContent ai params).
Proof.
  intros w1 w2 Hw. unfold ai_models_generateContent. rewrite Hw, count_app.
  destruct Hquiet as [-> _]. now apply after_perform.
Qed.

Lemma after_generateVideos params :
  after (ai_models_generateVideos ai params) (ai_models_generateVideos ai params).
Proof.
  intros w1 w2 Hw. unfold ai_models_generateVideos. rewrite Hw, count_app.
  destruct Hquiet as [_ [_ [-> _]]]. now apply after_perform.
Qed.

Lemma after_getVideosOperation operation :
  after (ai_operations_getVideosOperation ai operation)
    (ai_operations_getVideosOperation ai operation).
Proof.
  intros w1 w2 Hw. unfold ai_operations_getVideosOperation. rewrite Hw, count_app.
  destruct Hquiet as [_ [_ [_ [-> _]]]]. now apply after_perform.
Qed.

Lemma after_fetch url : after (window_fetch ai url) (window_fetch ai url).
Proof.
  intros w1 w2 Hw. unfold window_fetch. rewrite Hw, count_app.
  destruct Hquiet as [_ [_ [_ [_ ->]]]]. now apply after_perform.
Qed.

Lemma after_createObjectURL videoBlob :
  after (URL_createObjectURL ai videoBlob) (URL_createObjectURL ai videoBlob).
Proof. apply after_bind; [apply after_emit|]. intros _. apply after_ret. Qed.

Lemma after_editImage_loop fuel b m p : forall attempt,
  after (editImage_loop ai fuel b m p attempt) (editImage_loop ai fuel b m p attempt).
Proof.
  induction fuel as [|fuel IH]; intros attempt; cbn [editImage_loop]; [apply after_pending|].
  apply after_bind; [apply after_generateContent|]. intros response.
  apply after_bind; [apply after_evaluate|]. intros imagePart.
  destruct (imagePart ≫= inlineData); [apply after_ret|].
  apply after_bind; [apply after_emit|]. intros _.
  apply after_bind; [apply after_emit|]. intros _. apply IH.
Qed.

Lemma after_editImage fuel b m p :
  after (editImage ai fuel b m p) (editImage ai fuel b m p).
Proof.
  apply after_tryCatch; [apply after_editImage_loop|].
  intros e. apply after_bind; [apply after_emit|]. intros _. destruct e; apply after_throw.
Qed.

Lemma after_generateVideo_loop f1 f2 fuel : forall operation messageIndex,
  after (generateVideo_loop ai fuel (returning f1) operation messageIndex)
    (generateVideo_loop ai fuel (returning f2) operation messageIndex).
Proof.
  induction fuel as [|fuel IH]; intros operation messageIndex; cbn [generateVideo_loop];
    destruct (isDone operation); try apply after_ret; [apply after_pending|].
  apply after_bind; [apply after_notify|]. intros _.
  apply after_bind; [apply after_emit|]. intros _.
  apply after_bind; [apply after_getVideosOperation|]. intros operation'. apply IH.
Qed.

Lemma after_generateVideo f1 f2 fuel prompt base64ImageData mimeType :
  after (generateVideo ai fuel prompt base64ImageData mimeType (returning f1))
    (generateVideo ai fuel prompt base64ImageData mimeType (returning f2)).
Proof.
  apply after_tryCatch.
  - apply after_bind; [apply after_notify|]. intros _.
    apply after_bind; [apply after_generateVideos|]. intros operation.
    apply after_bind; [apply after_generateVideo_loop|]. intros operation'.
    destruct (downloadLinkOf operation') as [downloadLink|]; [|apply after_throw].
    destruct (Js.truthy downloadLink); [|apply after_throw].
    apply after_bind; [apply after_notify|]. intros _.
    apply after_bind; [apply after_fetch|]. intros response.
    destruct (ok response); [|apply after_throw].
    apply after_bind; [apply after_settle|]. intros videoBlob. apply after_createObjectURL.
  - intros e. apply after_bind; [apply after_emit|]. intros _. destruct e; apply after_throw.
Qed.

End After.

Lemma quiet_reading sourceFile : quiet (readingOf sourceFile).
Proof. destruct sourceFile; now repeat split. Qed.

(** X19: [handleUpscale] never leaves a rejected promise and touches nothing
    but the loading flag, the error and the upscaled image.  Without a file
    it asks for one and does nothing else.  With a file it reads the file
    and, when the reading fails, shows the generic message without any call;
    otherwise it runs [editImage] on the bytes and the type of the file with
    the fixed upscaling prompt, and stores its result, shows the message of
    its error, or keeps the loading flag up while it is awaited. *)
Theorem handleUpscale_outcome
    (ai : Remote) (missingFile : string) (fuel : nat) (rendered st : Component) :
  let run := handleUpscale ai missingFile fuel rendered (start st) in
  let after := caller (snd run) in
  (activeTab after = activeTab st /\
   editState (shared after) = editState (shared st) /\
   genState after = genState st /\
   videoGenState after = videoGenState st /\
   originalFile (upscaleState after) = originalFile (upscaleState st)) /\
  match originalFile (upscaleState rendered) with
  | None =>
      fst run = Fulfilled tt /\
      trace (snd run) = [] /\
      error (shared after) = Some "請先上傳一張圖片。" /\
      isLoading (shared after) = isLoading (shared st) /\
      upscaledImage (upscaleState after) = upscaledImage (upscaleState st)
  | Some file =>
      match fileToBase64 ai file with
      | inl e =>
          fst run = Fulfilled tt /\
          trace (snd run) = [EvFileToBase64 file] /\
          isLoading (shared after) = false /\
          upscaledImage (upscaleState after) = None /\
          error (shared after) = Some (displayMessage e)
      | inr base64Data =>
          let call := editImage ai fuel base64Data (type file) upscalePrompt (start tt) in
          trace (snd run) = EvFileToBase64 file :: trace (snd call) /\
          match fst call with
          | Fulfilled result =>
              fst run = Fulfilled tt /\
              isLoading (shared after) = false /\
              upscaledImage (upscaleState after) = Some result /\
              error (shared after) = None
          | Rejected e =>
              fst run = Fulfilled tt /\
              isLoading (shared after) = false /\
              upscaledImage (upscaleState after) = None /\
              error (shared after) = Some (displayMessage e)
          | Pending =>
              fst run = Pending /\
              isLoading (shared after) = true /\
              upscaledImage (upscaleState after) = None /\
              error (shared after) = None
          end
      end
  end.
Proof.
  cbv zeta.
  remember (handleUpscale ai missingFile fuel rendered (start st)) as run eqn:Hrun.
  unfold handleUpscale, createApiHandler in Hrun.
  destruct (originalFile (upscaleState rendered)) as [file|];
    [|subst run; cbn; now repeat split].
  unfold tryFinally, tryCatch, mbind, Async_bind, inShared, setIsLoading,
    setError, setUpscaleState, update, readFile, perform, mret, Async_ret, upscaleImage in Hrun.
  cbn [negb fst snd trace caller shared withShared start app] in Hrun.
  destruct (fileToBase64 ai file) as [e|base64Data]; [subst run; cbn; now repeat split|].
  match type of Hrun with
  | context [editImage ai fuel base64Data (type file) upscalePrompt ?w] =>
      pose proof (after_editImage (X2 := unit) [EvFileToBase64 file]
                    (quiet_reading (Some file)) ai fuel base64Data (type file) upscalePrompt
                    w (start tt) eq_refl) as [Hres Htr];
      pose proof (editImage_caller ai fuel base64Data (type file) upscalePrompt w) as Hcaller;
      destruct (editImage ai fuel base64Data (type file) upscalePrompt w) as [r w3]
  end.
  cbn [fst snd caller trace app withShared shared isLoading error editState activeTab genState
       videoGenState upscaleState] in Hres, Htr, Hcaller.
  rewrite <- Hres.
  destruct r as [result|e|]; subst run; cbn; rewrite Hcaller, Htr; cbn; now repeat split.
Qed.

(** *** [handleGenerateVideo] *)

Lemma deliver_record (ms log : list string) : deliver record ms log = log ++ ms.
Proof.
  revert log. induction ms as [|m ms IH]; intros log; [now rewrite app_nil_r|].
  cbn [deliver fold_left]. fold (deliver record ms (record m log)).
  rewrite IH. unfold record. now rewrite <- app_assoc.
Qed.

Lemma last_default {A} (l : list A) (a d d' : A) :
  List.last (a :: l) d = List.last (a :: l) d'.
Proof.
  revert a. induction l as [|b l IH]; intros a; [reflexivity|].
  change (List.last (b :: l) d = List.last (b :: l) d'). apply IH.
Qed.

(** The sink of [handleGenerateVideo] keeps the last message and nothing
    else. *)
Lemma deliver_showProgress (ms : list string) (c : Component) :
  shared (deliver showProgress ms c) = shared c /\
  activeTab (deliver showProgress ms c) = activeTab c /\
  genState (deliver showProgress ms c) = genState c /\
  upscaleState (deliver showProgress ms c) = upscaleState c /\
  video_prompt (videoGenState (deliver showProgress ms c)) = video_prompt (videoGenState c) /\
  sourceFile (videoGenState (deliver showProgress ms c)) = sourceFile (videoGenState c) /\
  generatedVideo (videoGenState (deliver showProgress ms c))
    = generatedVideo (videoGenState c) /\
  loadingMessage (videoGenState (deliver showProgress ms c))
    = List.last ms (loadingMessage (videoGenState c)).
Proof.
  revert c. induction ms as [|m ms IH]; intros c; [now repeat split|].
  cbn [deliver fold_left]. fold (deliver showProgress ms (showProgress m c)).
  destruct (IH (showProgress m c)) as (H1 & H2 & H3 & H4 & H5 & H6 & H7 & H8).
  rewrite H1, H2, H3, H4, H5, H6, H7, H8. cbn.
  repeat split. destruct ms as [|m' ms]; [reflexivity|].
  change (List.last (m :: m' :: ms) (loadingMessage (videoGenState c)))
    with (List.last (m' :: ms) (loadingMessage (videoGenState c))).
  apply last_default.
Qed.

Lemma progressMessages_reading sourceFile t :
  progressMessages (readingOf sourceFile ++ t) = progressMessages t.
Proof. now destruct sourceFile. Qed.

(** What the sink of the handler has made of the state when [generateVideo]
    is left, and what a sink that keeps every message has kept. *)
Lemma generateVideo_after_reading
    (ai : Remote) (fuel : nat) (prompt : string) (base64Data mimeType : option string)
    (source : option File) (c : Component) :
  let run := generateVideo ai fuel prompt base64Data mimeType (returning showProgress)
               {| trace := readingOf source; caller := c |} in
  let call := generateVideo ai fuel prompt base64Data mimeType (returning record) (start []) in
  fst run = fst call /\
  trace (snd run) = readingOf source ++ trace (snd call) /\
  caller (snd run) = deliver showProgress (caller (snd call)) c.
Proof.
  cbv zeta.
  destruct (after_generateVideo (readingOf source) (quiet_reading source) ai
              showProgress record fuel prompt base64Data mimeType
              {| trace := readingOf source; caller := c |} (start []))
    as [Hres Htr]; [cbn; now rewrite app_nil_r|].
  split; [exact Hres|]. split; [exact Htr|].
  rewrite (delivered_generateVideo ai showProgress c fuel prompt base64Data mimeType
             {| trace := readingOf source; caller := c |});
    [|cbn [trace caller]; rewrite <- (app_nil_r (readingOf source));
      now rewrite progressMessages_reading].
  rewrite (delivered_generateVideo ai record [] fuel prompt base64Data mimeType (start []))
    by reflexivity.
  rewrite Htr, progressMessages_reading, deliver_record. reflexivity.
Qed.

(** The events of [handleGenerateVideo] once it goes on and the reading has
    succeeded: those of the reading, then those of [generateVideo]. *)
Lemma handleGenerateVideo_trace
    (ai : Remote) (fuel : nat) (rendered st : Component) (base64Data : option string) :
  Js.trim (video_prompt (videoGenState rendered)) <> "" ->
  readSource ai (sourceFile (videoGenState rendered)) = inr base64Data ->
  trace (snd (handleGenerateVideo ai fuel rendered (start st)))
  = readingOf (sourceFile (videoGenState rendered))
    ++ trace (snd (generateVideo ai fuel (video_prompt (videoGenState rendered)) base64Data
                     (sourceTypeOf (sourceFile (videoGenState rendered)))
                         (returning record) (start []))).
Proof.
  intros Hprompt Hread. apply truthy_true in Hprompt.
  unfold handleGenerateVideo. rewrite Hprompt.
  unfold tryFinally, tryCatch, mbind, Async_bind, inShared, setIsLoading,
    setError, setVideoGenState, update, readFile, perform, mret, Async_ret.
  cbn [negb fst snd trace caller shared withShared start app].
  destruct (sourceFile (videoGenState rendered)) as [file|]; cbn [readSource] in Hread.
  - destruct (fileToBase64 ai file) as [e|bytesRead]; [discriminate|].
    injection Hread as <-.
    match goal with
    | |- context [generateVideo ai fuel ?p ?b ?m
        (returning showProgress) {| trace := _; caller := ?c |}] =>
        destruct (generateVideo_after_reading ai fuel p b m (Some file) c) as (_ & Htr & _);
        cbn [readingOf] in Htr;
        destruct (generateVideo ai fuel p b m (returning showProgress) _) as [[videoUrl|e|] w3]
    end; exact Htr.
  - injection Hread as <-.
    match goal with
    | |- context [generateVideo ai fuel ?p ?b ?m
        (returning showProgress) {| trace := _; caller := ?c |}] =>
        destruct (generateVideo_after_reading ai fuel p b m None c) as (_ & Htr & _);
        cbn [readingOf] in Htr;
        destruct (generateVideo ai fuel p b m (returning showProgress) _) as [[videoUrl|e|] w3]
    end; exact Htr.
Qed.

(** X20: [handleGenerateVideo] never leaves a rejected promise and touches
    nothing but the loading flag, the error, the generated video and the
    loading message.  A prompt of white space only gives the request for a
    prompt and nothing else.  Otherwise the source file, if any, is read;
    when the reading fails the generic message is shown without any call;
    else [generateVideo] runs with the prompt as typed, the bytes read and
    the type of the file.  Once it has settled the loading flag is down and
    the loading message empty, with the locator of the video stored or the
    message of the error shown; while it is awaited the loading message is
    the last progress message. *)
Theorem handleGenerateVideo_outcome
    (ai : Remote) (fuel : nat) (rendered st : Component) :
  let vs := videoGenState rendered in
  let run := handleGenerateVideo ai fuel rendered (start st) in
  let after := caller (snd run) in
  (activeTab after = activeTab st /\
   editState (shared after) = editState (shared st) /\
   genState after = genState st /\
   upscaleState after = upscaleState st /\
   video_prompt (videoGenState after) = video_prompt (videoGenState st) /\
   sourceFile (videoGenState after) = sourceFile (videoGenState st)) /\
  (Js.trim (video_prompt vs) = "" ->
   fst run = Fulfilled tt /\
   trace (snd run) = [] /\
   error (shared after) = Some "請輸入生成提示。" /\
   isLoading (shared after) = isLoading (shared st) /\
   generatedVideo (videoGenState after) = generatedVideo (videoGenState st) /\
   loadingMessage (videoGenState after) = loadingMessage (videoGenState st)) /\
  (Js.trim (video_prompt vs) <> "" ->
   match readSource ai (sourceFile vs) with
   | inl e =>
       fst run = Fulfilled tt /\
       trace (snd run) = readingOf (sourceFile vs) /\
       isLoading (shared after) = false /\
       loadingMessage (videoGenState after) = "" /\
       generatedVideo (videoGenState after) = None /\
       error (shared after) = Some (displayMessage e)
   | inr base64Data =>
       let call := generateVideo ai fuel (video_prompt vs) base64Data
                     (sourceTypeOf (sourceFile vs)) (returning record) (start []) in
       trace (snd run) = readingOf (sourceFile vs) ++ trace (snd call) /\
       match fst call with
       | Fulfilled videoUrl =>
           fst run = Fulfilled tt /\
           isLoading (shared after) = false /\
           loadingMessage (videoGenState after) = "" /\
           generatedVideo (videoGenState after) = Some videoUrl /\
           error (shared after) = None
       | Rejected e =>
           fst run = Fulfilled tt /\
           isLoading (shared after) = false /\
           loadingMessage (videoGenState after) = "" /\
           generatedVideo (videoGenState after) = None /\
           error (shared after) = Some (displayMessage e)
       | Pending =>
           fst run = Pending /\
           isLoading (shared after) = true /\
           loadingMessage (videoGenState after)
             = List.last (caller (snd call)) (loadingMessage (videoGenState st)) /\
           generatedVideo (videoGenState after) = None /\
           error (shared after) = None
       end
   end).
Proof.
  cbv zeta.
  remember (handleGenerateVideo ai fuel rendered (start st)) as run eqn:Hrun.
  unfold handleGenerateVideo in Hrun.
  destruct (Js.truthy (Js.trim (video_prompt (videoGenState rendered)))) eqn:Hprompt.
  2: { apply truthy_false in Hprompt. subst run. cbn.
       split; [now repeat split|]. split; [now repeat split|]. intros Hgiven. contradiction. }
  apply truthy_true in Hprompt.
  unfold tryFinally, tryCatch, mbind, Async_bind, inShared, setIsLoading,
    setError, setVideoGenState, update, readFile, perform, mret, Async_ret in Hrun.
  cbn [negb fst snd trace caller shared withShared start app] in Hrun.
  destruct (sourceFile (videoGenState rendered)) as [file|] eqn:Hsource;
    cbn [readSource readingOf].
  - destruct (fileToBase64 ai file) as [e|base64Data].
    + subst run. cbn. split; [now repeat split|]. split; [intros Hblank; contradiction|].
      intros _. now repeat split.
    + match type of Hrun with
      | context [generateVideo ai fuel ?p ?b ?m
          (returning showProgress) {| trace := _; caller := ?c |}] =>
          destruct (generateVideo_after_reading ai fuel p b m (Some file) c)
            as (Hres & Htr & Hcaller);
          destruct (deliver_showProgress
                      (caller (snd (generateVideo ai fuel p b m (returning record) (start [])))) c)
            as (H1 & H2 & H3 & H4 & H5 & H6 & H7 & H8);
          rewrite <- Hcaller in H1, H2, H3, H4, H5, H6, H7, H8;
          cbn [readingOf] in Hres, Htr;
          destruct (generateVideo ai fuel p b m (returning showProgress) _) as [r w3]
      end.
      cbn [fst snd] in *. rewrite <- Hres.
      split; [|split; [intros Hblank; contradiction|]; intros _];
        destruct r as [videoUrl|e|]; subst run; cbn;
        rewrite ?H1, ?H2, ?H3, ?H4, ?H5, ?H6, ?H7, ?H8, ?Htr; cbn; now repeat split.
  - match type of Hrun with
    | context [generateVideo ai fuel ?p ?b ?m
        (returning showProgress) {| trace := _; caller := ?c |}] =>
        destruct (generateVideo_after_reading ai fuel p b m None c)
          as (Hres & Htr & Hcaller);
        destruct (deliver_showProgress
                    (caller (snd (generateVideo ai fuel p b m (returning record) (start [])))) c)
          as (H1 & H2 & H3 & H4 & H5 & H6 & H7 & H8);
        rewrite <- Hcaller in H1, H2, H3, H4, H5, H6, H7, H8;
        cbn [readingOf] in Hres, Htr;
        destruct (generateVideo ai fuel p b m (returning showProgress) _) as [r w3]
    end.
    cbn [fst snd] in *. rewrite <- Hres.
    split; [|split; [intros Hblank; contradiction|]; intros _];
      destruct r as [videoUrl|e|]; subst run; cbn;
      rewrite ?H1, ?H2, ?H3, ?H4, ?H5, ?H6, ?H7, ?H8, ?Htr; cbn; now repeat split.
Qed.


(** *** What [handleGenerateVideo] submits *)

Section GenerateVideoBegins.
Context {X : Type}.
Variable ai : Remote.
Variable onProgress : string -> X -> X.
Variable prefix : list Event.

Let extends (w : World X) : Prop := exists rest, trace w = prefix ++ rest.

Lemma extends_notify message : preserves extends (notify (returning onProgress) message).
Proof.
  intros w Hw. apply (extends_emit prefix (EvProgress message)) in Hw. exact Hw.
Qed.

Lemma extends_generateVideo_loop fuel : forall operation messageIndex,
  preserves extends (generateVideo_loop ai fuel (returning onProgress) operation messageIndex).
Proof.
  induction fuel as [|fuel IH]; intros operation messageIndex; cbn [generateVideo_loop];
    destruct (isDone operation); try apply preserves_ret; [apply preserves_pending|].
  apply preserves_bind; [apply extends_notify|]. intros _.
  apply preserves_bind; [apply extends_emit|]. intros _.
  apply preserves_bind; [|intros operation'; apply IH].
  intros w Hw. unfold ai_operations_getVideosOperation. now apply extends_perform.
Qed.

End GenerateVideoBegins.

(** Every run of [generateVideo] begins with the first message and the
    submission. *)
Lemma generateVideo_begins {X : Type} (ai : Remote) (fuel : nat) (prompt : string)
    (base64ImageData mimeType : option string) (onProgress : string -> X -> X)
    (w : World X) :
  exists rest,
    trace (snd (generateVideo ai fuel prompt base64ImageData mimeType (returning onProgress) w))
    = trace w ++ EvProgress "正在初始化影片生成..."
        :: EvGenerateVideos (videoRequest prompt base64ImageData mimeType) :: rest.
Proof.
  set (prefix := trace w ++ [EvProgress "正在初始化影片生成...";
                             EvGenerateVideos (videoRequest prompt base64ImageData mimeType)]).
  set (extends := fun v : World X => exists rest, trace v = prefix ++ rest).
  assert (extends (snd (generateVideo ai fuel prompt base64ImageData mimeType
      (returning onProgress) w)))
    as [rest Hrest].
  { unfold generateVideo, tryCatch.
    unfold mbind at 1 2, Async_bind, notify at 1. sink_returns.
    unfold ai_models_generateVideos, perform, emit,
      update.
    unfold mbind at 1, Async_bind. cbn [fst snd trace caller].
    set (w1 := {| trace := _; caller := _ |}).
    assert (extends w1) as Hw1.
    { exists []. subst w1 prefix. cbn [trace]. now rewrite app_nil_r, <- app_assoc. }
    assert (forall e, preserves extends
              (console_error (X := X) "調用 Gemini API 進行影片生成時出錯:" e;;
               match e with
               | Error message => throw (A := string) (Error ("影片生成失敗： " +:+ message))
               | NonError => throw (Error "生成影片時發生未知的錯誤。")
               end)) as Hhandler.
    { intros e. apply preserves_bind; [apply extends_emit|]. intros _.
      destruct e; apply preserves_throw. }
    destruct (generateVideos ai _ _) as [e|operation]; [now apply Hhandler|].
    apply (preserves_tryCatch extends
             (fun v => _ v) (fun e => _)); [|exact Hhandler|exact Hw1].
    apply (preserves_bind extends (generateVideo_loop ai fuel (returning onProgress) operation 0));
      [apply extends_generateVideo_loop|]. intros operation'.
    destruct (downloadLinkOf operation') as [downloadLink|]; [|apply preserves_throw].
    destruct (Js.truthy downloadLink); [|apply preserves_throw].
    apply preserves_bind; [apply extends_notify|]. intros _.
    apply preserves_bind.
    { intros v Hv. unfold window_fetch. now apply extends_perform. }
    intros response. destruct (ok response); [|apply preserves_throw].
    apply preserves_bind; [apply preserves_settle|]. intros videoBlob.
    apply preserves_bind; [apply extends_emit|]. intros _. apply preserves_ret. }
  exists rest. rewrite Hrest. subst prefix. now rewrite <- app_assoc.
Qed.

(** X21: what [handleGenerateVideo] submits once the prompt is accepted and
    the reading has succeeded: after the reading and the first message, one
    request with the prompt as typed.  The request carries a seed image only
    when there is a source file and both the bytes read and the type of the
    file are non-empty; a file without type is read but not sent. *)
Theorem handleGenerateVideo_seed_image
    (ai : Remote) (fuel : nat) (rendered st : Component) (base64Data : option string)
    (Hprompt : Js.trim (video_prompt (videoGenState rendered)) <> "")
    (Hread : readSource ai (sourceFile (videoGenState rendered)) = inr base64Data) :
  exists request rest,
    trace (snd (handleGenerateVideo ai fuel rendered (start st)))
    = readingOf (sourceFile (videoGenState rendered))
      ++ EvProgress "正在初始化影片生成..." :: EvGenerateVideos request :: rest /\
    gv_prompt request = video_prompt (videoGenState rendered) /\
    gv_image request
    = match sourceFile (videoGenState rendered), base64Data with
      | Some file, Some bytesRead =>
          if Js.truthy bytesRead && Js.truthy (type file)
          then Some {| seed_imageBytes := bytesRead; seed_mimeType := type file |}
          else None
      | _, _ => None
      end.
Proof.
  pose proof (handleGenerateVideo_trace ai fuel rendered st base64Data Hprompt Hread)
    as Htrace.
  destruct (generateVideo_begins ai fuel (video_prompt (videoGenState rendered)) base64Data
              (sourceTypeOf (sourceFile (videoGenState rendered))) record (start []))
    as [rest Hcall].
  rewrite Hcall in Htrace. cbn [start trace app] in Htrace.
  eexists _, rest. split; [exact Htrace|]. split; [reflexivity|].
  cbn [videoRequest gv_image]. unfold seedImageOf, sourceTypeOf.
  destruct (sourceFile (videoGenState rendered)) as [file|]; [|now destruct base64Data].
  destruct base64Data as [bytesRead|]; [|now destruct (Js.truthy (type file))].
  destruct (Js.truthy (type file)) eqn:Htype; [now rewrite Htype|].
  now rewrite andb_false_r.
Qed.

Lemma handleGenerateVideo_seed_image_witness :
  exists request rest,
    trace (snd (handleGenerateVideo onePoll 1 (videoTab untyped) (start (videoTab untyped))))
    = [EvFileToBase64 untyped; EvProgress "正在初始化影片生成..."; EvGenerateVideos request]
      ++ rest /\
    gv_image request = None.
Proof.
  destruct (handleGenerateVideo_seed_image onePoll 1 (videoTab untyped) (videoTab untyped)
              (Some "Q0xJUA=="))
    as (request & rest & Htrace & _ & Himage); [discriminate | reflexivity |].
  exists request, rest. split; [exact Htrace | exact Himage].
Defined.

(** *** [handleImport] *)

Lemma lookup_last_appended {A} (l : list A) (a : A) :
  (l ++ [a]) !! (length (l ++ [a]) - 1) = Some a.
Proof.
  rewrite length_app. cbn [length]. rewrite Nat.add_sub.
  rewrite lookup_app_r by lia. now rewrite Nat.sub_diag.
Qed.

(** X22: [handleImport] always settles fulfilled and leaves the loading flag
    and the other tabs' prompts and results alone.  Without a URL it does
    nothing.  Otherwise it fetches once and reads the body whatever the
    status of the response; a failure of either shows that the image could
    not be imported and changes nothing else.  For the targets of the edit
    tab the new file is appended and selected, its entry is emptied so that
    no edited image is shown for it, the other entries and the earlier files
    stay, the tab is switched, and the prompt is the stock prompt, or empty
    with outpaint mode on for the outpaint target.  For the upscale tab the
    file replaces the original and clears the result.  For the other tabs
    nothing is changed.  The error shown before stays in every success. *)
Theorem handleImport_outcome
    (ai : Remote) (blobType : string -> string) (stamp created : Z)
    (imageUrl : option string) (chosenName : string) (targetTab : ImportTarget)
    (w : World Component) :
  let run := handleImport ai blobType stamp created imageUrl chosenName targetTab w in
  let before := caller w in
  let after := caller (snd run) in
  fst run = Fulfilled tt /\
  isLoading (shared after) = isLoading (shared before) /\
  genState after = genState before /\
  videoGenState after = videoGenState before /\
  match imageUrl with
  | Some url =>
      if Js.truthy url then
        trace (snd run) = trace w ++ [EvFetch url] /\
        match fetchedBody ai url (count isFetch (trace w)) with
        | inl _ =>
            error (shared after) = Some "無法導入圖片。" /\
            editState (shared after) = editState (shared before) /\
            upscaleState after = upscaleState before /\
            activeTab after = activeTab before
        | inr body =>
            let file := importedFile blobType stamp created chosenName body in
            error (shared after) = error (shared before) /\
            match targetTab with
            | toTab Tab.edit | toOutpaint =>
                activeTab after = Tab.edit /\
                upscaleState after = upscaleState before /\
                originalFiles (editState (shared after))
                  = originalFiles (editState (shared before)) ++ [file] /\
                selectedOriginalFile (editState (shared after)) = Some file /\
                editedImageUrl (editState (shared after)) = None /\
                hasEditedVersion (editState (shared after)) file = false /\
                (forall key, key <> fileKeyOf file ->
                   editedImages (editState (shared after)) !! key
                   = editedImages (editState (shared before)) !! key) /\
                outputName (editState (shared after))
                  = outputName (editState (shared before)) /\
                isOutpaint (editState (shared after))
                  = match targetTab with toOutpaint => true | toTab _ => false end /\
                prompt (editState (shared after))
                  = match targetTab with
                    | toOutpaint => ""
                    | toTab _ => "為主體戴上海盜帽。"
                    end
            | toTab Tab.upscale =>
                activeTab after = Tab.upscale /\
                editState (shared after) = editState (shared before) /\
                originalFile (upscaleState after) = Some file /\
                upscaledImage (upscaleState after) = None
            | toTab Tab.generateImage | toTab Tab.generateVideo =>
                activeTab after = activeTab before /\
                editState (shared after) = editState (shared before) /\
                upscaleState after = upscaleState before
            end
        end
      else snd run = w
  | None => snd run = w
  end.
Proof.
  cbv zeta.
  remember (handleImport ai blobType stamp created imageUrl chosenName targetTab w)
    as run eqn:Hrun.
  unfold handleImport in Hrun.
  destruct imageUrl as [url|]; [|subst run; now repeat split].
  destruct (Js.truthy url); [|subst run; now repeat split].
  unfold tryCatch, mbind, Async_bind, window_fetch, perform, settle, fetchedBody in *.
  cbn [negb] in Hrun.
  destruct (fetch ai url (count isFetch (trace w))) as [e|res];
    [subst run; cbn; now repeat split|].
  cbn [fst snd trace caller] in Hrun.
  destruct (blob res) as [e|body]; [subst run; cbn; now repeat split|].
  fold (importedFile blobType stamp created chosenName body) in Hrun.
  set (file := importedFile blobType stamp created chosenName body) in *.
  destruct targetTab as [[| | |]|]; subst run;
    unfold inShared, setEditState, setError, setActiveTab, setUpscaleState, update,
      mbind, Async_bind;
    cbn [fst snd trace caller shared withShared activeTab genState videoGenState upscaleState
         isLoading error editState originalFile upscaledImage];
    try (now repeat split).
  - do 9 (split; [reflexivity|]).
    unfold editedImageUrl, hasEditedVersion, selectedOriginalFile.
    cbn [importIntoEdit originalFiles selectedFileIndex editedImages outputName isOutpaint
         prompt mbind option_bind].
    rewrite lookup_last_appended, lookup_insert_eq.
    do 3 (split; [reflexivity|]).
    split; [intros key Hkey; now rewrite lookup_insert_ne|]. now repeat split.
  - do 9 (split; [reflexivity|]).
    unfold editedImageUrl, hasEditedVersion, selectedOriginalFile.
    cbn [importIntoEdit originalFiles selectedFileIndex editedImages outputName isOutpaint
         prompt mbind option_bind].
    rewrite lookup_last_appended, lookup_insert_eq.
    do 3 (split; [reflexivity|]).
    split; [intros key Hkey; now rewrite lookup_insert_ne|]. now repeat split.
Qed.


(** The edit tab after an import for outpainting. *)
Lemma handleImport_toOutpaint
    (ai : Remote) (blobType : string -> string) (stamp created : Z)
    (url chosenName body : string) (w : World Component) :
  url <> "" ->
  fetchedBody ai url (count isFetch (trace w)) = inr body ->
  editState (shared (caller (snd (handleImport ai blobType stamp created (Some url) chosenName
                                    toOutpaint w))))
  = importIntoEdit (importedFile blobType stamp created chosenName body) true
      (editState (shared (caller w))).
Proof.
  intros Hurl Hbody. apply truthy_true in Hurl.
  unfold handleImport. rewrite Hurl.
  unfold tryCatch, mbind, Async_bind, window_fetch, perform, settle, fetchedBody in *.
  cbn [negb].
  destruct (fetch ai url (count isFetch (trace w))) as [e|res]; [discriminate|].
  cbn [fst snd trace caller]. rewrite Hbody. reflexivity.
Qed.

Lemma afterCall_trace fileKey (call : PromiseState string * World AppState) :
  trace (snd (afterCall fileKey call)) = trace (snd call).
Proof. now destruct call as [[result|e|] w]. Qed.

(** X23: an image imported for outpainting is edited with the default
    prompt: [handleEdit], built by the render that follows the import, reads
    the imported file and, unless the reading fails, runs [editImage] on its
    bytes and type with the default prompt of [outpaintImage]. *)
Theorem outpaint_import_is_edited_with_default_prompt
    (ai : Remote) (blobType : string -> string) (stamp created : Z)
    (url chosenName body : string) (fuel : nat) (st : Component)
    (Hurl : url <> "")
    (Hbody : fetchedBody ai url 0 = inr body) :
  let file := importedFile blobType stamp created chosenName body in
  let imported :=
    shared (caller (snd (handleImport ai blobType stamp created (Some url) chosenName
                           toOutpaint (start st)))) in
  trace (snd (handleEdit ai fuel imported (start imported)))
  = EvFileToBase64 file
    :: match fileToBase64 ai file with
       | inl _ => []
       | inr base64Data =>
           trace (snd (editImage ai fuel base64Data (type file) defaultPrompt (start tt)))
       end.
Proof.
  cbv zeta.
  pose proof (handleImport_toOutpaint ai blobType stamp created url chosenName body
                (start st) Hurl Hbody) as Himport.
  set (imported := shared (caller (snd (handleImport _ _ _ _ _ _ _ _)))) in *.
  set (file := importedFile blobType stamp created chosenName body) in *.
  assert (Hsel : selectedOriginalFile (editState imported) = Some file).
  { rewrite Himport. unfold selectedOriginalFile.
    cbn [importIntoEdit selectedFileIndex originalFiles mbind option_bind].
    apply lookup_last_appended. }
  assert (Hout : isOutpaint (editState imported) = true) by now rewrite Himport.
  assert (Hp : prompt (editState imported) = "") by now rewrite Himport.
  rewrite (handleEdit_run ai fuel imported file (start imported) Hsel (or_introl Hout)).
  rewrite afterCall_trace.
  unfold editCall, mbind, Async_bind, readFile, perform. rewrite Hout, Hp.
  cbn [start trace caller app].
  destruct (fileToBase64 ai file) as [e|base64Data]; [reflexivity|].
  unfold outpaintImage. cbv zeta.
  change (finalPromptOf (Some "")) with defaultPrompt.
  match goal with
  | |- trace (snd (editImage ai fuel base64Data (type file) defaultPrompt ?w)) = _ =>
      destruct (after_editImage (X2 := unit) [EvFileToBase64 file]
                  (quiet_reading (Some file)) ai fuel base64Data (type file) defaultPrompt
                  w (start tt) eq_refl) as [_ Htr]
  end.
  exact Htr.
Qed.

Lemma outpaint_import_is_edited_with_default_prompt_witness :
  sentPrompts
    (trace (snd (handleEdit (fetchingRemote notFound) 3
                   (shared (caller (snd (handleImport (fetchingRemote notFound)
                                           (fun _ => "image/jpeg") 1700000001000 1700000001001
                                           (Some "blob:generated") "" toOutpaint
                                           (start initialComponent)))))
                   (start (shared (caller (snd (handleImport (fetchingRemote notFound)
                                                  (fun _ => "image/jpeg") 1700000001000
                                                  1700000001001 (Some "blob:generated") ""
                                                  toOutpaint (start initialComponent)))))))))
  = [Some defaultPrompt].
Proof.
  rewrite (outpaint_import_is_edited_with_default_prompt (fetchingRemote notFound)
             (fun _ => "image/jpeg") 1700000001000 1700000001001 "blob:generated" ""
             "PGh0bWw+" 3 initialComponent);
    [reflexivity | discriminate | reflexivity].
Defined.
